(** * Fling client-side training: a shallow embedding of
      [fling/component/client/base_client.py], [fling/dataset/mnist.py] and
      [fling/dataset/cifar100.py], and the properties of the specification
      that are settled against it. *)

From Stdlib Require Import ZArith Floats Uint63 Permutation.
From stdpp Require Import base gmap list strings.

(** ** Python exceptions and fallible computations *)

Inductive exn :=
| AttributeError (name : string)
| KeyError (key : string)
| TypeError
| IndexError
| ValueError
| OverflowError
| ExternalError (origin : string).

Inductive result (A : Type) :=
| Ok (a : A)
| Raise (e : exn).
Arguments Ok {A} a.
Arguments Raise {A} e.

#[global] Instance result_ret : MRet result := @Ok.
#[global] Instance result_bind : MBind result := λ A B k r,
  match r with Ok a => k a | Raise e => Raise e end.

Fixpoint rmapM {A B} (f : A → result B) (l : list A) : result (list B) :=
  match l with
  | [] => Ok []
  | a :: l' => b ← f a; bs ← rmapM f l'; Ok (b :: bs)
  end.

(** Attribute access on a configuration node or an object's attribute
    dictionary: a missing name raises [AttributeError]. *)
Definition getattr {V} (o : gmap string V) (name : string) : result V :=
  match o !! name with
  | Some v => Ok v
  | None => Raise (AttributeError name)
  end.

(** ** Python sequences *)

(** [l[i]] for a Python int [i]: negative subscripts count from the end. *)
Definition py_index {A} (l : list A) (i : Z) : result A :=
  let n := Z.of_nat (length l) in
  let j := (if i <? 0 then i + n else i)%Z in
  if ((j <? 0) || (n <=? j))%Z then Raise IndexError
  else match l !! Z.to_nat j with
       | Some a => Ok a
       | None => Raise IndexError
       end.

(** The bound [k] of a slice, clamped as Python's [slice.indices] does. *)
Definition slice_bound {A} (l : list A) (k : Z) : nat :=
  let n := Z.of_nat (length l) in
  Z.to_nat (if k <? 0 then Z.max 0 (k + n) else Z.min k n)%Z.

(** [l[:k]] and [l[k:]]. *)
Definition slice_to {A} (l : list A) (k : Z) : list A := take (slice_bound l k) l.
Definition slice_from {A} (l : list A) (k : Z) : list A := drop (slice_bound l k) l.

(** ** [random.shuffle]

    The state of Python's global generator is the sequence of raw draws it
    will deliver; [randbelow n] consumes one and reduces it below [n]. *)
Definition rng := list nat.

Definition randbelow (n : nat) (g : rng) : nat * rng :=
  match g with
  | [] => (0, [])
  | r :: g' => (r `mod` n, g')
  end.

(** [x[i], x[j] = x[j], x[i]] *)
Definition swap {A} (x : list A) (i j : nat) : list A :=
  match x !! i, x !! j with
  | Some a, Some b => <[j := a]> (<[i := b]> x)
  | _, _ => x
  end.

(** [for i in reversed(range(1, len(x))): j = randbelow(i + 1); swap].
    [shuffle_from i] runs the iterations [i, i-1, ..., 1]. *)
Fixpoint shuffle_from {A} (i : nat) (x : list A) (g : rng) : list A * rng :=
  match i with
  | O => (x, g)
  | S i' =>
      let '(j, g') := randbelow (S i) g in
      shuffle_from i' (swap x i j) g'
  end.

Definition shuffle {A} (x : list A) (g : rng) : list A * rng :=
  shuffle_from (length x - 1) x g.

(** ** Floats: [int(x)] and [float(n)] *)

(** [int(x)] truncates towards zero; it raises on infinities and NaN. *)
Definition py_int (x : float) : result Z :=
  match Prim2SF x with
  | S754_zero _ => Ok 0%Z
  | S754_infinity _ => Raise OverflowError
  | S754_nan => Raise ValueError
  | S754_finite s m e =>
      let v := (if 0 <=? e then Z.pos m * 2 ^ e else Z.pos m / 2 ^ (- e))%Z in
      Ok (if s then - v else v)%Z
  end.

(** The float an [int] operand is converted to in mixed arithmetic
    (container lengths stay far below 2^63, where [of_Z] is exact). *)
Definition py_float (n : Z) : float := PrimFloat.of_uint63 (Uint63.of_Z n).

(** The literal [0.2]: the double nearest to one fifth. *)
Definition one_fifth : float := 0x1.999999999999ap-3%float.

(** ** Configuration *)

(** A configuration node is an attribute dictionary; the leaves the dataset
    adapters read are strings (paths) or sequences of names (transforms). *)
Inductive CfgVal :=
| CStr (s : string)
| CSeq (l : list string).

Record Cfg := { data : gmap string CfgVal }.

(** The attributes [BaseClient] reads from [args]. *)
Record OptimizerArgs := { name : string; momentum : float }.
Record LearnArgs := { batch_size : Z; local_eps : Z; optimizer : OptimizerArgs }.
Record ClientArgs := { val_frac : float }.
Record Args := { client : ClientArgs; learn : LearnArgs }.

(** ** Model objects *)

Record Module (tensor : Type) := {
  parameters : list tensor;
  training : bool;
  placement : string;
}.
Arguments parameters {tensor} _.
Arguments training {tensor} _.
Arguments placement {tensor} _.

(** A value held by an item or by a column of a batch: a tensor or an
    integer label. *)
Inductive Field (tensor : Type) :=
| FTensor (t : tensor)
| FInt (z : Z).
Arguments FTensor {tensor} t.
Arguments FInt {tensor} z.

(** A preprocessed batch, [{'x': ..., 'y': ...}], moved to a device. *)
Record XY (tensor : Type) := {
  x : list (Field tensor);
  y : list (Field tensor);
  on_device : string;
}.
Arguments x {tensor} _.
Arguments y {tensor} _.
Arguments on_device {tensor} _.

(** ** Collaborators outside the sources

    torch, torchvision and the helpers of [fling.utils] that the sources
    import. They are taken as parameters; every one of them may raise. *)
Class Torch := {
  tensor : Type;
  transform : Type;
  optim : Type;
  generator : Type;
  finetune_args : Type;
  (** [get_data_transform(cfg.data.transforms, train=train)] *)
  get_data_transform : CfgVal → bool → result transform;
  (** [MNIST(root, train=, transform=, download=True)] and [CIFAR100(...)]:
      the samples [(img, target)] the torchvision dataset will deliver. *)
  torchvision_MNIST : CfgVal → bool → transform → result (list (tensor * Z));
  torchvision_CIFAR100 : CfgVal → bool → transform → result (list (tensor * Z));
  (** Argument validation of [DataLoader(dataset, batch_size=, shuffle=True)],
      given [len(dataset)] and the batch size. *)
  DataLoader_check : nat → Z → result ();
  (** The order in which a shuffling loader visits [range(n)] in one pass. *)
  randperm : nat → generator → list nat * generator;
  randperm_Permutation n g : (randperm n g).1 ≡ₚ seq 0 n;
  (** [get_optimizer(name=, lr=, momentum=, weights=)]; the weights are the
      positions of the selected tensors in [model.parameters()]. *)
  get_optimizer : string → float → float → list nat → result optim;
  (** [get_finetune_parameters(model, finetune_args=)] *)
  get_finetune_parameters : Module tensor → finetune_args → result (list nat);
  (** [o = model(x); loss = criterion(o, y); y_pred = argmax(o)]: the batch
      accuracy and the loss value. *)
  forward_loss : Module tensor → XY tensor → result (float * float);
  (** [optimizer.zero_grad(); loss.backward(); optimizer.step()]: the new
      optimizer state and the new values of the parameters it is bound to. *)
  optim_step : optim → Module tensor → XY tensor → result (optim * list tensor);
}.

(** ** Dataset adapters *)

Section Datasets.
Context `{Torch}.

(** What indexing a dataset yields: torchvision's pair [(img, target)] or
    a dict from field names to values. *)
Inductive Item :=
| ItemTuple (img : tensor) (target : Z)
| ItemDict (d : gmap string (Field tensor)).

Definition pair_item (s : tensor * Z) : Item := ItemTuple s.1 s.2.

(** The record with fields [input] and [class_id]. *)
Definition record_item (input : tensor) (class_id : Z) : Item :=
  ItemDict (<["input" := FTensor input]> (<["class_id" := FInt class_id]> ∅)).

(** [fling/dataset/mnist.py]. The attributes are those [__init__] sets;
    [mnist_indexes] is the instance attribute [indexes], which [__init__]
    does not create and which exists only once it has been assigned from
    outside (the way [BaseClient.__init__] assigns it on its copies). *)
Record MNISTDataset := {
  mnist_train : bool;
  mnist_cfg : Cfg;
  mnist_dataset : list (tensor * Z);
  mnist_indexes : option (list nat);
}.

Definition MNISTDataset_init (cfg : Cfg) (train : bool) : result MNISTDataset :=
  transforms ← getattr (data cfg) "transforms";
  transform ← get_data_transform transforms train;
  data_path ← getattr (data cfg) "data_path";
  dataset ← torchvision_MNIST data_path train transform;
  Ok {| mnist_train := train; mnist_cfg := cfg;
        mnist_dataset := dataset; mnist_indexes := None |}.

Definition MNISTDataset_len (self : MNISTDataset) : nat :=
  length (mnist_dataset self).

Definition MNISTDataset_getitem (self : MNISTDataset) (item : Z) : result Item :=
  s ← py_index (mnist_dataset self) item;
  Ok (pair_item s).

Definition MNISTDataset_set_indexes (self : MNISTDataset) (l : list nat) : MNISTDataset :=
  {| mnist_train := mnist_train self; mnist_cfg := mnist_cfg self;
     mnist_dataset := mnist_dataset self; mnist_indexes := Some l |}.

(** [fling/dataset/cifar100.py] *)
Record CIFAR100Dataset := {
  cifar_train : bool;
  cifar_cfg : Cfg;
  cifar_dataset : list (tensor * Z);
  cifar_indexes : option (list nat);
}.

Definition CIFAR100Dataset_init (cfg : Cfg) (train : bool) : result CIFAR100Dataset :=
  transforms ← getattr (data cfg) "transforms";
  transform ← get_data_transform transforms train;
  data_path ← getattr (data cfg) "data_pathpath";
  dataset ← torchvision_CIFAR100 data_path train transform;
  Ok {| cifar_train := train; cifar_cfg := cfg;
        cifar_dataset := dataset; cifar_indexes := None |}.

Definition CIFAR100Dataset_len (self : CIFAR100Dataset) : nat :=
  length (cifar_dataset self).

Definition CIFAR100Dataset_getitem (self : CIFAR100Dataset) (item : Z) : result Item :=
  s0 ← py_index (cifar_dataset self) item;
  s1 ← py_index (cifar_dataset self) item;
  Ok (record_item s0.1 s1.2).

Definition CIFAR100Dataset_set_indexes (self : CIFAR100Dataset) (l : list nat)
  : CIFAR100Dataset :=
  {| cifar_train := cifar_train self; cifar_cfg := cifar_cfg self;
     cifar_dataset := cifar_dataset self; cifar_indexes := Some l |}.

Inductive Adapter :=
| OfMNIST (d : MNISTDataset)
| OfCIFAR100 (d : CIFAR100Dataset).

Definition Adapter_len (a : Adapter) : nat :=
  match a with
  | OfMNIST d => MNISTDataset_len d
  | OfCIFAR100 d => CIFAR100Dataset_len d
  end.

Definition Adapter_getitem (a : Adapter) (item : Z) : result Item :=
  match a with
  | OfMNIST d => MNISTDataset_getitem d item
  | OfCIFAR100 d => CIFAR100Dataset_getitem d item
  end.

(** Whether a value is the structured record of the specification. *)
Definition is_record (it : Item) : Prop :=
  ∃ input class_id, it = record_item input class_id.

End Datasets.

(** ** The client's view of a dataset shard *)

Section Shards.
Context `{Torch}.

(** Modelled from the spec: the class of the shards handed to a client is
    not among the sources. The specification describes it as a view into a
    base dataset through a mutable ordered sequence of indexes, whose
    length is that of the active index set and whose indexing fails with
    [IndexError] beyond it. *)
Record DatasetView := {
  tot_data : Adapter;
  indexes : list nat;
}.

(** Modelled from the spec: the length is that of the active index set. *)
Definition DatasetView_len (self : DatasetView) : nat := length (indexes self).

(** Modelled from the spec: indexing goes through the active index set and
    fails with [IndexError] beyond it. *)
Definition DatasetView_getitem (self : DatasetView) (item : Z) : result Item :=
  i ← py_index (indexes self) item;
  Adapter_getitem (tot_data self) (Z.of_nat i).

(** Modelled from the spec: [self.indexes = l], the reassignment of the
    active index subset. *)
Definition DatasetView_set_indexes (self : DatasetView) (l : list nat) : DatasetView :=
  {| tot_data := tot_data self; indexes := l |}.

(** [DataLoader(dataset, batch_size=, shuffle=True)] *)
Record DataLoader := {
  dl_dataset : DatasetView;
  dl_batch_size : Z;
}.

Definition DataLoader_new (dataset : DatasetView) (bs : Z) : result DataLoader :=
  _ ← DataLoader_check (DatasetView_len dataset) bs;
  Ok {| dl_dataset := dataset; dl_batch_size := bs |}.

(** Consecutive groups of [S n] positions; the last one may be short. *)
Fixpoint chunks_fuel (fuel n : nat) (l : list nat) : list (list nat) :=
  match fuel, l with
  | O, _ | _, [] => []
  | S fuel', _ => take (S n) l :: chunks_fuel fuel' n (drop (S n) l)
  end.

Definition chunks (bs : Z) (l : list nat) : list (list nat) :=
  match Z.to_nat bs with
  | O => []
  | S n => chunks_fuel (length l) n l
  end.

(** The positions of each batch of one pass over the loader. *)
Definition batch_positions (dl : DataLoader) (g : generator)
  : list (list nat) * generator :=
  let '(order, g') := randperm (DatasetView_len (dl_dataset dl)) g in
  (chunks (dl_batch_size dl) order, g').

(** A collated batch: a dict of columns for dict items, a sequence of
    columns for tuple items. *)
Inductive Batch :=
| BatchDict (d : gmap string (list (Field tensor)))
| BatchSeq (cols : list (list (Field tensor))).

Definition dict_column (key : string) (items : list Item)
  : result (list (Field tensor)) :=
  rmapM (λ it, match it with
               | ItemDict d => match d !! key with
                               | Some f => Ok f
                               | None => Raise (KeyError key)
                               end
               | ItemTuple _ _ => Raise TypeError
               end) items.

Definition tuple_columns (items : list Item)
  : result (list (Field tensor) * list (Field tensor)) :=
  ps ← rmapM (λ it, match it with
                    | ItemTuple img target => Ok (FTensor img, FInt target)
                    | ItemDict _ => Raise TypeError
                    end) items;
  Ok (ps.*1, ps.*2).

(** [default_collate] on the items of one batch. *)
Definition collate (items : list Item) : result Batch :=
  match items with
  | [] => Raise IndexError
  | ItemDict d0 :: _ =>
      cols ← rmapM (λ kv : string * Field tensor,
                      col ← dict_column kv.1 items; Ok (kv.1, col))
                   (map_to_list d0);
      Ok (BatchDict (list_to_map cols))
  | ItemTuple _ _ :: _ =>
      '(imgs, targets) ← tuple_columns items;
      Ok (BatchSeq [imgs; targets])
  end.

(** Fetching one batch: index the dataset at each position, then collate. *)
Definition fetch (dl : DataLoader) (positions : list nat) : result Batch :=
  items ← rmapM (λ i, DatasetView_getitem (dl_dataset dl) (Z.of_nat i)) positions;
  collate items.

(** [data[key]] on a collated batch. *)
Definition Batch_getitem (data : Batch) (key : string) : result (list (Field tensor)) :=
  match data with
  | BatchDict d => match d !! key with
                   | Some col => Ok col
                   | None => Raise (KeyError key)
                   end
  | BatchSeq _ => Raise TypeError
  end.

End Shards.

(** ** The metric monitor *)

Definition Metrics := gmap string float.

(** Modelled from the spec: [VariableMonitor] of [fling.utils] is not among
    the sources. The specification describes it as a mapping from metric
    name to the ordered sequence of (value, weight) pairs appended so far,
    reduced by [variable_mean] to the weighted mean of each tracked name. *)
Definition VariableMonitor := gmap string (list (float * float)).

(** Modelled from the spec: a new monitor tracks no name. *)
Definition VariableMonitor_new : VariableMonitor := ∅.

(** Modelled from the spec: [append(values, weight)] records, under each
    name of [values], its value with the weight of the batch. *)
Definition VariableMonitor_append (values : Metrics) (weight : float)
    (self : VariableMonitor) : VariableMonitor :=
  merge (λ old new,
           match new with
           | Some v => Some (default [] old ++ [(v, weight)])
           | None => old
           end) self values.

(** Modelled from the spec: [sum(value_i * weight_i) / sum(weight_i)]. *)
Definition weighted_mean (l : list (float * float)) : float :=
  (foldl (λ acc vw, acc + vw.1 * vw.2) 0 l / foldl (λ acc vw, acc + vw.2) 0 l)%float.

(** Modelled from the spec: [variable_mean()] returns a new mapping from
    each tracked name to the weighted mean of its values. *)
Definition variable_mean (self : VariableMonitor) : Metrics :=
  weighted_mean <$> self.

(** ** [BaseClient] *)

Definition loc := positive.

Section Client.
Context `{Torch}.

(** The attributes of a client object. [val_dataloader] and
    [test_dataloader] exist only when [__init__] has assigned them. *)
Record BaseClient := {
  args : Args;
  client_id : Z;
  model : loc;
  device : string;
  sample_num : nat;
  train_dataloader : DataLoader;
  val_dataloader : option DataLoader;
  test_dataloader : option DataLoader;
}.

(** Lines 39-48 of [__init__]: the two deep copies of the shard, the
    in-place shuffle of the first copy's indexes and the prefix/suffix
    split. The bound is evaluated once for each slice. *)
Definition split_shard (f : float) (train_dataset : DatasetView) (g : rng)
  : result (DatasetView * DatasetView) * rng :=
  let real_train := train_dataset in
  let real_test := train_dataset in
  let '(indexes, g') := shuffle (indexes real_train) g in
  let n := py_float (Z.of_nat (DatasetView_len train_dataset)) in
  (k1 ← py_int ((1 - f) * n)%float;
   let train_index := slice_to indexes k1 in
   k2 ← py_int ((1 - f) * n)%float;
   let test_index := slice_from indexes k2 in
   Ok (DatasetView_set_indexes real_train train_index,
       DatasetView_set_indexes real_test test_index), g').

Definition optional_loader (dataset : option DatasetView) (bs : Z)
  : result (option DataLoader) :=
  match dataset with
  | Some d => dl ← DataLoader_new d bs; Ok (Some dl)
  | None => Ok None
  end.

(** What the base class records. *)
Record ClientTemplate := {
  template_args : Args;
  template_client_id : Z;
  template_model : loc;
  template_device : string;
}.

(** Modelled from the spec: [ClientTemplate.__init__] is not among the
    sources. The specification has a client hold its identity, its
    configuration, a reference to the model and a device identifier; the
    model reference and the device, which the outer system provides, are
    taken as [model0] and [device0]. *)
Definition ClientTemplate_init (a : Args) (id : Z) (model0 : loc) (device0 : string)
  : ClientTemplate :=
  {| template_args := a; template_client_id := id;
     template_model := model0; template_device := device0 |}.

(** [BaseClient.__init__] *)
Definition BaseClient_init (a : Args) (id : Z) (train_dataset : DatasetView)
    (test_dataset : option DatasetView) (model0 : loc) (device0 : string) (g : rng)
  : result BaseClient * rng :=
  let base := ClientTemplate_init a id model0 device0 in
  let bs := batch_size (learn a) in
  if (val_frac (client a) =? 0)%float then
    (train_dl ← DataLoader_new train_dataset bs;
     test_dl ← optional_loader test_dataset bs;
     Ok {| args := template_args base; client_id := template_client_id base;
           model := template_model base; device := template_device base;
           sample_num := DatasetView_len train_dataset;
           train_dataloader := train_dl; val_dataloader := None;
           test_dataloader := test_dl |}, g)
  else
    let '(r, g') := split_shard (val_frac (client a)) train_dataset g in
    ('(real_train, real_test) ← r;
     train_dl ← DataLoader_new real_train bs;
     val_dl ← DataLoader_new real_test bs;
     test_dl ← optional_loader test_dataset bs;
     Ok {| args := template_args base; client_id := template_client_id base;
           model := template_model base; device := template_device base;
           sample_num := DatasetView_len real_train;
           train_dataloader := train_dl; val_dataloader := Some val_dl;
           test_dataloader := test_dl |}, g').

(** *** The state the methods run in

    The client object, the model objects it and the outer system refer to,
    and torch's generator. A method is a state transformer that returns or
    raises; the state it leaves is kept in both cases. *)
Record State := {
  self : BaseClient;
  heap : gmap loc (Module tensor);
  torch_gen : generator;
}.

Definition M (A : Type) : Type := State → result A * State.

#[global] Instance M_ret : MRet M := λ A a s, (Ok a, s).
#[global] Instance M_bind : MBind M := λ A B k m s,
  match m s with
  | (Ok a, s') => k a s'
  | (Raise e, s') => (Raise e, s')
  end.

Definition lift {A} (r : result A) : M A := λ s, (r, s).
Definition get_self : M BaseClient := λ s, (Ok (self s), s).
Definition set_self (c : BaseClient) : M () := λ s,
  (Ok (), {| self := c; heap := heap s; torch_gen := torch_gen s |}).

(** The object a reference designates. *)
Definition deref (l : loc) : M (Module tensor) := λ s,
  match heap s !! l with
  | Some m => (Ok m, s)
  | None => (Raise (ExternalError "dangling reference"), s)
  end.

(** Storing an object under a reference. *)
Definition store (l : loc) (m : Module tensor) : M () := λ s,
  (Ok (), {| self := self s; heap := <[l := m]> (heap s);
             torch_gen := torch_gen s |}).

Definition update (l : loc) (f : Module tensor → Module tensor) : M () :=
  m ← deref l;
  store l (f m).

(** [self.device = d] and [self.model = l] *)
Definition set_device (d : string) : M () :=
  c ← get_self;
  set_self {| args := args c; client_id := client_id c; model := model c;
              device := d; sample_num := sample_num c;
              train_dataloader := train_dataloader c;
              val_dataloader := val_dataloader c;
              test_dataloader := test_dataloader c |}.

Definition set_model (l : loc) : M () :=
  c ← get_self;
  set_self {| args := args c; client_id := client_id c; model := l;
              device := device c; sample_num := sample_num c;
              train_dataloader := train_dataloader c;
              val_dataloader := val_dataloader c;
              test_dataloader := test_dataloader c |}.

(** [self.model.train()], [self.model.eval()], [self.model.to(d)] *)
Definition set_training (b : bool) (m : Module tensor) : Module tensor :=
  {| parameters := parameters m; training := b; placement := placement m |}.
Definition set_placement (d : string) (m : Module tensor) : Module tensor :=
  {| parameters := parameters m; training := training m; placement := d |}.
Definition set_parameters (ps : list tensor) (m : Module tensor) : Module tensor :=
  {| parameters := ps; training := training m; placement := placement m |}.

Definition model_train : M () := c ← get_self; update (model c) (set_training true).
Definition model_eval : M () := c ← get_self; update (model c) (set_training false).
Definition model_to (d : string) : M () := c ← get_self; update (model c) (set_placement d).
Definition model_to_device : M () := c ← get_self; model_to (device c).

(** A reference no object is stored under yet. *)
Definition new_loc : M loc := λ s, (Ok (fresh (dom (heap s))), s).

(** [copy.deepcopy(self.model)]: a new object with the same contents. *)
Definition deepcopy_model : M loc :=
  c ← get_self;
  m ← deref (model c);
  l ← new_loc;
  _ ← store l m;
  mret l.

(** [if device is not None: device_bak = self.device; self.device = device] *)
Definition override_device (d : option string) : M (option string) :=
  match d with
  | Some d' => c ← get_self; _ ← set_device d'; mret (Some (device c))
  | None => mret None
  end.

(** [if device is not None: self.device = device_bak] *)
Definition restore_device (device_bak : option string) : M () :=
  match device_bak with
  | Some d => set_device d
  | None => mret ()
  end.

(** Python's [for] over a list, threading the loop-carried values. *)
Fixpoint for_each {A S} (l : list A) (body : A → S → M S) (acc : S) : M S :=
  match l with
  | [] => mret acc
  | a :: l' => acc' ← body a acc; for_each l' body acc'
  end.

(** [for epoch in range(n)] *)
Definition for_range {S} (n : Z) (body : nat → S → M S) (acc : S) : M S :=
  for_each (seq 0 (Z.to_nat n)) body acc.

Definition draw_positions (dl : DataLoader) : M (list (list nat)) := λ s,
  let '(ps, g') := batch_positions dl (torch_gen s) in
  (Ok ps, {| self := self s; heap := heap s; torch_gen := g' |}).

(** [for _, data in enumerate(loader)]: a new order is drawn when the
    iteration starts, and each batch is fetched when its turn comes. *)
Definition for_batches {S} (dl : DataLoader) (body : Batch → S → M S) (acc : S) : M S :=
  positions ← draw_positions dl;
  for_each positions (λ ps acc, data ← lift (fetch dl ps); body data acc) acc.

(** An optimizer, bound to the parameters of the object it was built on. *)
Record Optimizer := {
  bound_to : loc;
  opt_state : optim;
}.

Definition batch_weight (batch : XY tensor) : float :=
  py_float (Z.of_nat (length (y batch))).

Definition train_step (batch_data : XY tensor) (monitor : VariableMonitor)
    (op : Optimizer) : M (VariableMonitor * Optimizer) :=
  c ← get_self;
  m ← deref (model c);
  '(acc, loss) ← lift (forward_loss m batch_data);
  let monitor' := VariableMonitor_append
                    (<["train_acc" := acc]> (<["train_loss" := loss]> ∅))
                    (batch_weight batch_data) monitor in
  target ← deref (bound_to op);
  '(st, ps) ← lift (optim_step (opt_state op) target batch_data);
  _ ← update (bound_to op) (set_parameters ps);
  mret (monitor', {| bound_to := bound_to op; opt_state := st |}).

Definition test_step (batch_data : XY tensor) (monitor : VariableMonitor)
  : M VariableMonitor :=
  c ← get_self;
  m ← deref (model c);
  '(acc, loss) ← lift (forward_loss m batch_data);
  mret (VariableMonitor_append
          (<["test_acc" := acc]> (<["test_loss" := loss]> ∅))
          (batch_weight batch_data) monitor).

Definition preprocess_data (data : Batch) : M (XY tensor) :=
  c ← get_self;
  input ← lift (Batch_getitem data "input");
  class_id ← lift (Batch_getitem data "class_id");
  mret {| x := input; y := class_id; on_device := device c |}.

(** [model.parameters()]: every parameter tensor, by position. *)
Definition all_parameters (m : Module tensor) : list nat :=
  seq 0 (length (parameters m)).

(** One pass over the training loader: the inner loop of [train]
    (lines 113-116), which [finetune] repeats at lines 159-162. The monitor
    and the optimizer are carried from batch to batch. *)
Definition train_pass (acc : VariableMonitor * Optimizer)
  : M (VariableMonitor * Optimizer) :=
  c ← get_self;
  for_batches (train_dataloader c)
    (λ data '(monitor, op),
       preprocessed_data ← preprocess_data data;
       train_step preprocessed_data monitor op)
    acc.

Definition train (lr : float) (device : option string) : M Metrics :=
  device_bak ← override_device device;
  _ ← model_train;
  _ ← model_to_device;
  c ← get_self;
  m ← deref (model c);
  let weights := all_parameters m in
  st ← lift (get_optimizer (name (optimizer (learn (args c)))) lr
               (momentum (optimizer (learn (args c)))) weights);
  let op := {| bound_to := model c; opt_state := st |} in
  let monitor := VariableMonitor_new in
  '(monitor, _) ←
    for_range (local_eps (learn (args c))) (λ epoch acc, train_pass acc) (monitor, op);
  let mean_monitor_variables := variable_mean monitor in
  _ ← model_to "cpu";
  _ ← restore_device device_bak;
  mret mean_monitor_variables.

Definition test : M Metrics :=
  _ ← model_eval;
  _ ← model_to_device;
  let monitor := VariableMonitor_new in
  c ← get_self;
  dl ← match test_dataloader c with
       | Some dl => mret dl
       | None => lift (Raise (AttributeError "test_dataloader"))
       end;
  monitor ←
    for_batches dl
      (λ data monitor,
         preprocessed_data ← preprocess_data data;
         test_step preprocessed_data monitor)
      monitor;
  let mean_monitor_variables := variable_mean monitor in
  _ ← model_to "cpu";
  mret mean_monitor_variables.

(** The body of the epoch loop of [finetune] (lines 156-167); [info] and
    the optimizer are carried from epoch to epoch. *)
Definition finetune_epoch (epoch : nat) (acc : list Metrics * Optimizer)
  : M (list Metrics * Optimizer) :=
  let '(info, op) := acc in
  _ ← model_train;
  _ ← model_to_device;
  let monitor := VariableMonitor_new in
  '(monitor, op) ← train_pass (monitor, op);
  let mean_monitor_variables := variable_mean monitor in
  tested ← test;
  mret (info ++ [tested ∪ mean_monitor_variables], op).

Definition finetune (lr : float) (fargs : finetune_args) (device : option string)
    (finetune_eps : option Z) : M (list Metrics) :=
  device_bak ← override_device device;
  model_bak ← deepcopy_model;
  _ ← model_train;
  _ ← model_to_device;
  let info := [] in
  c ← get_self;
  m ← deref (model c);
  weights ← lift (get_finetune_parameters m fargs);
  st ← lift (get_optimizer (name (optimizer (learn (args c)))) lr
               (momentum (optimizer (learn (args c)))) weights);
  let op := {| bound_to := model c; opt_state := st |} in
  let finetune_eps := default (local_eps (learn (args c))) finetune_eps in
  '(info, _) ← for_range finetune_eps finetune_epoch (info, op);
  _ ← set_model model_bak;
  _ ← restore_device device_bak;
  mret info.

End Client.

(** ** A small concrete backend

    One scalar per tensor; plain gradient descent whose gradient is 1 for
    every selected parameter; a forward pass that rejects negative class
    ids, as the cross-entropy loss rejects a target out of bounds. *)
Module Toy.

Definition sgd_step (lr : float) (weights : list nat) (ps : list float) : list float :=
  imap (λ i p, if bool_decide (i ∈ weights) then (p - lr * 1)%float else p) ps.

Definition negative_label (f : Field float) : bool :=
  match f with
  | FInt z => (z <? 0)%Z
  | FTensor _ => false
  end.

Definition samples : list (float * Z) :=
  [(1%float, 3%Z); (2%float, 5%Z); (3%float, 7%Z)].

(** A dataset with a target the loss rejects. *)
Definition bad_samples : list (float * Z) :=
  [(1%float, 3%Z); (2%float, (-1)%Z)].

#[export] Instance backend : Torch := {|
  tensor := float;
  transform := list string;
  optim := float * list nat;
  generator := ();
  finetune_args := list nat;
  get_data_transform v _ :=
    match v with CSeq l => Ok l | CStr _ => Raise TypeError end;
  torchvision_MNIST root _ _ :=
    match root with CStr _ => Ok samples | CSeq _ => Raise TypeError end;
  torchvision_CIFAR100 root _ _ :=
    match root with CStr _ => Ok samples | CSeq _ => Raise TypeError end;
  DataLoader_check n bs :=
    if ((bs <=? 0)%Z || (n =? 0)%nat) then Raise ValueError else Ok ();
  randperm n g := (seq 0 n, g);
  randperm_Permutation n g := reflexivity _;
  get_optimizer nm lr _ weights :=
    if String.eqb nm "sgd" then Ok (lr, weights) else Raise ValueError;
  get_finetune_parameters _ fargs := Ok fargs;
  forward_loss m b :=
    if existsb negative_label (y b) then Raise IndexError
    else Ok (0%float, hd 0%float (parameters m));
  optim_step st m _ := Ok (st, sgd_step st.1 st.2 (parameters m));
|}.

Definition cfg : Cfg :=
  {| data := <["transforms" := CSeq ["to_tensor"]]> (<["data_path" := CStr "./data"]> ∅) |}.

Definition mnist : MNISTDataset :=
  {| mnist_train := true; mnist_cfg := cfg; mnist_dataset := samples;
     mnist_indexes := None |}.

Definition cifar (l : list (float * Z)) : CIFAR100Dataset :=
  {| cifar_train := true; cifar_cfg := cfg; cifar_dataset := l;
     cifar_indexes := None |}.

Definition shard (l : list (float * Z)) : DatasetView :=
  {| tot_data := OfCIFAR100 (cifar l); indexes := seq 0 (length l) |}.

Definition arguments (f : float) (eps : Z) : Args :=
  {| client := {| val_frac := f |};
     learn := {| batch_size := 2; local_eps := eps;
                 optimizer := {| name := "sgd"; momentum := 0%float |} |} |}.

Definition client_of (l : list (float * Z)) (eps : Z) (test_dataset : option DatasetView)
  : BaseClient :=
  {| args := arguments 0 eps; client_id := 0; model := 1%positive; device := "cpu";
     sample_num := length l;
     train_dataloader := {| dl_dataset := shard l; dl_batch_size := 2 |};
     val_dataloader := None;
     test_dataloader :=
       (λ d, {| dl_dataset := d; dl_batch_size := 2 |}) <$> test_dataset |}.

Definition net : Module float :=
  {| parameters := [0.5%float; 0.25%float]; training := false; placement := "cpu" |}.

Definition state_of (c : BaseClient) : State :=
  {| self := c; heap := <[1%positive := net]> ∅; torch_gen := () |}.

(** A shard of a hundred samples. *)
Definition hundred : list (float * Z) :=
  map (λ i, (1%float, Z.of_nat (i `mod` 10))) (seq 0 100).

(** Some raw draws of the random generator. *)
Definition draws : rng := [3; 1; 4; 1; 5; 9; 2; 6; 5; 3; 5; 8; 9; 7; 9; 3].

(** A client with a test loader, one without, and one whose training data
    the forward pass rejects. *)
Definition with_test : State :=
  state_of (client_of samples 1 (Some (shard samples))).
Definition without_test : State := state_of (client_of samples 1 None).
Definition no_epochs : State := state_of (client_of samples 0 None).
Definition rejected : State := state_of (client_of bad_samples 1 None).

(** A shard of the MNIST adapter, its loader, and a client that trains on
    it. *)
Definition mnist_shard : DatasetView :=
  {| tot_data := OfMNIST mnist; indexes := seq 0 (length samples) |}.
Definition mnist_loader : DataLoader :=
  {| dl_dataset := mnist_shard; dl_batch_size := 2 |}.
Definition on_mnist : State :=
  state_of {| args := arguments 0 1; client_id := 0; model := 1%positive;
              device := "cpu"; sample_num := 3;
              train_dataloader := mnist_loader;
              val_dataloader := None; test_dataloader := None |}.

End Toy.



(** ** Vocabulary of the statements *)

(** The transposition of two positions. *)
Definition transpose (i j n : nat) : nat :=
  if decide (n = i) then j else if decide (n = j) then i else n.

Section Vocabulary.
Context `{Torch}.

(** [triple P m Q E]: started in a state satisfying [P], the method [m]
    leaves a state satisfying [Q a] when it returns [a] and [E e] when it
    raises [e]. *)
Definition triple {A} (P : State → Prop) (m : M A)
    (Q : A → State → Prop) (E : exn → State → Prop) : Prop :=
  ∀ s, P s → match m s with
             | (Ok a, s') => Q a s'
             | (Raise e, s') => E e s'
             end.

(** A property of the model objects that no write to [l] can break. *)
Definition Stable (l : loc) (R : gmap loc (Module tensor) → Prop) : Prop :=
  ∀ h m, R h → R (<[l := m]> h).

(** The client object is [c] and the model objects satisfy [R]. *)
Definition Inv (c : BaseClient) (R : gmap loc (Module tensor) → Prop) (s : State) : Prop :=
  self s = c ∧ R (heap s).

(** [keeps c R m]: [m] maintains [Inv c R], whether it returns or raises. *)
Definition keeps {A} (c : BaseClient) (R : gmap loc (Module tensor) → Prop) (m : M A) : Prop :=
  triple (Inv c R) m (λ _, Inv c R) (λ _, Inv c R).

(** The loop-carried optimizer is bound to the model object of [c]. *)
Definition bound (c : BaseClient) (R : gmap loc (Module tensor) → Prop)
    (op : Optimizer) (s : State) : Prop :=
  bound_to op = model c ∧ Inv c R s.

(** The parameters of the client's model object. *)
Definition model_parameters (s : State) : option (list tensor) :=
  parameters <$> heap s !! model (self s).

(** The device the client's model object is placed on. *)
Definition model_placement (s : State) : option string :=
  placement <$> heap s !! model (self s).

(** The parameters stored under [l] are the output of an optimizer step. *)
Definition Stepped (l : loc) (h : gmap loc (Module tensor)) : Prop :=
  ∃ st m b st' ps,
    optim_step st m b = Ok (st', ps) ∧ parameters <$> h !! l = Some ps.

(** [preserves P m]: [m] maintains [P], whether it returns or raises. *)
Definition preserves {A} (P : State → Prop) (m : M A) : Prop :=
  triple P m (λ _, P) (λ _, P).

(** The client object satisfies [G], the model object it holds exists and
    satisfies [F], and the model objects satisfy [R]. *)
Definition Kept (G : BaseClient → Prop) (F : Module tensor → Prop)
    (R : gmap loc (Module tensor) → Prop) (s : State) : Prop :=
  G (self s) ∧ (∃ m, heap s !! model (self s) = Some m ∧ F m) ∧ R (heap s).

(** The client object [c] with another device setting. *)
Definition with_device (d : string) (c : BaseClient) : BaseClient :=
  {| args := args c; client_id := client_id c; model := model c;
     device := d; sample_num := sample_num c;
     train_dataloader := train_dataloader c;
     val_dataloader := val_dataloader c;
     test_dataloader := test_dataloader c |}.

(** The client object [c] with another model reference. *)
Definition with_model (l : loc) (c : BaseClient) : BaseClient :=
  {| args := args c; client_id := client_id c; model := l;
     device := device c; sample_num := sample_num c;
     train_dataloader := train_dataloader c;
     val_dataloader := val_dataloader c;
     test_dataloader := test_dataloader c |}.

(** The mode of the client's model object. *)
Definition model_training (s : State) : option bool :=
  training <$> heap s !! model (self s).

(** The heaps [h] and [h'] hold the same object under every reference
    other than [l], and the same references. *)
Definition agree_off (l : loc) (h h' : gmap loc (Module tensor)) : Prop :=
  dom h' = dom h ∧ ∀ l', l' ≠ l → h' !! l' = h !! l'.

(** The heap [h'] is [h] with one more object, stored under [lb]: the
    object [h] holds under [l], as it is in [h]. Apart from what [h'] holds
    under [l], nothing else differs. *)
Definition Snapshot (l lb : loc) (h h' : gmap loc (Module tensor)) : Prop :=
  (lb ∉ dom h) ∧ h' !! lb = h !! l ∧ dom h' = dom h ∪ {[lb]} ∧
  ∀ l', l' ≠ l → l' ≠ lb → h' !! l' = h !! l'.

(** The samples of the torchvision dataset an adapter wraps. *)
Definition Adapter_samples (a : Adapter) : list (tensor * Z) :=
  match a with
  | OfMNIST d => mnist_dataset d
  | OfCIFAR100 d => cifar_dataset d
  end.

(** What indexing an adapter makes of the sample it finds. *)
Definition Adapter_item (a : Adapter) (s : tensor * Z) : Item :=
  match a with
  | OfMNIST _ => ItemTuple s.1 s.2
  | OfCIFAR100 _ => record_item s.1 s.2
  end.

(** The shard the loader [dl] iterates over wraps the CIFAR-100 adapter
    [d], and its indexes are positions of the dataset of [d]. *)
Definition Reads (dl : DataLoader) (d : CIFAR100Dataset) : Prop :=
  tot_data (dl_dataset dl) = OfCIFAR100 d ∧
  Forall (λ i, i < length (cifar_dataset d)) (indexes (dl_dataset dl)).

(** The preprocessed batch of the samples [sms], for the device [dv]. *)
Definition batch_of (sms : list (tensor * Z)) (dv : string) : XY tensor :=
  {| x := (λ sm, FTensor sm.1) <$> sms; y := (λ sm, FInt sm.2) <$> sms;
     on_device := dv |}.

(** The client object is that of [s0], up to its device setting, and the
    model object of [s0] exists. *)
Definition Live (s0 s : State) : Prop :=
  (∃ dv, self s = with_device dv (self s0)) ∧ is_Some (heap s !! model (self s0)).

(** The client object [c] with other bookkeeping: another id, another
    sample count and another validation loader. *)
Definition with_bookkeeping (id : Z) (n : nat) (v : option DataLoader)
    (c : BaseClient) : BaseClient :=
  {| args := args c; client_id := id; model := model c;
     device := device c; sample_num := n;
     train_dataloader := train_dataloader c;
     val_dataloader := v;
     test_dataloader := test_dataloader c |}.

Definition rebooked (id : Z) (n : nat) (v : option DataLoader) (s : State) : State :=
  {| self := with_bookkeeping id n v (self s); heap := heap s;
     torch_gen := torch_gen s |}.

(** [m] neither reads nor writes the bookkeeping: run from a state with
    other bookkeeping, it has the same outcome and leaves the same state,
    with that bookkeeping. *)
Definition Blind {A} (m : M A) : Prop :=
  ∀ id n v s, m (rebooked id n v s) = ((m s).1, rebooked id n v (m s).2).

(** The forward pass does not raise on a batch of samples of [d]. *)
Definition Accepts (d : CIFAR100Dataset) : Prop :=
  ∀ m sms dv, Forall (λ sm, sm ∈ cifar_dataset d) sms → sms ≠ [] →
    ∃ r, forward_loss m (batch_of sms dv) = Ok r.

End Vocabulary.

(** The three methods of a client, as calls. *)
Inductive Call `{Torch} :=
| CallTrain (lr : float) (device : option string)
| CallTest
| CallFinetune (lr : float) (fargs : finetune_args) (device : option string)
    (finetune_eps : option Z).

Section Calls.
Context `{Torch}.

(** The outcome of a call, its value forgotten. *)
Definition run (k : Call) (s : State) : result () * State :=
  match k with
  | CallTrain lr d => let '(r, s') := train lr d s in (_ ← r; Ok (), s')
  | CallTest => let '(r, s') := test s in (_ ← r; Ok (), s')
  | CallFinetune lr fargs d eps =>
      let '(r, s') := finetune lr fargs d eps s in (_ ← r; Ok (), s')
  end.

(** What a returning call owes to its caller: the device setting as it was
    and, for [train] and [test], the same model object, placed on the cpu;
    for [finetune], the model object as it was before the call. *)
Definition restored (k : Call) (s s' : State) : Prop :=
  device (self s') = device (self s) ∧
  match k with
  | CallTrain _ _ | CallTest =>
      model (self s') = model (self s) ∧ model_placement s' = Some "cpu"%string
  | CallFinetune _ _ _ _ =>
      heap s' !! model (self s') = heap s !! model (self s)
  end.

(** The device a call was asked to run on, if any. *)
Definition call_device (k : Call) : option string :=
  match k with
  | CallTrain _ d => d
  | CallTest => None
  | CallFinetune _ _ d _ => d
  end.

(** What a raising call leaves behind: the client still holds the model
    object it entered the call with, and the device setting of the call. *)
Definition abandoned (k : Call) (s s' : State) : Prop :=
  model (self s') = model (self s) ∧
  device (self s') = default (device (self s)) (call_device k).

End Calls.

(** * Properties *)

(** ** Sequences, slices and the shuffle *)

Section SequenceFacts.
Context {A : Type}.
Implicit Types (l : list A) (k : Z).

Lemma slice_to_from l k : slice_to l k ++ slice_from l k = l.
Proof. apply take_drop. Qed.

Lemma slice_bound_le l k : slice_bound l k ≤ length l.
Proof. unfold slice_bound. destruct (k <? 0)%Z eqn:E; lia. Qed.

Lemma length_slice_to l k : length (slice_to l k) = slice_bound l k.
Proof.
  unfold slice_to. rewrite length_take. pose proof (slice_bound_le l k). lia.
Qed.

Lemma swap_length l i j : length (swap l i j) = length l.
Proof.
  unfold swap. destruct (l !! i), (l !! j); try done.
  by rewrite !length_insert.
Qed.

Lemma transpose_involutive i j n : transpose i j (transpose i j n) = n.
Proof. unfold transpose. repeat case_decide; congruence. Qed.

Lemma swap_lookup l i j n :
  i < length l → j < length l → swap l i j !! n = l !! transpose i j n.
Proof.
  intros Hi Hj. unfold swap, transpose.
  destruct (lookup_lt_is_Some_2 l i Hi) as [a Ha].
  destruct (lookup_lt_is_Some_2 l j Hj) as [b Hb].
  rewrite Ha, Hb.
  destruct (decide (n = j)) as [->|Hnj].
  - rewrite list_lookup_insert_eq by (rewrite length_insert; lia).
    case_decide; congruence.
  - rewrite list_lookup_insert_ne by done.
    destruct (decide (n = i)) as [->|Hni].
    + rewrite list_lookup_insert_eq by lia. congruence.
    + by rewrite list_lookup_insert_ne.
Qed.

Lemma swap_Permutation l i j : swap l i j ≡ₚ l.
Proof.
  destruct (decide (i < length l ∧ j < length l)) as [[Hi Hj]|Hout].
  - apply Permutation_inj. split; [apply swap_length|].
    exists (transpose i j). split.
    + intros n1 n2 Hn.
      rewrite <- (transpose_involutive i j n1), Hn.
      apply transpose_involutive.
    + intros n. by apply swap_lookup.
  - unfold swap.
    destruct (l !! i) eqn:Ei; [|done].
    destruct (l !! j) eqn:Ej; [|done].
    apply lookup_lt_Some in Ei, Ej. lia.
Qed.

Lemma shuffle_from_Permutation i l g : (shuffle_from i l g).1 ≡ₚ l.
Proof.
  revert l g. induction i as [|i IH]; intros l g; [done|].
  cbn [shuffle_from]. destruct (randbelow (S (S i)) g) as [j g'].
  rewrite IH. apply swap_Permutation.
Qed.

Lemma shuffle_Permutation l g : (shuffle l g).1 ≡ₚ l.
Proof. apply shuffle_from_Permutation. Qed.

End SequenceFacts.

(** ** Reasoning about methods *)

Section Logic.
Context `{Torch}.

Lemma bind_run {A B} (m : M A) (k : A → M B) s :
  (m ≫= k) s = match m s with
               | (Ok a, s') => k a s'
               | (Raise e, s') => (Raise e, s')
               end.
Proof. reflexivity. Qed.

Lemma triple_ret {A} (a : A) (Q : A → State → Prop) E : triple (Q a) (mret a) Q E.
Proof. intros s Hs. exact Hs. Qed.

Lemma triple_bind {A B} P (m : M A) (k : A → M B) Q' Q E :
  triple P m Q' E → (∀ a, triple (Q' a) (k a) Q E) → triple P (m ≫= k) Q E.
Proof.
  intros Hm Hk s Hs. rewrite bind_run. specialize (Hm s Hs).
  destruct (m s) as [[a|e] s']; [by apply Hk|done].
Qed.

Lemma triple_conseq {A} (P P' : State → Prop) (m : M A) (Q Q' : A → State → Prop)
    (E E' : exn → State → Prop) :
  triple P' m Q' E' → (∀ s, P s → P' s) → (∀ a s, Q' a s → Q a s) →
  (∀ e s, E' e s → E e s) → triple P m Q E.
Proof.
  intros Hm HP HQ HE s Hs. specialize (Hm s (HP s Hs)).
  destruct (m s) as [[a|e] s']; auto.
Qed.

(** A loop whose body maintains [I] maintains it. *)
Lemma triple_for_each {A S} (I : S → State → Prop) E
    (body : A → S → M S) (l : list A) acc :
  (∀ a acc, triple (I acc) (body a acc) I E) →
  triple (I acc) (for_each l body acc) I E.
Proof.
  intros Hbody. revert acc. induction l as [|a l IH]; intros acc.
  - apply triple_ret.
  - cbn [for_each]. eapply triple_bind; [apply Hbody|]. intros acc'. apply IH.
Qed.

(** A loop that runs at least once establishes what its body does. *)
Lemma triple_for_each_once {A S} (I J : S → State → Prop) E
    (body : A → S → M S) (l : list A) acc :
  (∀ a acc, triple (I acc) (body a acc) J E) →
  (∀ acc s, J acc s → I acc s) →
  l ≠ [] →
  triple (I acc) (for_each l body acc) J E.
Proof.
  intros Hbody HJI Hl. destruct l as [|a l]; [done|].
  cbn [for_each]. eapply triple_bind; [apply Hbody|]. intros acc'.
  apply triple_for_each. intros a' acc''.
  eapply triple_conseq; [apply Hbody|auto..].
Qed.

(** *** What the elementary operations maintain *)

Lemma keeps_ret {A} c R (a : A) : keeps c R (mret a : M A).
Proof. intros s Hs. exact Hs. Qed.

Lemma keeps_bind {A B} c R (m : M A) (k : A → M B) :
  keeps c R m → (∀ a, keeps c R (k a)) → keeps c R (m ≫= k).
Proof. intros Hm Hk. eapply triple_bind; [apply Hm|]. intros a. apply Hk. Qed.

Lemma keeps_lift {A} c R (r : result A) : keeps c R (lift r).
Proof. intros s Hs. unfold lift. by destruct r. Qed.

Lemma keeps_deref c R l : keeps c R (deref l).
Proof. intros s Hs. unfold deref. by destruct (heap s !! l). Qed.

Lemma keeps_store c R m : Stable (model c) R → keeps c R (store (model c) m).
Proof. intros HR s [Hc Hh]. split; [done|]. cbn. by apply HR. Qed.

Lemma keeps_update c R f : Stable (model c) R → keeps c R (update (model c) f).
Proof.
  intros HR. apply keeps_bind; [apply keeps_deref|]. intros m. by apply keeps_store.
Qed.

Lemma triple_get_self {A} (P : State → Prop) c (k : BaseClient → M A) Q E :
  (∀ s, P s → self s = c) → triple P (k c) Q E → triple P (get_self ≫= k) Q E.
Proof.
  intros Hc Hk s Hs. rewrite bind_run. cbn [get_self].
  rewrite (Hc s Hs). by apply Hk.
Qed.

(** Reading [self] under the invariant yields [c]. *)
Lemma keeps_get_self {A} c R (k : BaseClient → M A) :
  keeps c R (k c) → keeps c R (get_self ≫= k).
Proof.
  intros Hk s Hs. rewrite bind_run. cbn. destruct Hs as [Hc Hh].
  rewrite Hc. apply Hk. by split.
Qed.

Lemma keeps_model_train c R : Stable (model c) R → keeps c R model_train.
Proof. intros HR. apply keeps_get_self. by apply keeps_update. Qed.

Lemma keeps_model_eval c R : Stable (model c) R → keeps c R model_eval.
Proof. intros HR. apply keeps_get_self. by apply keeps_update. Qed.

Lemma keeps_model_to c R d : Stable (model c) R → keeps c R (model_to d).
Proof. intros HR. apply keeps_get_self. by apply keeps_update. Qed.

Lemma keeps_model_to_device c R : Stable (model c) R → keeps c R model_to_device.
Proof. intros HR. apply keeps_get_self. by apply keeps_model_to. Qed.

Lemma keeps_preprocess_data c R data : keeps c R (preprocess_data data).
Proof.
  apply keeps_get_self.
  apply keeps_bind; [apply keeps_lift|]; intros input.
  apply keeps_bind; [apply keeps_lift|]; intros class_id.
  apply keeps_ret.
Qed.

End Logic.

(** ** What the loops of the client maintain *)

Section Frames.
Context `{Torch}.
Variables (c : BaseClient) (R : gmap loc (Module tensor) → Prop).
Hypothesis R_stable : Stable (model c) R.

Lemma train_step_bound batch monitor op :
  triple (bound c R op) (train_step batch monitor op)
    (λ acc, bound c R acc.2) (λ _, Inv c R).
Proof.
  intros s [Hop [Hc Hh]]. unfold train_step.
  rewrite bind_run. cbn [get_self]. rewrite Hc.
  rewrite bind_run. unfold deref at 1.
  destruct (heap s !! model c) as [m|]; [|done].
  rewrite bind_run. unfold lift at 1.
  destruct (forward_loss m batch) as [[acc loss]|e]; [|done].
  rewrite bind_run, Hop. unfold deref at 1.
  destruct (heap s !! model c) as [target|]; [|done].
  rewrite bind_run. unfold lift at 1.
  destruct (optim_step (opt_state op) target batch) as [[st ps]|e]; [|done].
  rewrite bind_run.
  pose proof (keeps_update c R (set_parameters ps) R_stable s (conj Hc Hh)) as Hu.
  destruct (update (model c) (set_parameters ps) s) as [[[]|e] s']; [|done].
  cbn. by split.
Qed.

Lemma keeps_test_step batch monitor : keeps c R (test_step batch monitor).
Proof.
  apply keeps_get_self.
  apply keeps_bind; [apply keeps_deref|]; intros m.
  apply keeps_bind; [apply keeps_lift|]; intros [acc loss].
  apply keeps_ret.
Qed.

Lemma for_batches_triple {S} (I : S → State → Prop) dl (body : Batch → S → M S) acc :
  (∀ s acc g, I acc s → I acc {| self := self s; heap := heap s; torch_gen := g |}) →
  (∀ acc s, I acc s → Inv c R s) →
  (∀ data acc, triple (I acc) (body data acc) I (λ _, Inv c R)) →
  triple (I acc) (for_batches dl body acc) I (λ _, Inv c R).
Proof.
  intros Hgen HI Hbody. unfold for_batches.
  eapply triple_bind with (Q' := λ _, I acc).
  - intros s Hs. unfold draw_positions.
    destruct (batch_positions dl (torch_gen s)) as [ps g']. by apply Hgen.
  - intros positions. apply triple_for_each. intros ps acc'.
    eapply triple_bind with (Q' := λ _, I acc').
    + intros s Hs. unfold lift. destruct (fetch dl ps); [done|]. by eapply HI.
    + intros data. apply Hbody.
Qed.

Lemma train_pass_bound acc :
  triple (bound c R acc.2) (train_pass acc) (λ acc', bound c R acc'.2) (λ _, Inv c R).
Proof.
  unfold train_pass. apply (triple_get_self _ c); [by intros s [_ [? _]]|].
  apply (for_batches_triple (λ acc s, bound c R acc.2 s)).
  - intros s acc' g [Hop [Hc Hh]]. by repeat split.
  - by intros acc' s [_ ?].
  - intros data [monitor op]. cbn [snd].
    eapply triple_bind with (Q' := λ _, bound c R op).
    + intros s Hs.
      pose proof (keeps_preprocess_data c R data s (proj2 Hs)) as Hp.
      destruct (preprocess_data data s) as [[b|e] s']; [|done].
      split; [apply Hs|done].
    + intros b. apply train_step_bound.
Qed.

Lemma keeps_test : keeps c R test.
Proof.
  unfold test.
  apply keeps_bind; [by apply keeps_model_eval|]; intros _.
  apply keeps_bind; [by apply keeps_model_to_device|]; intros _.
  apply keeps_get_self.
  apply keeps_bind.
  { destruct (test_dataloader c); [apply keeps_ret|apply keeps_lift]. }
  intros dl.
  apply keeps_bind.
  - apply (for_batches_triple (λ _ s, Inv c R s)); [by intros s _ g [??]|done|].
    intros data monitor.
    apply keeps_bind; [apply keeps_preprocess_data|]; intros b.
    apply keeps_test_step.
  - intros monitor. apply keeps_bind; [by apply keeps_model_to|]; intros _.
    apply keeps_ret.
Qed.

Lemma finetune_epoch_bound epoch acc :
  triple (bound c R acc.2) (finetune_epoch epoch acc) (λ acc', bound c R acc'.2) (λ _, Inv c R).
Proof.
  destruct acc as [info op]. cbn [snd]. unfold finetune_epoch.
  eapply triple_bind with (Q' := λ _, bound c R op).
  { intros s Hs. pose proof (keeps_model_train c R R_stable s (proj2 Hs)) as Hk.
    destruct (model_train s) as [[[]|e] s']; [|done]. split; [apply Hs|done]. }
  intros _.
  eapply triple_bind with (Q' := λ _, bound c R op).
  { intros s Hs. pose proof (keeps_model_to_device c R R_stable s (proj2 Hs)) as Hk.
    destruct (model_to_device s) as [[[]|e] s']; [|done]. split; [apply Hs|done]. }
  intros _.
  eapply triple_bind; [apply (train_pass_bound (_, op))|].
  intros [monitor op']. cbn [snd].
  eapply triple_bind with (Q' := λ _, bound c R op').
  { intros s Hs. pose proof (keeps_test s (proj2 Hs)) as Hk.
    destruct (test s) as [[t|e] s']; [|done]. split; [apply Hs|done]. }
  intros tested. intros s Hs. exact Hs.
Qed.

End Frames.

(** ** [finetune] restores the snapshot *)

Section Finetune.
Context `{Torch}.

Lemma override_device_run dev s :
  ∃ s1, override_device dev s = (Ok ((λ _, device (self s)) <$> dev), s1) ∧
    heap s1 = heap s ∧ model (self s1) = model (self s) ∧
    args (self s1) = args (self s) ∧
    test_dataloader (self s1) = test_dataloader (self s) ∧
    train_dataloader (self s1) = train_dataloader (self s) ∧
    device (self s1) = default (device (self s)) dev.
Proof. destruct dev as [d|]; eexists; (split; [reflexivity|done]). Qed.

Lemma restore_device_run bak s :
  ∃ s1, restore_device bak s = (Ok (), s1) ∧
    heap s1 = heap s ∧ model (self s1) = model (self s) ∧
    device (self s1) = default (device (self s)) bak.
Proof. destruct bak as [d|]; eexists; (split; [reflexivity|done]). Qed.

Lemma deepcopy_model_run s l s1 :
  deepcopy_model s = (Ok l, s1) →
  ∃ m, heap s !! model (self s) = Some m ∧ l ≠ model (self s) ∧
    self s1 = self s ∧ heap s1 = <[l := m]> (heap s).
Proof.
  unfold deepcopy_model. rewrite bind_run. cbn [get_self].
  rewrite bind_run. unfold deref.
  destruct (heap s !! model (self s)) as [m|] eqn:Hm; [|done].
  cbn. intros [= <- <-]. exists m. split; [done|]. split; [|done].
  intros Heq. apply (is_fresh (dom (heap s))). rewrite Heq.
  apply elem_of_dom. by exists m.
Qed.

Lemma finetune_epoch_info epoch info op s info' op' s' :
  finetune_epoch epoch (info, op) s = (Ok (info', op'), s') →
  ∃ metrics, info' = info ++ [metrics].
Proof.
  unfold finetune_epoch. rewrite bind_run.
  destruct (model_train s) as [[[]|e] s1]; [|done].
  rewrite bind_run. destruct (model_to_device s1) as [[[]|e] s2]; [|done].
  rewrite bind_run. destruct (train_pass _ s2) as [[[monitor op1]|e] s3]; [|done].
  rewrite bind_run. destruct (test s3) as [[tested|e] s4]; [|done].
  cbn. intros [= <- <- <-]. by eexists.
Qed.

Lemma finetune_epochs_info l info op s info' op' s' :
  for_each l finetune_epoch (info, op) s = (Ok (info', op'), s') →
  length info' = length info + length l.
Proof.
  revert info op s. induction l as [|epoch l IH]; intros info op s.
  - cbn. intros [= <- <- <-]. lia.
  - cbn [for_each]. rewrite bind_run.
    destruct (finetune_epoch epoch (info, op) s) as [[[info1 op1]|e] s1] eqn:Hep; [|done].
    apply finetune_epoch_info in Hep as [metrics ->].
    intros Hrest. apply IH in Hrest. rewrite Hrest, length_app. cbn. lia.
Qed.

Lemma finetune_restores lr fargs dev eps s info s' :
  finetune lr fargs dev eps s = (Ok info, s') →
  ∃ m, heap s !! model (self s) = Some m ∧
    heap s' !! model (self s') = Some m ∧
    device (self s') = device (self s) ∧
    length info = Z.to_nat (default (local_eps (learn (args (self s)))) eps).
Proof.
  unfold finetune. intros Hrun.
  rewrite bind_run in Hrun.
  destruct (override_device_run dev s) as (s1 & Ho & Hh1 & Hm1 & Ha1 & _ & _ & Hd1).
  rewrite Ho in Hrun. clear Ho.
  rewrite bind_run in Hrun.
  destruct (deepcopy_model s1) as [[bak|e] s2] eqn:Hcopy; [|done].
  apply deepcopy_model_run in Hcopy as (m & Hm & Hne & Hc2 & Hh2).
  set (R := λ h : gmap loc (Module tensor), h !! bak = Some m).
  assert (Stable (model (self s1)) R) as HR.
  { intros h m' Hh. unfold R. by rewrite lookup_insert_ne. }
  assert (Inv (self s1) R s2) as Hinv.
  { split; [done|]. unfold R. rewrite Hh2. apply lookup_insert_eq. }
  rewrite bind_run in Hrun.
  pose proof (keeps_model_train _ _ HR s2 Hinv) as Hk.
  destruct (model_train s2) as [[[]|e] s3]; [|done]. clear Hinv. rename Hk into Hinv.
  rewrite bind_run in Hrun.
  pose proof (keeps_model_to_device _ _ HR s3 Hinv) as Hk.
  destruct (model_to_device s3) as [[[]|e] s4]; [|done]. clear Hinv. rename Hk into Hinv.
  rewrite bind_run in Hrun. cbn [get_self] in Hrun.
  rewrite bind_run in Hrun. unfold deref at 1 in Hrun.
  destruct (heap s4 !! model (self s4)) as [m4|]; [|done].
  rewrite bind_run in Hrun. unfold lift at 1 in Hrun.
  destruct (get_finetune_parameters m4 fargs) as [weights|e]; [|done].
  rewrite bind_run in Hrun. unfold lift at 1 in Hrun.
  destruct (get_optimizer _ lr _ weights) as [st|e]; [|done].
  rewrite bind_run in Hrun.
  match type of Hrun with
  | context [for_range ?n ?body ?acc s4] =>
      pose proof (triple_for_each (λ a, bound (self s1) R a.2) (λ _, Inv (self s1) R)
                    body (seq 0 (Z.to_nat n)) acc
                    (λ a acc', finetune_epoch_bound (self s1) R HR a acc') s4) as Hloop;
      unfold for_range in Hrun;
      destruct (for_each (seq 0 (Z.to_nat n)) body acc s4)
        as [[[info5 op5]|e] s5] eqn:Hfe; [|done]
  end.
  apply finetune_epochs_info in Hfe. rewrite length_seq in Hfe. cbn in Hfe.
  destruct Hloop as [_ [Hc5 Hh5]].
  { split; [|done]. cbn. by destruct Hinv as [-> _]. }
  cbv beta iota in Hrun. unfold set_model in Hrun.
  rewrite !bind_run in Hrun. cbn [get_self set_self] in Hrun.
  rewrite bind_run in Hrun.
  match type of Hrun with
  | context [restore_device ?b ?s] =>
      destruct (restore_device_run b s) as (s6 & Hr & Hh6 & Hm6 & Hd6);
      rewrite Hr in Hrun
  end.
  cbn in Hrun. injection Hrun as <- <-.
  cbn in Hh6, Hm6, Hd6. exists m. rewrite Hm6, Hh6, Hh5, <- Hm1, <- Hh1, Hm.
  split; [done|]. split; [done|]. split.
  - rewrite Hd6, Hc5. destruct dev; cbn; [done|]. by rewrite Hd1.
  - rewrite Hfe. destruct Hinv as [-> _]. by rewrite Ha1.
Qed.

End Finetune.

(** ** Passes that take at least one optimizer step *)

Section Steps.
Context `{Torch}.
Variables (c : BaseClient) (R : gmap loc (Module tensor) → Prop).
Hypothesis R_stable : Stable (model c) R.

Lemma train_step_stepped batch monitor op :
  triple (bound c R op) (train_step batch monitor op)
    (λ acc s, bound c R acc.2 s ∧ Stepped (model c) (heap s)) (λ _, Inv c R).
Proof.
  intros s [Hop [Hc Hh]]. unfold train_step.
  rewrite bind_run. cbn [get_self]. rewrite Hc.
  rewrite bind_run. unfold deref at 1.
  destruct (heap s !! model c) as [m|] eqn:Hm; [|done].
  rewrite bind_run. unfold lift at 1.
  destruct (forward_loss m batch) as [[acc loss]|e]; [|done].
  rewrite bind_run, Hop. unfold deref at 1. rewrite Hm.
  rewrite bind_run. unfold lift at 1.
  destruct (optim_step (opt_state op) m batch) as [[st ps]|e] eqn:Hstep; [|done].
  rewrite bind_run. unfold update. rewrite bind_run. unfold deref. rewrite Hm.
  cbn. repeat split; [done|by apply R_stable|].
  exists (opt_state op), m, batch, st, ps. split; [done|].
  by rewrite lookup_insert_eq.
Qed.

Lemma chunks_nonempty bs l : (0 < bs)%Z → l ≠ [] → chunks bs l ≠ [].
Proof.
  intros Hbs Hl. unfold chunks.
  destruct (Z.to_nat bs) as [|n] eqn:Hn; [lia|].
  by destruct l.
Qed.

Lemma batch_positions_nonempty dl g :
  0 < DatasetView_len (dl_dataset dl) → (0 < dl_batch_size dl)%Z →
  (batch_positions dl g).1 ≠ [].
Proof.
  intros Hlen Hbs. unfold batch_positions.
  pose proof (randperm_Permutation (DatasetView_len (dl_dataset dl)) g) as Hp.
  destruct (randperm _ g) as [order g']. cbn in *.
  apply chunks_nonempty; [done|].
  apply Permutation_length in Hp. rewrite length_seq in Hp.
  destruct order; [cbn in Hp; lia|done].
Qed.

Lemma for_batches_once {S} (I J : S → State → Prop) dl (body : Batch → S → M S) acc :
  (∀ s acc g, I acc s → I acc {| self := self s; heap := heap s; torch_gen := g |}) →
  (∀ acc s, I acc s → Inv c R s) →
  (∀ acc s, J acc s → I acc s) →
  (∀ data acc, triple (I acc) (body data acc) J (λ _, Inv c R)) →
  (∀ g, (batch_positions dl g).1 ≠ []) →
  triple (I acc) (for_batches dl body acc) J (λ _, Inv c R).
Proof.
  intros Hgen HI HJ Hbody Hne. unfold for_batches.
  eapply triple_bind with (Q' := λ ps s, ps ≠ [] ∧ I acc s).
  - intros s Hs. unfold draw_positions. specialize (Hne (torch_gen s)).
    destruct (batch_positions dl (torch_gen s)) as [ps g']. split; [done|].
    by apply Hgen.
  - intros positions s [Hps Hs]. revert s Hs.
    apply (triple_for_each_once I J); [|done..].
    intros ps acc'.
    eapply triple_bind with (Q' := λ _, I acc').
    + intros s Hs. unfold lift. destruct (fetch dl ps); [done|]. by eapply HI.
    + intros data. apply Hbody.
Qed.

Lemma train_pass_stepped acc :
  0 < DatasetView_len (dl_dataset (train_dataloader c)) →
  (0 < dl_batch_size (train_dataloader c))%Z →
  triple (bound c R acc.2) (train_pass acc)
    (λ acc' s, bound c R acc'.2 s ∧ Stepped (model c) (heap s)) (λ _, Inv c R).
Proof.
  intros Hlen Hbs.
  unfold train_pass. apply (triple_get_self _ c); [by intros s [_ [? _]]|].
  apply (for_batches_once (λ acc s, bound c R acc.2 s)
           (λ acc s, bound c R acc.2 s ∧ Stepped (model c) (heap s))).
  - intros s acc' g [Hop [Hc Hh]]. by repeat split.
  - by intros acc' s [_ ?].
  - by intros acc' s [? _].
  - intros data [monitor op]. cbn [snd].
    eapply triple_bind with (Q' := λ _, bound c R op).
    + intros s Hs.
      pose proof (keeps_preprocess_data c R data s (proj2 Hs)) as Hp.
      destruct (preprocess_data data s) as [[b|e] s']; [|done].
      split; [apply Hs|done].
    + intros b. apply train_step_stepped.
  - intros g. by apply batch_positions_nonempty.
Qed.

(** The epoch loop of [train], run from a state where the optimizer is
    bound to the client's model: the client object is left as it was, and
    the parameters come out of an optimizer step when an epoch ran over a
    non-empty loader. *)
Lemma train_epochs n acc :
  triple (bound c R acc.2) (for_range n (λ _ acc, train_pass acc) acc)
    (λ acc' s, bound c R acc'.2 s ∧
       ((1 ≤ n)%Z → 0 < DatasetView_len (dl_dataset (train_dataloader c)) →
        (0 < dl_batch_size (train_dataloader c))%Z → Stepped (model c) (heap s)))
    (λ _, Inv c R).
Proof.
  destruct (decide ((1 ≤ n)%Z ∧ 0 < DatasetView_len (dl_dataset (train_dataloader c))
                    ∧ (0 < dl_batch_size (train_dataloader c))%Z)) as [(Hn & Hlen & Hbs)|Hno].
  - eapply triple_conseq with (P' := bound c R acc.2) (E' := λ _, Inv c R);
      [|done| |done].
    + unfold for_range.
      apply (triple_for_each_once (λ acc s, bound c R acc.2 s)
               (λ acc s, bound c R acc.2 s ∧ Stepped (model c) (heap s))).
      * intros _ acc'. by apply train_pass_stepped.
      * by intros acc' s [? _].
      * destruct (Z.to_nat n) eqn:Hz; [lia|done].
    + intros acc' s [Hb Hs]. split; [done|]. by intros _ _ _.
  - eapply triple_conseq with (P' := bound c R acc.2) (E' := λ _, Inv c R);
      [|done| |done].
    + unfold for_range.
      apply (triple_for_each (λ acc s, bound c R acc.2 s)).
      intros _ acc'. apply train_pass_bound. done.
    + intros acc' s Hb. split; [done|]. intros ???. destruct Hno. done.
Qed.

End Steps.

(** ** [train] and [test] *)

Section Returns.
Context `{Torch}.

Lemma update_run l f s :
  update l f s =
    match heap s !! l with
    | Some m => (Ok (), {| self := self s; heap := <[l := f m]> (heap s);
                           torch_gen := torch_gen s |})
    | None => (Raise (ExternalError "dangling reference"), s)
    end.
Proof.
  unfold update. rewrite bind_run. unfold deref.
  by destruct (heap s !! l).
Qed.

Lemma model_to_run d s s1 :
  model_to d s = (Ok (), s1) →
  self s1 = self s ∧ model_placement s1 = Some d ∧
  model_parameters s1 = model_parameters s ∧
  (∀ l, Stepped l (heap s) → Stepped l (heap s1)).
Proof.
  unfold model_to. rewrite bind_run. cbn [get_self]. rewrite update_run.
  unfold model_placement, model_parameters.
  destruct (heap s !! model (self s)) as [m|] eqn:Hm; [|done].
  intros [= <-]. cbn. rewrite lookup_insert_eq. cbn.
  split; [done|]. split; [done|]. split; [done|].
  intros l (st & m' & b & st' & ps & Hstep & Hps).
  exists st, m', b, st', ps. split; [done|].
  destruct (decide (l = model (self s))) as [->|Hne].
  - rewrite lookup_insert_eq. rewrite Hm in Hps. done.
  - by rewrite lookup_insert_ne.
Qed.

Lemma train_returns lr dev s r s' :
  train lr dev s = (Ok r, s') →
  model (self s') = model (self s) ∧
  device (self s') = device (self s) ∧
  model_placement s' = Some "cpu" ∧
  ((1 ≤ local_eps (learn (args (self s))))%Z →
   0 < DatasetView_len (dl_dataset (train_dataloader (self s))) →
   (0 < dl_batch_size (train_dataloader (self s)))%Z →
   Stepped (model (self s')) (heap s')).
Proof.
  unfold train. intros Hrun.
  rewrite bind_run in Hrun.
  destruct (override_device_run dev s) as (s1 & Ho & Hh1 & Hm1 & Ha1 & _ & Ht1 & Hd1).
  rewrite Ho in Hrun. clear Ho.
  set (R := λ _ : gmap loc (Module tensor), True).
  assert (Stable (model (self s1)) R) as HR by done.
  assert (Inv (self s1) R s1) as Hinv by done.
  rewrite bind_run in Hrun.
  pose proof (keeps_model_train _ _ HR s1 Hinv) as Hk.
  destruct (model_train s1) as [[[]|e] s2]; [|done]. clear Hinv. rename Hk into Hinv.
  rewrite bind_run in Hrun.
  pose proof (keeps_model_to_device _ _ HR s2 Hinv) as Hk.
  destruct (model_to_device s2) as [[[]|e] s3]; [|done]. clear Hinv. rename Hk into Hinv.
  rewrite bind_run in Hrun. cbn [get_self] in Hrun.
  rewrite bind_run in Hrun. unfold deref at 1 in Hrun.
  destruct (heap s3 !! model (self s3)) as [m3|]; [|done].
  rewrite bind_run in Hrun. unfold lift at 1 in Hrun.
  destruct (get_optimizer _ lr _ _) as [st|e]; [|done].
  rewrite bind_run in Hrun.
  match type of Hrun with
  | context [for_range ?n ?body ?acc s3] =>
      pose proof (train_epochs (self s1) R HR n acc s3) as Hloop;
      destruct (for_range n body acc s3) as [[[monitor4 op4]|e] s4]; [|done]
  end.
  destruct Hloop as [[_ [Hc4 _]] Hstep].
  { split; [|done]. cbn. by destruct Hinv as [-> _]. }
  cbv beta iota in Hrun. rewrite bind_run in Hrun.
  destruct (model_to "cpu" s4) as [[[]|e] s5] eqn:Hto; [|done].
  apply model_to_run in Hto as (Hc5 & Hp5 & _ & Hs5).
  rewrite bind_run in Hrun.
  match type of Hrun with
  | context [restore_device ?b ?s] =>
      destruct (restore_device_run b s) as (s6 & Hr & Hh6 & Hm6 & Hd6);
      rewrite Hr in Hrun
  end.
  cbn in Hrun. injection Hrun as <- <-.
  assert (model (self s6) = model (self s)) as Hmodel.
  { by rewrite Hm6, Hc5, Hc4. }
  split; [done|]. split; [|split].
  - rewrite Hd6, Hc5, Hc4. destruct dev; cbn; [done|]. by rewrite Hd1.
  - unfold model_placement in *. by rewrite Hh6, Hm6.
  - intros Heps Hlen Hbs. rewrite Hh6, Hmodel, <- Hm1. apply Hs5, Hstep.
    + destruct Hinv as [-> _]. by rewrite Ha1.
    + by rewrite Ht1.
    + by rewrite Ht1.
Qed.

Lemma test_returns s r s' :
  test s = (Ok r, s') → self s' = self s ∧ model_placement s' = Some "cpu".
Proof.
  unfold test. intros Hrun.
  set (R := λ _ : gmap loc (Module tensor), True).
  remember (self s) as c eqn:Hc.
  assert (Stable (model c) R) as HR by done.
  assert (Inv c R s) as Hinv by done.
  rewrite bind_run in Hrun.
  pose proof (keeps_model_eval _ _ HR s Hinv) as Hk.
  destruct (model_eval s) as [[[]|e] s1]; [|done]. clear Hinv. rename Hk into Hinv.
  rewrite bind_run in Hrun.
  pose proof (keeps_model_to_device _ _ HR s1 Hinv) as Hk.
  destruct (model_to_device s1) as [[[]|e] s2]; [|done]. clear Hinv. rename Hk into Hinv.
  rewrite bind_run in Hrun. cbn [get_self] in Hrun.
  rewrite bind_run in Hrun.
  destruct (test_dataloader (self s2)) as [dl|]; [|done].
  cbn [mret M_ret] in Hrun. rewrite bind_run in Hrun.
  match type of Hrun with
  | context [for_batches dl ?body ?acc s2] =>
      pose proof (for_batches_triple c R (λ _ s0, Inv c R s0) dl body acc) as Hloop;
      destruct (for_batches dl body acc s2) as [[monitor3|e] s3] eqn:Hfb; [|done]
  end.
  specialize (Hloop (λ s0 _ g Hs, Hs) (λ _ s0 Hs, Hs)).
  assert (Inv c R s3) as [Hc3 _].
  { eassert _ as Hbody; [|specialize (Hloop Hbody s2 Hinv); by rewrite Hfb in Hloop].
    intros data monitor.
    apply keeps_bind; [apply keeps_preprocess_data|]; intros b.
    apply keeps_test_step. }
  rewrite bind_run in Hrun.
  destruct (model_to "cpu" s3) as [[[]|e] s4] eqn:Hto; [|done].
  apply model_to_run in Hto as (Hc4 & Hp4 & _).
  cbn in Hrun. injection Hrun as <- <-.
  split; [congruence|done].
Qed.

End Returns.

(** ** Dataset adapters *)

Section AdapterFacts.
Context `{Torch}.

Lemma py_index_in_bounds {A} (l : list A) (i : nat) a :
  l !! i = Some a → py_index l (Z.of_nat i) = Ok a.
Proof.
  intros Hi. pose proof (lookup_lt_Some _ _ _ Hi) as Hlt. unfold py_index.
  destruct (Z.of_nat i <? 0)%Z eqn:E1; [lia|].
  destruct (Z.of_nat i <? 0)%Z eqn:E2; [lia|].
  destruct (Z.of_nat (length l) <=? Z.of_nat i)%Z eqn:E3; [lia|].
  cbn. by rewrite Nat2Z.id, Hi.
Qed.

Lemma CIFAR100Dataset_getitem_record (d : CIFAR100Dataset) (i : nat) img target :
  cifar_dataset d !! i = Some (img, target) →
  CIFAR100Dataset_getitem d (Z.of_nat i) = Ok (record_item img target).
Proof.
  intros Hi. unfold CIFAR100Dataset_getitem.
  by rewrite (py_index_in_bounds _ _ _ Hi).
Qed.

Lemma MNISTDataset_getitem_pair (d : MNISTDataset) (i : nat) img target :
  mnist_dataset d !! i = Some (img, target) →
  MNISTDataset_getitem d (Z.of_nat i) = Ok (ItemTuple img target).
Proof.
  intros Hi. unfold MNISTDataset_getitem.
  by rewrite (py_index_in_bounds _ _ _ Hi).
Qed.

Lemma pair_is_not_record img target : ¬ is_record (ItemTuple img target).
Proof. by intros (input & class_id & ?). Qed.

(** The constructor of the MNIST adapter reads [data.transforms] and
    [data.data_path]. *)
Lemma MNISTDataset_init_reads cfg train d :
  MNISTDataset_init cfg train = Ok d →
  ∃ transforms tr root,
    data cfg !! "transforms" = Some transforms ∧
    get_data_transform transforms train = Ok tr ∧
    data cfg !! "data_path" = Some root ∧
    torchvision_MNIST root train tr = Ok (mnist_dataset d).
Proof.
  unfold MNISTDataset_init, getattr.
  destruct (data cfg !! "transforms") as [transforms|]; [|done]. cbn.
  destruct (get_data_transform transforms train) as [tr|] eqn:Htr; [|done]. cbn.
  destruct (data cfg !! "data_path") as [root|]; [|done]. cbn.
  destruct (torchvision_MNIST root train tr) as [samples|] eqn:Hs; [|done]. cbn.
  intros [= <-]. exists transforms, tr, root. by repeat split.
Qed.

(** The constructor of the CIFAR-100 adapter asks for [data.data_pathpath]:
    without such a field it never returns, whatever [data.data_path] is. *)
Lemma CIFAR100Dataset_init_pathpath cfg train :
  data cfg !! "data_pathpath" = None →
  ∃ e, CIFAR100Dataset_init cfg train = Raise e ∧
    (∀ transforms tr, data cfg !! "transforms" = Some transforms →
       get_data_transform transforms train = Ok tr →
       e = AttributeError "data_pathpath").
Proof.
  intros Hnone. unfold CIFAR100Dataset_init, getattr. rewrite Hnone.
  destruct (data cfg !! "transforms") as [transforms|]; cbn.
  - destruct (get_data_transform transforms train) as [tr|e] eqn:Htr; cbn.
    + eexists. split; [done|]. done.
    + eexists. split; [done|]. intros ?? [= <-]. congruence.
  - eexists. split; [done|]. done.
Qed.

End AdapterFacts.

(** ** Construction *)

Section Construction.
Context `{Torch}.

(** A fraction above zero is not equal to zero. *)
Lemma positive_fraction_nonzero (f : float) :
  (0 <? f)%float = true → (f =? 0)%float = false.
Proof.
  rewrite FloatAxioms.ltb_spec, FloatAxioms.eqb_spec. unfold SFltb, SFeqb.
  change (Prim2SF 0) with (S754_zero false).
  destruct (Prim2SF f) as [[]|[]| |[] m e]; done.
Qed.

Lemma DataLoader_new_dataset d bs dl :
  DataLoader_new d bs = Ok dl → dl_dataset dl = d ∧ dl_batch_size dl = bs.
Proof.
  unfold DataLoader_new. destruct (DataLoader_check _ bs); [|done].
  by intros [= <-].
Qed.

Lemma split_shard_run f d g tr va g' :
  split_shard f d g = (Ok (tr, va), g') →
  ∃ k, py_int ((1 - f) * py_float (Z.of_nat (DatasetView_len d)))%float = Ok k ∧
    indexes tr = slice_to (shuffle (indexes d) g).1 k ∧
    indexes va = slice_from (shuffle (indexes d) g).1 k.
Proof.
  unfold split_shard. destruct (shuffle (indexes d) g) as [sh g1].
  destruct (py_int _) as [k|e]; [|done]. cbn.
  intros [= <- <- <-]. by exists k.
Qed.

(** What the indexes of a split shard are, however they were shuffled and
    wherever the bound fell. *)
Lemma split_shard_partition f d g tr va g' :
  split_shard f d g = (Ok (tr, va), g') →
  indexes tr ++ indexes va ≡ₚ indexes d ∧
  DatasetView_len tr + DatasetView_len va = DatasetView_len d.
Proof.
  intros (k & _ & Htr & Hva)%split_shard_run.
  assert (indexes tr ++ indexes va ≡ₚ indexes d) as Hp.
  { rewrite Htr, Hva, slice_to_from. apply shuffle_Permutation. }
  split; [done|]. unfold DatasetView_len.
  by rewrite <- (Permutation_length Hp), length_app.
Qed.

Lemma BaseClient_init_split a id d test m0 dev0 g c g' :
  (val_frac (client a) =? 0)%float = false →
  BaseClient_init a id d test m0 dev0 g = (Ok c, g') →
  ∃ tr va val_dl,
    split_shard (val_frac (client a)) d g = (Ok (tr, va), g') ∧
    dl_dataset (train_dataloader c) = tr ∧
    val_dataloader c = Some val_dl ∧ dl_dataset val_dl = va ∧
    sample_num c = DatasetView_len tr.
Proof.
  intros Hf. unfold BaseClient_init. rewrite Hf.
  destruct (split_shard _ d g) as [[[tr va]|e] g1]; [|done]. cbn.
  destruct (DataLoader_new tr _) as [train_dl|] eqn:Htr; [|done]. cbn.
  destruct (DataLoader_new va _) as [val_dl|] eqn:Hva; [|done]. cbn.
  destruct (optional_loader test _) as [test_dl|]; [|done]. cbn.
  intros [= <- <-]. exists tr, va, val_dl. cbn.
  apply DataLoader_new_dataset in Htr as [-> _].
  apply DataLoader_new_dataset in Hva as [-> _]. done.
Qed.

Lemma BaseClient_init_whole a id d test m0 dev0 g c g' :
  (val_frac (client a) =? 0)%float = true →
  BaseClient_init a id d test m0 dev0 g = (Ok c, g') →
  dl_dataset (train_dataloader c) = d ∧ val_dataloader c = None ∧
  sample_num c = DatasetView_len d.
Proof.
  intros Hf. unfold BaseClient_init. rewrite Hf. cbn.
  destruct (DataLoader_new d _) as [train_dl|] eqn:Htr; [|done]. cbn.
  destruct (optional_loader test _) as [test_dl|]; [|done]. cbn.
  intros [= <- <-]. cbn.
  by apply DataLoader_new_dataset in Htr as [-> _].
Qed.

End Construction.

(** ** Calls that run no epoch, and calls without a test loader *)

Section EdgeCalls.
Context `{Torch}.

Lemma model_train_run s : model_train s = update (model (self s)) (set_training true) s.
Proof. reflexivity. Qed.

Lemma model_eval_run s : model_eval s = update (model (self s)) (set_training false) s.
Proof. reflexivity. Qed.

Lemma model_to_device_run s :
  model_to_device s = update (model (self s)) (set_placement (device (self s))) s.
Proof. reflexivity. Qed.

Lemma model_to_update d s :
  model_to d s = update (model (self s)) (set_placement d) s.
Proof. reflexivity. Qed.

Lemma train_no_epochs lr dev s r s' :
  local_eps (learn (args (self s))) = 0%Z →
  train lr dev s = (r, s') →
  model (self s') = model (self s) ∧
  model_parameters s' = model_parameters s ∧
  (∀ m st, heap s !! model (self s) = Some m →
     get_optimizer (name (optimizer (learn (args (self s))))) lr
       (momentum (optimizer (learn (args (self s))))) (all_parameters m) = Ok st →
     r = Ok ∅ ∧ device (self s') = device (self s)).
Proof.
  intros Heps. unfold train, model_parameters. rewrite bind_run.
  destruct (override_device_run dev s) as (s1 & Ho & Hh1 & Hm1 & Ha1 & _ & _ & Hd1).
  rewrite Ho. clear Ho. rewrite <- Hh1, <- Hm1, <- Ha1. rewrite <- Ha1 in Heps.
  rewrite bind_run, model_train_run, update_run.
  destruct (heap s1 !! model (self s1)) as [m|] eqn:Hm; [|intros [= <- <-]; by rewrite ?Hm].
  rewrite bind_run, model_to_device_run, update_run. cbn [self heap torch_gen].
  rewrite lookup_insert_eq.
  rewrite bind_run. cbn [get_self self].
  rewrite bind_run. unfold deref at 1. cbn [heap]. rewrite lookup_insert_eq.
  rewrite bind_run. unfold lift at 1.
  change (all_parameters (set_placement _ (set_training true m))) with (all_parameters m).
  destruct (get_optimizer _ lr _ (all_parameters m)) as [st|e] eqn:Hopt.
  - rewrite Heps. rewrite bind_run. unfold for_range.
    change (Z.to_nat 0) with 0. cbn [seq for_each mret M_ret]. cbv beta iota.
    rewrite bind_run, model_to_update, update_run. cbn [self heap torch_gen].
    rewrite lookup_insert_eq. rewrite bind_run.
    match goal with
    | |- context [restore_device ?b ?s] =>
        destruct (restore_device_run b s) as (s6 & Hr & Hh6 & Hm6 & Hd6);
        rewrite Hr
    end.
    cbn [mret M_ret]. intros [= <- <-]. cbn in Hh6, Hm6, Hd6.
    rewrite Hm6, Hh6, lookup_insert_eq. split; [done|]. split; [done|].
    intros m' st' _ _. split.
    + reflexivity.
    + rewrite Hd6. destruct dev; cbn; [done|]. by rewrite Hd1.
  - intros [= <- <-]. cbn [self heap]. rewrite lookup_insert_eq.
    split; [done|]. split; [done|]. intros m' st' [= <-] Hst. congruence.
Qed.

Lemma test_without_loader s :
  test_dataloader (self s) = None →
  ∃ e s', test s = (Raise e, s') ∧
    (is_Some (heap s !! model (self s)) → e = AttributeError "test_dataloader").
Proof.
  intros Hnone. unfold test.
  rewrite bind_run, model_eval_run, update_run.
  destruct (heap s !! model (self s)) as [m|] eqn:Hm.
  - rewrite bind_run, model_to_device_run, update_run. cbn [self heap torch_gen].
    rewrite lookup_insert_eq.
    rewrite bind_run. cbn [get_self self]. rewrite Hnone.
    rewrite bind_run. unfold lift. by eexists _, _.
  - eexists _, _. split; [done|]. by intros [? ?].
Qed.

Lemma finetune_epoch_without_loader epoch info op s :
  test_dataloader (self s) = None →
  bound_to op = model (self s) →
  ∃ e s', finetune_epoch epoch (info, op) s = (Raise e, s') ∧
    (∀ acc s3,
       (model_train ≫= λ _, model_to_device ≫= λ _,
          train_pass (VariableMonitor_new, op)) s = (Ok acc, s3) →
       e = AttributeError "test_dataloader").
Proof.
  intros Hnone Hop. unfold finetune_epoch.
  set (R := λ h : gmap loc (Module tensor), is_Some (h !! model (self s))).
  remember (self s) as c eqn:Hc.
  assert (Stable (model c) R) as HR.
  { intros h m _. unfold R. rewrite lookup_insert_eq. by eexists. }
  rewrite !(bind_run model_train), model_train_run, update_run, <- Hc.
  destruct (heap s !! model c) as [m|] eqn:Hm; [|by eexists _, _].
  match goal with
  | |- context [(model_to_device ≫= _) ?s0] =>
      assert (Inv c R s0) as Hinv by (split; [done|apply HR; unfold R; by eexists]);
      generalize dependent s0
  end.
  intros s2 Hinv.
  rewrite !(bind_run model_to_device).
  pose proof (keeps_model_to_device _ _ HR s2 Hinv) as Hk.
  destruct (model_to_device s2) as [[[]|e] s3]; [|by eexists _, _].
  clear Hinv. rename Hk into Hinv.
  rewrite !(bind_run (train_pass _)).
  pose proof (train_pass_bound c R HR (VariableMonitor_new, op) s3) as Hk.
  destruct (train_pass _ s3) as [[[monitor op']|e] s4]; [|by eexists _, _].
  destruct Hk as [_ [Hc4 Hh4]]; [by split|].
  rewrite bind_run.
  destruct (test_without_loader s4) as (e & s5 & -> & He); [by rewrite Hc4|].
  exists e, s5. split; [done|]. intros _ _ _. apply He. by rewrite Hc4.
Qed.

Lemma finetune_without_loader lr fargs dev eps s :
  test_dataloader (self s) = None →
  (1 ≤ default (local_eps (learn (args (self s)))) eps)%Z →
  ∃ e s', finetune lr fargs dev eps s = (Raise e, s').
Proof.
  intros Hnone Heps. unfold finetune.
  rewrite bind_run.
  destruct (override_device_run dev s) as (s1 & Ho & Hh1 & Hm1 & Ha1 & Ht1 & _ & Hd1).
  rewrite Ho. clear Ho.
  rewrite bind_run.
  destruct (deepcopy_model s1) as [[bak|e] s2] eqn:Hcopy; [|by eexists _, _].
  apply deepcopy_model_run in Hcopy as (m & Hm & Hne & Hc2 & Hh2).
  set (R := λ _ : gmap loc (Module tensor), True).
  assert (Stable (model (self s1)) R) as HR by done.
  assert (Inv (self s1) R s2) as Hinv by done.
  rewrite bind_run.
  pose proof (keeps_model_train _ _ HR s2 Hinv) as Hk.
  destruct (model_train s2) as [[[]|e] s3]; [|by eexists _, _].
  clear Hinv. rename Hk into Hinv.
  rewrite bind_run.
  pose proof (keeps_model_to_device _ _ HR s3 Hinv) as Hk.
  destruct (model_to_device s3) as [[[]|e] s4]; [|by eexists _, _].
  clear Hinv. rename Hk into Hinv. destruct Hinv as [Hc4 _].
  rewrite bind_run. cbn [get_self].
  rewrite bind_run. unfold deref at 1.
  destruct (heap s4 !! model (self s4)) as [m4|]; [|by eexists _, _].
  rewrite bind_run. unfold lift at 1.
  destruct (get_finetune_parameters m4 fargs) as [weights|e]; [|by eexists _, _].
  rewrite bind_run. unfold lift at 1.
  destruct (get_optimizer _ lr _ weights) as [st|e]; [|by eexists _, _].
  rewrite bind_run. unfold for_range.
  rewrite Hc4, Ha1.
  destruct (Z.to_nat _) as [|n] eqn:Hn; [lia|].
  cbn [seq for_each]. rewrite bind_run.
  match goal with
  | |- context [finetune_epoch 0 (?info, ?op) s4] =>
      destruct (finetune_epoch_without_loader 0 info op s4) as (e & s5 & -> & _)
  end; [by rewrite Hc4, Ht1|by rewrite Hc4|].
  by eexists _, _.
Qed.

Lemma finetune_no_epochs lr fargs dev eps s m weights st :
  (default (local_eps (learn (args (self s)))) eps ≤ 0)%Z →
  heap s !! model (self s) = Some m →
  get_finetune_parameters
    (set_placement (default (device (self s)) dev) (set_training true m)) fargs
    = Ok weights →
  get_optimizer (name (optimizer (learn (args (self s))))) lr
    (momentum (optimizer (learn (args (self s))))) weights = Ok st →
  ∃ s', finetune lr fargs dev eps s = (Ok [], s').
Proof.
  intros Heps Hm Hw Hst. unfold finetune.
  rewrite bind_run.
  destruct (override_device_run dev s) as (s1 & Ho & Hh1 & Hm1 & Ha1 & Ht1 & _ & Hd1).
  rewrite Ho. clear Ho.
  rewrite <- Hh1, <- Hm1 in Hm. rewrite <- Ha1 in Heps, Hst. rewrite <- Hd1 in Hw.
  rewrite bind_run. unfold deepcopy_model.
  rewrite bind_run. cbn [get_self]. rewrite bind_run. unfold deref at 1. rewrite Hm.
  rewrite bind_run. unfold new_loc at 1. rewrite bind_run. unfold store at 1.
  cbn [mret M_ret].
  assert (fresh (dom (heap s1)) ≠ model (self s1)) as Hne.
  { intros Heq. apply (is_fresh (dom (heap s1))). rewrite Heq.
    apply elem_of_dom. by eexists. }
  rewrite bind_run, model_train_run, update_run. cbn [self heap torch_gen].
  rewrite lookup_insert_ne, Hm by done.
  rewrite bind_run, model_to_device_run, update_run. cbn [self heap torch_gen].
  rewrite lookup_insert_eq.
  rewrite bind_run. cbn [get_self self].
  rewrite bind_run. unfold deref at 1. cbn [heap]. rewrite lookup_insert_eq.
  rewrite bind_run. unfold lift at 1. rewrite Hw.
  rewrite bind_run. unfold lift at 1. rewrite Hst.
  rewrite bind_run. unfold for_range.
  replace (Z.to_nat _) with 0 by lia. cbn [seq for_each mret M_ret]. cbv beta iota.
  rewrite bind_run. unfold set_model. rewrite bind_run. cbn [get_self set_self self].
  rewrite bind_run.
  match goal with
  | |- context [restore_device ?b ?s] =>
      destruct (restore_device_run b s) as (s6 & Hr & _); rewrite Hr
  end.
  by eexists.
Qed.

End EdgeCalls.

(** ** [train] and [finetune] on their raising paths *)

Section Raises.
Context `{Torch}.

(** Restoring the device and returning never raise. *)
Lemma restore_and_return_total {A} (P : State → Prop) bak (a : A) E :
  triple P (restore_device bak ≫= λ _, mret a) (λ _ _, True) E.
Proof.
  intros s _. rewrite bind_run.
  destruct (restore_device_run bak s) as (s1 & Hr & _). by rewrite Hr.
Qed.

(** Everything [train] does after the device override leaves the client
    object as the override left it, up to the point where it raises. *)
Lemma train_raises lr dev s e s' :
  train lr dev s = (Raise e, s') →
  model (self s') = model (self s) ∧
  device (self s') = default (device (self s)) dev.
Proof.
  unfold train. rewrite bind_run.
  destruct (override_device_run dev s) as (s1 & Ho & _ & Hm1 & _ & _ & _ & Hd1).
  rewrite Ho, <- Hm1, <- Hd1. clear Ho Hm1 Hd1.
  set (R := λ _ : gmap loc (Module tensor), True).
  remember (self s1) as c eqn:Hc.
  assert (Stable (model c) R) as HR by done.
  assert (Inv c R s1) as Hinv by done.
  match goal with
  | |- ?body s1 = _ → _ =>
      assert (triple (Inv c R) body (λ _ _, True) (λ _, Inv c R)) as Hbody
  end.
  { eapply triple_bind; [by apply keeps_model_train|]; intros [].
    eapply triple_bind; [by apply keeps_model_to_device|]; intros [].
    apply (triple_get_self _ c); [by intros ? [? _]|].
    eapply triple_bind; [apply keeps_deref|]; intros m.
    eapply triple_bind; [apply keeps_lift|]; intros st.
    eapply triple_bind.
    { eapply triple_conseq; [by apply (train_epochs c R)| |done|done].
      intros s0 Hs0. by split. }
    intros [monitor op]. cbv beta iota.
    eapply triple_bind.
    { eapply triple_conseq; [by apply (keeps_model_to c R)|by intros ? [[_ ?] _]|done|done]. }
    intros []. apply restore_and_return_total. }
  intros Hrun. specialize (Hbody s1 Hinv). rewrite Hrun in Hbody.
  by destruct Hbody as [-> _].
Qed.

Lemma deepcopy_model_raises s e s1 : deepcopy_model s = (Raise e, s1) → s1 = s.
Proof.
  unfold deepcopy_model. rewrite bind_run. cbn [get_self].
  rewrite bind_run. unfold deref.
  destruct (heap s !! model (self s)); [done|]. by intros [= _ <-].
Qed.

(** On a raising path [finetune] leaves the client with the device setting
    of the call and the model object it entered the call with. *)
Lemma finetune_raises lr fargs dev eps s e s' :
  finetune lr fargs dev eps s = (Raise e, s') →
  model (self s') = model (self s) ∧
  device (self s') = default (device (self s)) dev.
Proof.
  unfold finetune. rewrite bind_run.
  destruct (override_device_run dev s) as (s1 & Ho & _ & Hm1 & _ & _ & _ & Hd1).
  rewrite Ho, <- Hm1, <- Hd1. clear Ho Hm1 Hd1.
  rewrite bind_run.
  destruct (deepcopy_model s1) as [[bak|e1] s2] eqn:Hcopy;
    [|apply deepcopy_model_raises in Hcopy as ->; by intros [= _ <-]].
  apply deepcopy_model_run in Hcopy as (m & _ & _ & Hc2 & _).
  rewrite <- Hc2. clear Hc2.
  set (R := λ _ : gmap loc (Module tensor), True).
  remember (self s2) as c eqn:Hc.
  assert (Stable (model c) R) as HR by done.
  assert (Inv c R s2) as Hinv by done.
  match goal with
  | |- ?body s2 = _ → _ =>
      assert (triple (Inv c R) body (λ _ _, True) (λ _, Inv c R)) as Hbody
  end.
  { eapply triple_bind; [by apply keeps_model_train|]; intros [].
    eapply triple_bind; [by apply keeps_model_to_device|]; intros [].
    apply (triple_get_self _ c); [by intros ? [? _]|].
    eapply triple_bind; [apply keeps_deref|]; intros m'.
    eapply triple_bind; [apply keeps_lift|]; intros weights.
    eapply triple_bind; [apply keeps_lift|]; intros st.
    eapply triple_bind with (Q' := λ acc, bound c R acc.2).
    { intros s0 Hs0. unfold for_range.
      apply (triple_for_each (λ acc, bound c R acc.2) (λ _, Inv c R));
        [|by split].
      intros epoch acc. by apply finetune_epoch_bound. }
    intros [info op]. cbv beta iota.
    intros s0 _. unfold set_model. rewrite !bind_run. cbn [get_self set_self].
    rewrite bind_run.
    match goal with
    | |- context [restore_device ?b ?s3] =>
        destruct (restore_device_run b s3) as (s4 & Hr & _); rewrite Hr
    end.
    done. }
  intros Hrun. specialize (Hbody s2 Hinv). rewrite Hrun in Hbody.
  by destruct Hbody as [-> _].
Qed.

End Raises.

(** * The claims *)

Section Claims.
Context `{Torch}.


(** C2. For every shard with unique indexes and every validation fraction
    [f] in (0,1), construction splits the index set of the shard: the
    sizes of the train and validation subsets add up to the shard size,
    the two index sets are disjoint and together they are the original
    indexes, each exactly once; a shard of 100 samples with
    [val_frac = 0.2] gives 80 train and 20 validation indexes. *)
Theorem C2_validation_split_partitions_shard a id d test m0 dev0 g c g' :
  NoDup (indexes d) →
  (0 <? val_frac (client a))%float = true →
  (val_frac (client a) <? 1)%float = true →
  BaseClient_init a id d test m0 dev0 g = (Ok c, g') →
  ∃ val_dl, val_dataloader c = Some val_dl ∧
    let train_index := indexes (dl_dataset (train_dataloader c)) in
    let val_index := indexes (dl_dataset val_dl) in
    length train_index + length val_index = DatasetView_len d ∧
    (∀ i, i ∈ train_index → i ∉ val_index) ∧
    train_index ++ val_index ≡ₚ indexes d ∧
    (DatasetView_len d = 100 → val_frac (client a) = one_fifth →
     length train_index = 80 ∧ length val_index = 20).
Proof.
  intros Hnodup Hpos _ Hinit.
  apply positive_fraction_nonzero in Hpos.
  destruct (BaseClient_init_split _ _ _ _ _ _ _ _ _ Hpos Hinit)
    as (tr & va & val_dl & Hsplit & <- & Hval & <- & _).
  exists val_dl. split; [done|]. cbn zeta.
  destruct (split_shard_partition _ _ _ _ _ _ Hsplit) as [Hperm Hlen].
  split; [done|]. split; [|split; [done|]].
  - rewrite <- Hperm in Hnodup. apply NoDup_app in Hnodup as (_ & Hdisj & _).
    exact Hdisj.
  - intros H100 Hf.
    apply split_shard_run in Hsplit as (k & Hk & Htr & Hva).
    rewrite H100, Hf in Hk.
    assert (k = 80%Z) as -> by (vm_compute in Hk; congruence).
    assert (length (shuffle (indexes d) g).1 = 100) as Hsh.
    { by rewrite shuffle_Permutation. }
    assert (length (indexes (dl_dataset (train_dataloader c))) = 80) as Htrain.
    { rewrite Htr, length_slice_to. unfold slice_bound. rewrite Hsh. done. }
    split; [done|]. unfold DatasetView_len in *. lia.
Qed.

(** C3. The [sample_num] of a constructed client is the length of the
    training subset its train loader iterates over: with a zero validation
    fraction that is the whole shard; with a fraction above zero it is the
    shard length less the length of the validation subset that was split
    off, not the raw shard length. *)
Theorem C3_sample_num_is_train_subset_length a id d test m0 dev0 g c g' :
  BaseClient_init a id d test m0 dev0 g = (Ok c, g') →
  sample_num c = DatasetView_len (dl_dataset (train_dataloader c)) ∧
  ((val_frac (client a) =? 0)%float = true →
     dl_dataset (train_dataloader c) = d ∧ sample_num c = DatasetView_len d) ∧
  ((0 <? val_frac (client a))%float = true →
     ∃ val_dl, val_dataloader c = Some val_dl ∧
       sample_num c + DatasetView_len (dl_dataset val_dl) = DatasetView_len d).
Proof.
  intros Hinit.
  destruct (val_frac (client a) =? 0)%float eqn:Hf.
  - destruct (BaseClient_init_whole _ _ _ _ _ _ _ _ _ Hf Hinit) as (Hd & _ & Hn).
    split; [by rewrite Hd|]. split; [done|].
    intros Hpos%positive_fraction_nonzero. congruence.
  - destruct (BaseClient_init_split _ _ _ _ _ _ _ _ _ Hf Hinit)
      as (tr & va & val_dl & Hsplit & <- & Hval & <- & Hn).
    split; [done|]. split; [done|]. intros _.
    exists val_dl. split; [done|].
    rewrite Hn. by destruct (split_shard_partition _ _ _ _ _ _ Hsplit).
Qed.




(** C8, as amended. On every returning path of [train], [test] and
    [finetune] the device setting overridden for the call is restored;
    [train] and [test] leave the model on the cpu, and [finetune] leaves
    the client with the model object as it was before the call. On every
    raising path nothing is restored: the client keeps the device setting
    of the call and the model object it entered the call with. *)
Theorem C8_exit_paths k s r s' :
  run k s = (r, s') →
  match r with
  | Ok _ => restored k s s'
  | Raise _ => abandoned k s s'
  end.
Proof.
  destruct k as [lr dev| |lr fargs dev eps]; cbn [run].
  - destruct (train lr dev s) as [[r1|e] s1] eqn:Hrun; intros [= <- <-]; cbn.
    + destruct (train_returns _ _ _ _ _ Hrun) as (? & ? & ? & _).
      by repeat split.
    + by apply train_raises in Hrun.
  - destruct (test s) as [[r1|e] s1] eqn:Hrun; intros [= <- <-]; cbn.
    + destruct (test_returns _ _ _ Hrun) as [Hself ?].
      split; [by rewrite Hself|]. split; [by rewrite Hself|done].
    + pose proof (keeps_test (self s) (λ _, True) (λ _ _ _, I) s (conj eq_refl I)) as Hk.
      rewrite Hrun in Hk. destruct Hk as [Hself _].
      unfold abandoned. rewrite Hself. by split.
  - destruct (finetune lr fargs dev eps s) as [[info|e] s1] eqn:Hrun;
      intros [= <- <-]; cbn.
    + destruct (finetune_restores _ _ _ _ _ _ _ Hrun) as (m & Hm & Hm' & Hd & _).
      split; [done|]. by rewrite Hm, Hm'.
    + by apply finetune_raises in Hrun.
Qed.


End Claims.

(** * The claims on concrete inputs *)

Module Concrete.
Import Toy.

(** C5. Indexing the MNIST adapter in bounds returns torchvision's pair
    [(img, target)], which is not the record with fields [input] and
    [class_id]; the CIFAR-100 adapter returns that record. *)
Theorem C5_mnist_getitem_returns_pair :
  MNISTDataset_getitem mnist 0 = Ok (ItemTuple 1%float 3%Z) ∧
  ¬ is_record (ItemTuple 1%float 3%Z) ∧
  CIFAR100Dataset_getitem (cifar samples) 0 = Ok (record_item 1%float 3%Z).
Proof.
  split; [reflexivity|]. split; [apply pair_is_not_record|reflexivity].
Qed.

(** The client's [preprocess_data] reads the fields [input] and
    [class_id]: a pass over a shard of the MNIST adapter raises. *)
Lemma train_on_mnist_shard_raises :
  ∃ s', train 0.5 None
          (state_of {| args := arguments 0 1; client_id := 0; model := 1%positive;
                       device := "cpu"; sample_num := 3;
                       train_dataloader :=
                         {| dl_dataset := {| tot_data := OfMNIST mnist;
                                             indexes := [0; 1; 2] |};
                            dl_batch_size := 2 |};
                       val_dataloader := None; test_dataloader := None |})
        = (Raise TypeError, s').
Proof. eexists. vm_compute. reflexivity. Qed.

(** What [finetune] trains is the object the client held when it was
    called: after a returning call that object, under its old reference,
    has the finetuned parameters, and the client holds the snapshot. *)
Lemma finetune_trains_the_shared_object :
  ∃ info s',
    finetune 0.5 [0] None (Some 2%Z) with_test = (Ok info, s') ∧
    model (self with_test) = 1%positive ∧ model (self s') = 2%positive ∧
    parameters <$> heap with_test !! 1%positive = Some [0.5; 0.25]%float ∧
    parameters <$> heap s' !! 1%positive = Some [-1.5; 0.25]%float ∧
    parameters <$> heap s' !! 2%positive = Some [0.5; 0.25]%float.
Proof.
  eexists _, _. split; [vm_compute; reflexivity|].
  repeat split; vm_compute; reflexivity.
Qed.

(** C9. On a configuration whose [data] node has [transforms] and
    [data_path], the MNIST adapter is built from [data_path], and the
    CIFAR-100 adapter raises: it asks for [data_pathpath]. *)
Theorem C9_cifar100_reads_data_pathpath :
  data cfg !! "data_path" = Some (CStr "./data") ∧
  MNISTDataset_init cfg true = Ok mnist ∧
  CIFAR100Dataset_init cfg true = Raise (AttributeError "data_pathpath").
Proof. split; [|split]; vm_compute; reflexivity. Qed.



(** C8 fails as stated: when the forward pass raises in [train] called
    with a device override, the model stays on that device and the client
    keeps the overridden device setting; when [finetune] raises after its
    training pass, the client keeps the finetuned parameters. *)
Lemma C8_failing_calls_leak_counterexample :
  (∃ s', run (CallTrain 0.5 (Some "cuda")) rejected = (Raise IndexError, s') ∧
     model_placement rejected = Some "cpu" ∧ device (self rejected) = "cpu" ∧
     model_placement s' = Some "cuda" ∧ device (self s') = "cuda" ∧
     ¬ restored (CallTrain 0.5 (Some "cuda")) rejected s') ∧
  (∃ s', run (CallFinetune 0.5 [0] (Some "cuda") (Some 1%Z)) without_test
         = (Raise (AttributeError "test_dataloader"), s') ∧
     model_parameters without_test = Some [0.5; 0.25]%float ∧
     model_parameters s' = Some [-0.5; 0.25]%float ∧
     model_placement s' = Some "cuda" ∧ device (self s') = "cuda" ∧
     ¬ restored (CallFinetune 0.5 [0] (Some "cuda") (Some 1%Z)) without_test s').
Proof.
  split.
  - eexists. split; [vm_compute; reflexivity|].
    repeat (split; [vm_compute; reflexivity|]).
    intros [Hd _]. vm_compute in Hd. discriminate.
  - eexists. split; [vm_compute; reflexivity|].
    repeat (split; [vm_compute; reflexivity|]).
    intros [Hd _]. vm_compute in Hd. discriminate.
Qed.


End Concrete.

(** * The theorems applied *)

Module Witnesses.
Import Toy.


Lemma C2_validation_split_partitions_shard_witness :
  ∃ c g',
    BaseClient_init (arguments one_fifth 1) 0 (shard hundred) None 1%positive "cpu" draws
      = (Ok c, g') ∧
    ∃ val_dl, val_dataloader c = Some val_dl ∧
      let train_index := indexes (dl_dataset (train_dataloader c)) in
      let val_index := indexes (dl_dataset val_dl) in
      length train_index + length val_index = 100 ∧
      (∀ i, i ∈ train_index → i ∉ val_index) ∧
      train_index ++ val_index ≡ₚ seq 0 100 ∧
      (100 = 100 → one_fifth = one_fifth →
       length train_index = 80 ∧ length val_index = 20).
Proof.
  eexists _, _.
  assert (BaseClient_init (arguments one_fifth 1) 0 (shard hundred) None
            1%positive "cpu" draws = (Ok _, _)) as Hinit
    by (vm_compute; reflexivity).
  split; [exact Hinit|].
  refine (C2_validation_split_partitions_shard _ _ _ _ _ _ _ _ _ _ _ _ Hinit).
  - apply NoDup_seq.
  - reflexivity.
  - reflexivity.
Defined.

Lemma C3_sample_num_is_train_subset_length_witness :
  ∃ c g',
    BaseClient_init (arguments one_fifth 1) 0 (shard hundred) None 1%positive "cpu" draws
      = (Ok c, g') ∧
    sample_num c = 80 ∧
    sample_num c = DatasetView_len (dl_dataset (train_dataloader c)).
Proof.
  eexists _, _.
  assert (BaseClient_init (arguments one_fifth 1) 0 (shard hundred) None
            1%positive "cpu" draws = (Ok _, _)) as Hinit
    by (vm_compute; reflexivity).
  split; [exact Hinit|]. split; [reflexivity|].
  exact (proj1 (C3_sample_num_is_train_subset_length _ _ _ _ _ _ _ _ _ Hinit)).
Defined.



Lemma C8_exit_paths_witness :
  (∃ s', run (CallFinetune 0.5 [0] (Some "cuda") (Some 2%Z)) with_test = (Ok (), s') ∧
     restored (CallFinetune 0.5 [0] (Some "cuda") (Some 2%Z)) with_test s') ∧
  (∃ s', run (CallTrain 0.5 (Some "cuda")) rejected = (Raise IndexError, s') ∧
     abandoned (CallTrain 0.5 (Some "cuda")) rejected s').
Proof.
  split.
  - eexists.
    assert (run (CallFinetune 0.5 [0] (Some "cuda") (Some 2%Z)) with_test = (Ok (), _))
      as Hrun by (vm_compute; reflexivity).
    split; [exact Hrun|].
    exact (C8_exit_paths _ _ _ _ Hrun).
  - eexists.
    assert (run (CallTrain 0.5 (Some "cuda")) rejected = (Raise IndexError, _))
      as Hrun by (vm_compute; reflexivity).
    split; [exact Hrun|].
    exact (C8_exit_paths _ _ _ _ Hrun).
Defined.


End Witnesses.

(** * Further properties of the client *)

(** ** Invariants that hold on every exit path *)

Section Preservation.
Context `{Torch}.

Lemma preserves_ret {A} P (a : A) : preserves P (mret a : M A).
Proof. intros s Hs. exact Hs. Qed.

Lemma preserves_bind {A B} P (m : M A) (k : A → M B) :
  preserves P m → (∀ a, preserves P (k a)) → preserves P (m ≫= k).
Proof. intros Hm Hk. eapply triple_bind; [apply Hm|]. intros a. apply Hk. Qed.

Lemma preserves_lift {A} P (r : result A) : preserves P (lift r).
Proof. intros s Hs. unfold lift. by destruct r. Qed.

Lemma preserves_deref P l : preserves P (deref l).
Proof. intros s Hs. unfold deref. by destruct (heap s !! l). Qed.

(** The steps that only read the state. *)
Lemma preprocess_data_state data s : (preprocess_data data s).2 = s.
Proof.
  unfold preprocess_data. rewrite bind_run. cbn [get_self].
  rewrite bind_run. unfold lift at 1.
  destruct (Batch_getitem data "input"); [|done].
  rewrite bind_run. unfold lift at 1.
  by destruct (Batch_getitem data "class_id").
Qed.

Lemma test_step_state batch monitor s : (test_step batch monitor s).2 = s.
Proof.
  unfold test_step. rewrite bind_run. cbn [get_self].
  rewrite bind_run. unfold deref.
  destruct (heap s !! model (self s)) as [m|]; [|done].
  rewrite bind_run. unfold lift.
  by destruct (forward_loss m batch) as [[acc loss]|].
Qed.

Lemma preserves_reader {A} P (m : M A) : (∀ s, (m s).2 = s) → preserves P m.
Proof.
  intros Hm s Hs. specialize (Hm s).
  destruct (m s) as [[a|e] s']; cbn in Hm; by subst.
Qed.

(** A pass over a loader maintains what its body maintains, provided
    drawing the order of the pass does. *)
Lemma triple_for_batches {S} (I : S → State → Prop) (P : State → Prop) dl
    (body : Batch → S → M S) acc :
  (∀ s acc g, I acc s → I acc {| self := self s; heap := heap s; torch_gen := g |}) →
  (∀ acc s, I acc s → P s) →
  (∀ data acc, triple (I acc) (body data acc) I (λ _, P)) →
  triple (I acc) (for_batches dl body acc) I (λ _, P).
Proof.
  intros Hgen HI Hbody. unfold for_batches.
  eapply triple_bind with (Q' := λ _, I acc).
  - intros s Hs. unfold draw_positions.
    destruct (batch_positions dl (torch_gen s)) as [ps g']. by apply Hgen.
  - intros positions. apply triple_for_each. intros ps acc'.
    eapply triple_bind with (Q' := λ _, I acc').
    + intros s Hs. unfold lift. destruct (fetch dl ps); [done|]. by eapply HI.
    + intros data. apply Hbody.
Qed.

Variables (l : loc) (G : BaseClient → Prop) (F : Module tensor → Prop)
  (R : gmap loc (Module tensor) → Prop).
Hypothesis G_model : ∀ c, G c → model c = l.
Hypothesis G_device : ∀ d c, G c → G (with_device d c).
Hypothesis R_stable : Stable l R.

Lemma Kept_generator s g :
  Kept G F R s → Kept G F R {| self := self s; heap := heap s; torch_gen := g |}.
Proof. by intros (? & ? & ?). Qed.

(** A write to the client's model object that [F] survives. *)
Lemma kept_model_write f :
  (∀ m, F m → F (f m)) →
  preserves (Kept G F R) (get_self ≫= λ c, update (model c) f).
Proof.
  intros Hf s (HG & (m & Hm & HF) & HR).
  rewrite bind_run. cbn [get_self]. rewrite update_run, Hm.
  unfold Kept. cbn. split; [done|].
  split; [|rewrite (G_model _ HG); by apply R_stable].
  exists (f m). rewrite lookup_insert_eq. split; [done|by apply Hf].
Qed.

Lemma kept_model_to_device :
  (∀ d m, F m → F (set_placement d m)) → preserves (Kept G F R) model_to_device.
Proof.
  intros Hf s Hs. unfold model_to_device. rewrite bind_run. cbn [get_self].
  exact (kept_model_write (set_placement (device (self s))) (Hf _) s Hs).
Qed.

Lemma kept_set_device d : preserves (Kept G F R) (set_device d).
Proof.
  intros s (HG & Hm & HR). split; [|done].
  exact (G_device d _ HG).
Qed.

Lemma kept_override_device d : preserves (Kept G F R) (override_device d).
Proof.
  destruct d as [d|]; [|by intros s ?].
  intros s (HG & Hm & HR). split; [|done].
  exact (G_device d _ HG).
Qed.

Lemma kept_restore_device bak : preserves (Kept G F R) (restore_device bak).
Proof. destruct bak as [d|]; [apply kept_set_device|by intros s ?]. Qed.

(** A train step maintains what survives a change of the parameters, and
    the optimizer stays bound to the same object. *)
Lemma kept_train_step batch monitor op :
  (∀ ps m, F m → F (set_parameters ps m)) →
  triple (λ s, bound_to op = l ∧ Kept G F R s) (train_step batch monitor op)
    (λ acc s, bound_to acc.2 = l ∧ Kept G F R s) (λ _, Kept G F R).
Proof.
  intros Hf s [Hop Hk]. pose proof Hk as (HG & (m & Hm & HF) & HR).
  pose proof (G_model _ HG) as Hl. rewrite Hl in Hm.
  unfold train_step.
  rewrite bind_run. cbn [get_self].
  rewrite bind_run. unfold deref at 1. rewrite Hl, Hm.
  rewrite bind_run. unfold lift at 1.
  destruct (forward_loss m batch) as [[acc loss]|e]; [|exact Hk].
  rewrite bind_run, Hop. unfold deref at 1. rewrite Hm.
  rewrite bind_run. unfold lift at 1.
  destruct (optim_step (opt_state op) m batch) as [[st ps]|e]; [|exact Hk].
  rewrite bind_run, update_run, Hm. unfold Kept. cbn.
  split; [done|]. split; [done|]. split; [|by apply R_stable].
  exists (set_parameters ps m). rewrite Hl, lookup_insert_eq.
  split; [done|by apply Hf].
Qed.

Lemma kept_train_pass acc :
  (∀ ps m, F m → F (set_parameters ps m)) →
  triple (λ s, bound_to acc.2 = l ∧ Kept G F R s) (train_pass acc)
    (λ acc' s, bound_to acc'.2 = l ∧ Kept G F R s) (λ _, Kept G F R).
Proof.
  intros Hf s Hs. unfold train_pass. rewrite bind_run. cbn [get_self].
  revert Hs.
  apply (triple_for_batches (λ acc s, bound_to acc.2 = l ∧ Kept G F R s) (Kept G F R)).
  - intros s0 acc' g [? ?]. split; [done|]. by apply Kept_generator.
  - by intros acc' s0 [_ ?].
  - intros data [monitor op]. cbn [snd].
    eapply triple_bind with (Q' := λ _ s, bound_to op = l ∧ Kept G F R s).
    + intros s0 Hs0. pose proof (preprocess_data_state data s0) as Hp.
      destruct (preprocess_data data s0) as [[b|e] s1]; cbn in Hp; subst; [done|].
      apply Hs0.
    + intros b. by apply kept_train_step.
Qed.

Lemma kept_test :
  (∀ b m, F m → F (set_training b m)) →
  (∀ d m, F m → F (set_placement d m)) →
  preserves (Kept G F R) test.
Proof.
  intros Hmode Hto. unfold test.
  apply preserves_bind; [apply (kept_model_write (set_training false)), Hmode|]; intros [].
  apply preserves_bind; [by apply kept_model_to_device|]; intros [].
  intros s Hs. rewrite bind_run. cbn [get_self]. revert Hs.
  apply preserves_bind.
  { destruct (test_dataloader (self s)); [apply preserves_ret|apply preserves_lift]. }
  intros dl. apply preserves_bind.
  - apply (triple_for_batches (λ _ s, Kept G F R s) (Kept G F R));
      [intros; by apply Kept_generator|done|].
    intros data monitor.
    apply preserves_bind;
      [apply preserves_reader, preprocess_data_state|]; intros b.
    apply preserves_reader, test_step_state.
  - intros monitor.
    apply preserves_bind; [apply (kept_model_write (set_placement "cpu")), Hto|]; intros [].
    apply preserves_ret.
Qed.

End Preservation.

(** ** What [train], [test] and [finetune] maintain *)

Section Methods.
Context `{Torch}.
Variables (l : loc) (G : BaseClient → Prop) (R : gmap loc (Module tensor) → Prop).
Hypothesis G_model : ∀ c, G c → model c = l.
Hypothesis G_device : ∀ d c, G c → G (with_device d c).
Hypothesis R_stable : Stable l R.

Lemma kept_weaken {A} (F F' : Module tensor → Prop) (m : M A) :
  preserves (Kept G F R) m → (∀ x, F x → F' x) →
  triple (Kept G F R) m (λ _, Kept G F R) (λ _, Kept G F' R).
Proof.
  intros Hm HF. eapply triple_conseq; [apply Hm|done|done|].
  intros _ s (HG & (x & Hx & Hx') & HR). split; [done|]. split; [|done].
  exists x. split; [done|by apply HF].
Qed.

Lemma triple_get_self_any {A} (P : State → Prop) (k : BaseClient → M A)
    (Q : A → State → Prop) (E : exn → State → Prop) :
  (∀ c, triple (λ s, P s ∧ self s = c) (k c) Q E) → triple P (get_self ≫= k) Q E.
Proof.
  intros Hk s Hs. rewrite bind_run. cbn [get_self]. by apply (Hk (self s)).
Qed.

(** A write to the client's model object, taking it from [F0] to [F]. *)
Lemma kept_model_write_to f (F0 F : Module tensor → Prop) E :
  (∀ m, F0 m → F (f m)) →
  triple (Kept G F0 R) (get_self ≫= λ c, update (model c) f)
    (λ _, Kept G F R) E.
Proof.
  intros Hf s (HG & (m & Hm & HF) & HR).
  rewrite bind_run. cbn [get_self]. rewrite update_run, Hm.
  unfold Kept. cbn. split; [done|].
  split; [|rewrite (G_model _ HG); by apply R_stable].
  exists (f m). rewrite lookup_insert_eq. split; [done|by apply Hf].
Qed.

Lemma Kept_weaken (F F' : Module tensor → Prop) s :
  (∀ m, F m → F' m) → Kept G F R s → Kept G F' R s.
Proof.
  intros HF (HG & (m & Hm & Hm') & HR). split; [done|]. split; [|done].
  exists m. split; [done|by apply HF].
Qed.

(** A write of the mode, taking the model object from [F0] to [F]. *)
Lemma kept_set_mode b (F0 F : Module tensor → Prop) E :
  (∀ m, F0 m → F (set_training b m)) →
  triple (Kept G F0 R) (get_self ≫= λ c, update (model c) (set_training b))
    (λ _, Kept G F R) E.
Proof.
  intros Hf s (HG & (m & Hm & HF) & HR).
  rewrite bind_run. cbn [get_self]. rewrite update_run, Hm.
  unfold Kept. cbn. split; [done|].
  split; [|rewrite (G_model _ HG); by apply R_stable].
  exists (set_training b m). rewrite lookup_insert_eq. split; [done|by apply Hf].
Qed.

Lemma kept_train_epochs (F : Module tensor → Prop) n acc :
  (∀ ps m, F m → F (set_parameters ps m)) →
  triple (λ s, bound_to acc.2 = l ∧ Kept G F R s)
    (for_range n (λ _ acc, train_pass acc) acc)
    (λ acc' s, bound_to acc'.2 = l ∧ Kept G F R s) (λ _, Kept G F R).
Proof.
  intros Hf. unfold for_range.
  apply (triple_for_each (λ acc s, bound_to acc.2 = l ∧ Kept G F R s)).
  intros _ acc'. by apply (kept_train_pass l G F R).
Qed.

(** Setting the device for the call never raises. *)
Lemma kept_override_device_returns d (F : Module tensor → Prop) E :
  triple (Kept G F R) (override_device d) (λ _, Kept G F R) E.
Proof.
  destruct d as [d|]; [|by intros s ?].
  intros s (HG & Hm & HR). split; [|done].
  exact (G_device d _ HG).
Qed.

(** [train] takes the model object from [F0] to [F] when setting the
    training mode does and when [F] survives every later write; this holds
    of the state it raises in as well. *)
Lemma train_kept lr dev (F0 F : Module tensor → Prop) :
  (∀ m, F0 m → F (set_training true m)) →
  (∀ d m, F m → F (set_placement d m)) →
  (∀ ps m, F m → F (set_parameters ps m)) →
  triple (Kept G F0 R) (train lr dev) (λ _, Kept G F R) (λ _, Kept G F R).
Proof.
  intros Hmode Hto Hps. unfold train.
  eapply triple_bind with (Q' := λ _, Kept G F0 R);
    [apply kept_override_device_returns|].
  intros bak.
  eapply triple_bind with (Q' := λ _, Kept G F R); [by apply kept_set_mode|].
  intros [].
  apply preserves_bind; [eapply kept_model_to_device; eauto|]; intros [].
  apply triple_get_self_any. intros c.
  eapply triple_bind with (Q' := λ _ s, Kept G F R s ∧ self s = c).
  { intros s Hs. unfold deref. destruct (heap s !! model c); [done|apply Hs]. }
  intros m.
  eapply triple_bind with (Q' := λ _ s, Kept G F R s ∧ self s = c).
  { intros s Hs. unfold lift. destruct (get_optimizer _ _ _ _); [done|apply Hs]. }
  intros st.
  eapply triple_bind.
  { eapply triple_conseq; [by apply (kept_train_epochs F)| |done|done].
    intros s [Hk Hc]. split; [|done]. cbn. subst c. apply G_model, Hk. }
  intros [monitor op]. cbv beta iota.
  eapply triple_bind with (Q' := λ _, Kept G F R).
  { eapply triple_conseq;
      [apply (kept_model_write l G F R G_model R_stable (set_placement "cpu")), Hto
      |by intros ? [_ ?]|done|done]. }
  intros [].
  apply preserves_bind; [eapply kept_restore_device; eauto|]; intros [].
  apply preserves_ret.
Qed.

(** [test] takes the model object from [F0] to [F] when setting the
    evaluation mode does and when [F] survives a change of placement. *)
Lemma test_kept (F0 F : Module tensor → Prop) :
  (∀ m, F0 m → F (set_training false m)) →
  (∀ d m, F m → F (set_placement d m)) →
  triple (Kept G F0 R) test (λ _, Kept G F R) (λ _, Kept G F R).
Proof.
  intros Hmode Hto. unfold test.
  eapply triple_bind with (Q' := λ _, Kept G F R); [by apply kept_set_mode|].
  intros [].
  apply preserves_bind; [eapply kept_model_to_device; eauto|]; intros [].
  apply triple_get_self_any. intros c.
  eapply triple_bind with (Q' := λ _, Kept G F R).
  { intros s [Hs _]. destruct (test_dataloader c); exact Hs. }
  intros dl. apply preserves_bind.
  - apply (triple_for_batches (λ _ s, Kept G F R s) (Kept G F R));
      [intros; by apply Kept_generator|done|].
    intros data monitor.
    apply preserves_bind;
      [apply preserves_reader, preprocess_data_state|]; intros b.
    apply preserves_reader, test_step_state.
  - intros monitor.
    apply preserves_bind;
      [apply (kept_model_write l G F R G_model R_stable (set_placement "cpu")), Hto|];
      intros [].
    apply preserves_ret.
Qed.

Lemma kept_finetune_epoch (F : Module tensor → Prop) epoch acc :
  (∀ b m, F m → F (set_training b m)) →
  (∀ d m, F m → F (set_placement d m)) →
  (∀ ps m, F m → F (set_parameters ps m)) →
  triple (λ s, bound_to acc.2 = l ∧ Kept G F R s) (finetune_epoch epoch acc)
    (λ acc' s, bound_to acc'.2 = l ∧ Kept G F R s) (λ _, Kept G F R).
Proof.
  intros Hmode Hto Hps. destruct acc as [info op]. cbn [snd]. unfold finetune_epoch.
  eapply triple_bind with (Q' := λ _ s, bound_to op = l ∧ Kept G F R s).
  { intros s [Hop Hs].
    pose proof (kept_model_write l G F R G_model R_stable (set_training true)
                  (Hmode true) s Hs) as Hk.
    change ((get_self ≫= λ c, update (model c) (set_training true)) s)
      with (model_train s) in Hk.
    destruct (model_train s) as [[[]|e] s']; [by split|done]. }
  intros [].
  eapply triple_bind with (Q' := λ _ s, bound_to op = l ∧ Kept G F R s).
  { intros s [Hop Hs].
    pose proof (kept_model_to_device l G F R G_model R_stable Hto s Hs) as Hk.
    destruct (model_to_device s) as [[[]|e] s']; [by split|done]. }
  intros [].
  eapply triple_bind; [by apply (kept_train_pass l G F R G_model R_stable (_, op))|].
  intros [monitor op']. cbn [snd].
  eapply triple_bind with (Q' := λ _ s, bound_to op' = l ∧ Kept G F R s).
  { intros s [Hop Hs].
    pose proof (kept_test l G F R G_model R_stable Hmode Hto s Hs) as Hk.
    destruct (test s) as [[t|e] s']; [by split|done]. }
  intros tested s Hs. exact Hs.
Qed.

End Methods.

(** ** What a call leaves of the client and of the model objects *)

Section MethodFrames.
Context `{Torch}.

Lemma agree_off_stable l h0 :
  is_Some (h0 !! l) → Stable l (agree_off l h0).
Proof.
  intros Hl h m [Hdom Hh]. split.
  - rewrite dom_insert_L, Hdom. apply elem_of_dom in Hl.
    apply set_eq. intros x. rewrite elem_of_union, elem_of_singleton.
    split; [intros [->|?]; done|by right].
  - intros l' Hl'. rewrite lookup_insert_ne; [by apply Hh|done].
Qed.

Lemma agree_off_refl l h : agree_off l h h.
Proof. by split. Qed.

Lemma with_device_same c : with_device (device c) c = c.
Proof. by destruct c. Qed.

Lemma with_model_same c : with_model (model c) c = c.
Proof. by destruct c. Qed.

(** Without a model object, [test] raises at its first statement. *)
Lemma test_dangling s :
  heap s !! model (self s) = None → (test s).2 = s.
Proof.
  intros Hm. unfold test. rewrite bind_run, model_eval_run, update_run, Hm.
  done.
Qed.

(** Setting the device for the call, as a state. *)
Lemma override_device_state dev s :
  override_device dev s =
    (Ok ((λ _, device (self s)) <$> dev),
     {| self := with_device (default (device (self s)) dev) (self s);
        heap := heap s; torch_gen := torch_gen s |}).
Proof.
  destruct dev as [d|]; [done|].
  cbn. rewrite with_device_same. by destruct s.
Qed.

(** Without a model object, [train] raises once the device is set. *)
Lemma train_dangling lr dev s :
  heap s !! model (self s) = None →
  self (train lr dev s).2 = with_device (default (device (self s)) dev) (self s) ∧
  heap (train lr dev s).2 = heap s.
Proof.
  intros Hm. unfold train. rewrite bind_run, override_device_state.
  cbv beta iota. rewrite bind_run, model_train_run, update_run.
  cbn [self heap model with_device]. by rewrite Hm.
Qed.

(** X1. On every path out of [test], returning or raising, the client
    object is as it was, the parameters of its model are the ones it had,
    and no other model object has been touched, created or dropped: the
    call writes nothing but the mode and the placement of the client's
    model. *)
Theorem test_writes_mode_and_placement_only s :
  let s' := (test s).2 in
  self s' = self s ∧
  model_parameters s' = model_parameters s ∧
  agree_off (model (self s)) (heap s) (heap s').
Proof.
  cbv zeta. destruct (heap s !! model (self s)) as [m|] eqn:Hm.
  - pose proof (test_kept (model (self s)) (λ c, c = self s)
                  (agree_off (model (self s)) (heap s))
                  (λ c Hc, f_equal model Hc)
                  (agree_off_stable _ _ (mk_is_Some _ _ Hm))
                  (λ m', parameters m' = parameters m)
                  (λ m', parameters m' = parameters m)
                  (λ _ Hp, Hp) (λ _ _ Hp, Hp) s) as Ht.
    assert (Kept (λ c, c = self s) (λ m', parameters m' = parameters m)
              (agree_off (model (self s)) (heap s)) s) as Hs.
    { split; [done|]. split; [by exists m|apply agree_off_refl]. }
    specialize (Ht Hs).
    assert (Kept (λ c, c = self s) (λ m', parameters m' = parameters m)
              (agree_off (model (self s)) (heap s)) (test s).2) as Hk.
    { by destruct (test s) as [[r|e] s']. }
    destruct Hk as (Hc & (m' & Hm' & Hp) & Hh).
    split; [done|]. split; [|done].
    unfold model_parameters. rewrite Hm', Hm. cbn. by rewrite Hp.
  - rewrite test_dangling by done. split; [done|]. split; [done|].
    apply agree_off_refl.
Qed.

(** X2. Whenever the client's model object exists, [test] leaves it in
    evaluation mode, on the path that returns and on every path that
    raises. *)
Theorem test_leaves_evaluation_mode s :
  is_Some (heap s !! model (self s)) →
  model_training (test s).2 = Some false.
Proof.
  intros [m Hm].
  pose proof (test_kept (model (self s)) (λ c, model c = model (self s))
                (λ _, True) (λ c Hc, Hc) (λ _ _ _, I)
                (λ _, True) (λ m', training m' = false)
                (λ _ _, eq_refl) (λ _ _ Hp, Hp) s) as Ht.
  assert (Kept (λ c, model c = model (self s)) (λ _, True) (λ _, True) s) as Hs.
  { split; [done|]. split; [by exists m|done]. }
  specialize (Ht Hs).
  assert (Kept (λ c, model c = model (self s)) (λ m', training m' = false)
            (λ _, True) (test s).2) as Hk.
  { by destruct (test s) as [[r|e] s']. }
  destruct Hk as (Hc & (m' & Hm' & Hp) & _).
  unfold model_training. rewrite Hm'. cbn. by rewrite Hp.
Qed.

(** X3. On every path out of [train], returning or raising, the client
    object differs from what it was in its device setting at most, and no
    model object other than the client's has been touched, created or
    dropped. *)
Theorem train_writes_its_model_only lr dev s :
  let s' := (train lr dev s).2 in
  self s' = with_device (device (self s')) (self s) ∧
  agree_off (model (self s)) (heap s) (heap s').
Proof.
  cbv zeta. destruct (heap s !! model (self s)) as [m|] eqn:Hm.
  - pose proof (train_kept (model (self s)) (λ c, ∃ d, c = with_device d (self s))
                  (agree_off (model (self s)) (heap s))) as Ht.
    specialize (Ht (λ c '(ex_intro _ d Hc), f_equal model Hc)).
    assert (∀ d c, (∃ d', c = with_device d' (self s)) →
                   ∃ d', with_device d c = with_device d' (self s)) as Hdev.
    { intros d c [d' ->]. by exists d. }
    specialize (Ht Hdev (agree_off_stable _ _ (mk_is_Some _ _ Hm)) lr dev
                  (λ _, True) (λ _, True) (λ _ _, I) (λ _ _ _, I) (λ _ _ _, I) s).
    assert (Kept (λ c, ∃ d, c = with_device d (self s)) (λ _, True)
              (agree_off (model (self s)) (heap s)) s) as Hs.
    { split; [exists (device (self s)); by rewrite with_device_same|].
      split; [by exists m|apply agree_off_refl]. }
    specialize (Ht Hs).
    assert (Kept (λ c, ∃ d, c = with_device d (self s)) (λ _, True)
              (agree_off (model (self s)) (heap s)) (train lr dev s).2) as Hk.
    { by destruct (train lr dev s) as [[r|e] s']. }
    destruct Hk as ([d Hc] & _ & Hh). split; [|done].
    rewrite Hc at 2. by rewrite Hc.
  - destruct (train_dangling lr dev s Hm) as [Hc Hh]. split.
    + by rewrite Hc.
    + rewrite Hh. apply agree_off_refl.
Qed.

(** X4. Whenever the client's model object exists, [train] leaves it in
    training mode, on the path that returns and on every path that
    raises. *)
Theorem train_leaves_training_mode lr dev s :
  is_Some (heap s !! model (self s)) →
  model_training (train lr dev s).2 = Some true.
Proof.
  intros [m Hm].
  pose proof (train_kept (model (self s)) (λ c, model c = model (self s))
                (λ _, True) (λ c Hc, Hc) (λ _ _ Hc, Hc) (λ _ _ _, I) lr dev
                (λ _, True) (λ m', training m' = true)
                (λ _ _, eq_refl) (λ _ _ Hp, Hp) (λ _ _ Hp, Hp) s) as Ht.
  assert (Kept (λ c, model c = model (self s)) (λ _, True) (λ _, True) s) as Hs.
  { split; [done|]. split; [by exists m|done]. }
  specialize (Ht Hs).
  assert (Kept (λ c, model c = model (self s)) (λ m', training m' = true)
            (λ _, True) (train lr dev s).2) as Hk.
  { by destruct (train lr dev s) as [[r|e] s']. }
  destruct Hk as (Hc & (m' & Hm' & Hp) & _).
  unfold model_training. rewrite Hm'. cbn. by rewrite Hp.
Qed.

End MethodFrames.

(** ** The snapshot [finetune] takes *)

Section FinetuneFrames.
Context `{Torch}.

Lemma Snapshot_stable l lb h0 :
  is_Some (h0 !! l) → Stable l (Snapshot l lb h0).
Proof.
  intros Hl%elem_of_dom h m (Hlb & Hcopy & Hdom & Hh).
  assert (lb ≠ l) as Hne by (by intros ->).
  split; [done|]. split; [by rewrite lookup_insert_ne|]. split.
  - rewrite dom_insert_L, Hdom.
    apply set_eq. intros x. rewrite !elem_of_union, !elem_of_singleton.
    split; [intros [->|?]; [by left|done]|by right].
  - intros l' Hl' Hlb'. rewrite lookup_insert_ne; [by apply Hh|done].
Qed.

(** [copy.deepcopy(self.model)] on a client whose model object exists. *)
Lemma deepcopy_model_state s m :
  heap s !! model (self s) = Some m →
  deepcopy_model s =
    (Ok (fresh (dom (heap s))),
     {| self := self s; heap := <[fresh (dom (heap s)) := m]> (heap s);
        torch_gen := torch_gen s |}).
Proof.
  intros Hm. unfold deepcopy_model. rewrite bind_run. cbn [get_self].
  rewrite bind_run. unfold deref. by rewrite Hm.
Qed.

Lemma restore_device_state bak s :
  restore_device bak s =
    (Ok (),
     {| self := with_device (default (device (self s)) bak) (self s);
        heap := heap s; torch_gen := torch_gen s |}).
Proof.
  destruct bak as [d|]; [done|].
  cbn. rewrite with_device_same. by destruct s.
Qed.

(** Without a model object, [finetune] raises once the device is set. *)
Lemma finetune_dangling lr fargs dev eps s :
  heap s !! model (self s) = None →
  finetune lr fargs dev eps s =
    (Raise (ExternalError "dangling reference"),
     {| self := with_device (default (device (self s)) dev) (self s);
        heap := heap s; torch_gen := torch_gen s |}).
Proof.
  intros Hm. unfold finetune. rewrite bind_run, override_device_state.
  cbv beta iota. rewrite bind_run. unfold deepcopy_model at 1.
  rewrite bind_run. cbn [get_self]. rewrite bind_run. unfold deref at 1.
  cbn [self heap model with_device]. by rewrite Hm.
Qed.

(** What [finetune] makes of a state whose model object exists: the heap
    gains the snapshot, and the client is rebound to it when the call
    returns. *)
Lemma finetune_outcome lr fargs dev eps s m0 :
  heap s !! model (self s) = Some m0 →
  triple (λ s1, s1 = s) (finetune lr fargs dev eps)
    (λ _ s', (∃ d, self s' = with_model (fresh (dom (heap s)))
                                (with_device d (self s))) ∧
             Snapshot (model (self s)) (fresh (dom (heap s))) (heap s) (heap s'))
    (λ _, Kept (λ c, ∃ d, c = with_device d (self s)) (λ _, True)
            (Snapshot (model (self s)) (fresh (dom (heap s))) (heap s))).
Proof.
  intros Hm.
  set (l := model (self s)). set (lb := fresh (dom (heap s))).
  set (G := λ c, ∃ d, c = with_device d (self s)).
  set (R := Snapshot l lb (heap s)).
  assert (∀ c, G c → model c = l) as G_model by (by intros c [d ->]).
  assert (Stable l R) as R_stable by (by apply Snapshot_stable).
  assert (lb ∉ dom (heap s)) as Hlb by apply is_fresh.
  assert (lb ≠ l) as Hne.
  { intros Heq. apply Hlb. rewrite Heq. by apply elem_of_dom. }
  unfold finetune.
  eapply triple_bind with (Q' := λ _ s1, G (self s1) ∧ heap s1 = heap s).
  { intros s1 ->. rewrite override_device_state. cbn [self heap].
    split; [by eexists|done]. }
  intros bak.
  eapply triple_bind with (Q' := λ lb' s1, lb' = lb ∧ Kept G (λ _, True) R s1).
  { intros s1 [HG Hh].
    rewrite (deepcopy_model_state s1 m0) by (by rewrite (G_model _ HG), Hh).
    rewrite Hh. split; [done|]. split; [done|]. cbn [self heap]. split.
    - exists m0. rewrite (G_model _ HG). by rewrite lookup_insert_ne.
    - split; [done|]. split; [by rewrite lookup_insert_eq|].
      split; [rewrite dom_insert_L; apply (comm_L (∪))|].
      intros l' _ Hl'. by rewrite lookup_insert_ne. }
  intros lb' s1 [-> Hk]. revert s1 Hk.
  eapply triple_bind with (Q' := λ _, Kept G (λ _, True) R).
  { by apply (kept_model_write l G (λ _, True) R G_model R_stable
                (set_training true)). }
  intros [].
  eapply triple_bind with (Q' := λ _, Kept G (λ _, True) R).
  { by apply (kept_model_to_device l G (λ _, True) R G_model R_stable). }
  intros [].
  apply triple_get_self_any. intros c.
  eapply triple_bind with (Q' := λ _ s1, Kept G (λ _, True) R s1 ∧ self s1 = c).
  { intros s1 Hs. unfold deref. destruct (heap s1 !! model c); [done|apply Hs]. }
  intros m.
  eapply triple_bind with (Q' := λ _ s1, Kept G (λ _, True) R s1 ∧ self s1 = c).
  { intros s1 Hs. unfold lift.
    destruct (get_finetune_parameters m fargs); [done|apply Hs]. }
  intros weights.
  eapply triple_bind with (Q' := λ _ s1, Kept G (λ _, True) R s1 ∧ self s1 = c).
  { intros s1 Hs. unfold lift. destruct (get_optimizer _ _ _ _); [done|apply Hs]. }
  intros st. cbv zeta.
  eapply triple_bind with (Q' := λ _, Kept G (λ _, True) R).
  { eapply triple_conseq.
    - apply (triple_for_each
               (λ acc s1, bound_to acc.2 = l ∧ Kept G (λ _, True) R s1)
               (λ _, Kept G (λ _, True) R)).
      intros epoch acc.
      by apply (kept_finetune_epoch l G R G_model R_stable (λ _, True)).
    - intros s1 [Hk Hc]. split; [|done]. cbn. subst c. apply G_model, Hk.
    - by intros acc s1 [_ ?].
    - done. }
  intros [info op]. cbv beta iota.
  intros s1 ([d Hc] & _ & HR).
  rewrite bind_run. unfold set_model at 1. rewrite bind_run. cbn [get_self set_self].
  rewrite bind_run, restore_device_state. cbn.
  split; [|done]. rewrite Hc. by eexists.
Qed.

(** X5. On every path out of [finetune], returning or raising, the client
    object differs from what it was in its device setting and its model
    reference at most, every object that existed before the call, other
    than the client's model, is as it was, none has been dropped, and at
    most one has been created. *)
Theorem finetune_spares_the_other_objects lr fargs dev eps s :
  let s' := (finetune lr fargs dev eps s).2 in
  (∃ d lb, self s' = with_model lb (with_device d (self s))) ∧
  (∀ l, is_Some (heap s !! l) → l ≠ model (self s) →
        heap s' !! l = heap s !! l) ∧
  dom (heap s) ⊆ dom (heap s') ∧
  ∃ lb, dom (heap s') ⊆ dom (heap s) ∪ {[lb]}.
Proof.
  cbv zeta. destruct (heap s !! model (self s)) as [m0|] eqn:Hm.
  - pose proof (finetune_outcome lr fargs dev eps s m0 Hm s eq_refl) as Ht.
    assert ((∃ d lb, self (finetune lr fargs dev eps s).2
                     = with_model lb (with_device d (self s))) ∧
            Snapshot (model (self s)) (fresh (dom (heap s))) (heap s)
              (heap (finetune lr fargs dev eps s).2)) as [Hc Hk].
    { destruct (finetune lr fargs dev eps s) as [[info|e] s']; cbn [snd].
      - destruct Ht as [[d Hc] HR]. split; [by exists d, (fresh (dom (heap s)))|done].
      - destruct Ht as ([d Hc] & _ & HR). split; [|done].
        exists d, (model (self s)). rewrite Hc. by destruct (self s). }
    destruct Hk as (Hlb & _ & Hdom & Hh).
    split; [done|]. split; [|split].
    + intros l Hl Hne. apply Hh; [done|].
      intros ->. by apply Hlb, elem_of_dom.
    + rewrite Hdom. apply union_subseteq_l.
    + exists (fresh (dom (heap s))). by rewrite Hdom.
  - rewrite finetune_dangling by done. cbn [snd self heap].
    split; [|split; [done|split; [done|exists 1%positive; apply union_subseteq_l]]].
    exists (default (device (self s)) dev), (model (self s)).
    by destruct (self s).
Qed.

(** X6. When [finetune] returns, the client is bound to an object that
    did not exist before the call, the copy it took of its model on entry;
    the object it was bound to is still there, under the reference any
    other holder has, and nothing else of the client or of the other
    objects has changed. *)
Theorem finetune_rebinds_to_the_copy lr fargs dev eps s info s' :
  finetune lr fargs dev eps s = (Ok info, s') →
  self s' = with_model (model (self s')) (self s) ∧
  Snapshot (model (self s)) (model (self s')) (heap s) (heap s').
Proof.
  intros Hrun.
  destruct (heap s !! model (self s)) as [m0|] eqn:Hm;
    [|by rewrite finetune_dangling in Hrun].
  pose proof (finetune_outcome lr fargs dev eps s m0 Hm s eq_refl) as Ht.
  rewrite Hrun in Ht. destruct Ht as [[d Hc] HR].
  destruct (finetune_restores _ _ _ _ _ _ _ Hrun) as (_ & _ & _ & Hdev & _).
  rewrite Hc in Hdev. cbn in Hdev. subst d.
  rewrite with_device_same in Hc.
  rewrite Hc. cbn [model with_model]. by split.
Qed.

End FinetuneFrames.

(** ** From the adapters to the batches a client reads *)

Section Batches.
Context `{Torch}.

Lemma rmapM_Ok {A B} (f : A → result B) l l' :
  rmapM f l = Ok l' → Forall2 (λ a b, f a = Ok b) l l'.
Proof.
  revert l'. induction l as [|a l IH]; intros l' Hl; cbn in Hl.
  - injection Hl as <-. constructor.
  - destruct (f a) as [b|] eqn:Hb; [|done]. cbn in Hl.
    destruct (rmapM f l) as [bs|]; [|done]. cbn in Hl.
    injection Hl as <-. constructor; [done|by apply IH].
Qed.

(** Python's subscript: the subscripts it accepts and what it finds. *)
Lemma py_index_spec {A} (l : list A) (i : Z) :
  let n := Z.of_nat (length l) in
  if bool_decide (- n ≤ i < n)%Z
  then ∃ a, l !! Z.to_nat (i `mod` n) = Some a ∧ py_index l i = Ok a
  else py_index l i = Raise IndexError.
Proof.
  cbv zeta. unfold py_index. case_bool_decide as Hi.
  - assert (∃ j, (0 ≤ j < Z.of_nat (length l))%Z ∧
                 (if (i <? 0)%Z then (i + Z.of_nat (length l))%Z else i) = j ∧
                 (i `mod` Z.of_nat (length l))%Z = j) as (j & Hj & -> & ->).
    { destruct (Z.ltb_spec i 0).
      - exists (i + Z.of_nat (length l))%Z. split; [lia|]. split; [done|].
        symmetry. apply Z.mod_unique with (-1)%Z; lia.
      - exists i. split; [lia|]. split; [done|]. apply Z.mod_small. lia. }
    destruct (Z.ltb_spec j 0); [lia|].
    destruct (Z.leb_spec (Z.of_nat (length l)) j); [lia|]. cbn.
    destruct (lookup_lt_is_Some_2 l (Z.to_nat j)) as [a Ha]; [lia|].
    exists a. by rewrite Ha.
  - destruct (Z.ltb_spec i 0).
    + destruct (Z.ltb_spec (i + Z.of_nat (length l)) 0); [done|lia].
    + destruct (Z.ltb_spec i 0); [lia|].
      destruct (Z.leb_spec (Z.of_nat (length l)) i); [done|lia].
Qed.

Lemma py_index_nat_Ok {A} (l : list A) (p : nat) a :
  py_index l (Z.of_nat p) = Ok a → l !! p = Some a.
Proof.
  unfold py_index.
  destruct (Z.ltb_spec (Z.of_nat p) 0); [lia|].
  destruct (_ || _); [done|]. rewrite Nat2Z.id.
  destruct (l !! p); [|done]. by intros [= ->].
Qed.

(** What a view hands out is what its adapter makes of a sample. *)
Lemma DatasetView_getitem_item v (p : nat) it :
  DatasetView_getitem v (Z.of_nat p) = Ok it →
  ∃ i sm, indexes v !! p = Some i ∧ Adapter_samples (tot_data v) !! i = Some sm ∧
    it = Adapter_item (tot_data v) sm.
Proof.
  unfold DatasetView_getitem. intros Hit.
  destruct (py_index (indexes v) (Z.of_nat p)) as [i|] eqn:Hi; [|done].
  cbn in Hit. apply py_index_nat_Ok in Hi. exists i.
  destruct (tot_data v) as [d|d]; cbn in Hit |- *.
  - unfold MNISTDataset_getitem in Hit.
    destruct (py_index (mnist_dataset d) (Z.of_nat i)) as [sm|] eqn:Hsm; [|done].
    cbn in Hit. apply py_index_nat_Ok in Hsm. exists sm.
    injection Hit as <-. by destruct sm.
  - unfold CIFAR100Dataset_getitem in Hit.
    destruct (py_index (cifar_dataset d) (Z.of_nat i)) as [sm|] eqn:Hsm; [|done].
    cbn in Hit. apply py_index_nat_Ok in Hsm. exists sm.
    by injection Hit as <-.
Qed.

(** The samples behind the items of a fetched batch. *)
Lemma fetch_items dl ps data :
  fetch dl ps = Ok data →
  ∃ sms, Forall2 (λ p sm, ∃ i, indexes (dl_dataset dl) !! p = Some i ∧
                    Adapter_samples (tot_data (dl_dataset dl)) !! i = Some sm)
           ps sms ∧
    collate (Adapter_item (tot_data (dl_dataset dl)) <$> sms) = Ok data.
Proof.
  unfold fetch. intros Hf.
  destruct (rmapM _ ps) as [items|] eqn:Hitems; [|done]. cbn in Hf.
  apply rmapM_Ok in Hitems.
  assert (∃ sms, Forall2 (λ p sm, ∃ i, indexes (dl_dataset dl) !! p = Some i ∧
                    Adapter_samples (tot_data (dl_dataset dl)) !! i = Some sm)
                   ps sms ∧
                 items = Adapter_item (tot_data (dl_dataset dl)) <$> sms)
    as (sms & Hsms & ->); [|by exists sms].
  clear Hf. induction Hitems as [|p it ps items Hit _ IH].
  - by exists [].
  - apply DatasetView_getitem_item in Hit as (i & sm & Hi & Hsm & ->).
    destruct IH as (sms & Hsms & ->).
    exists (sm :: sms). split; [|done]. constructor; [by exists i|done].
Qed.

(** A batch of pairs is collated into a sequence of columns. *)
Lemma collate_pairs (sms : list (tensor * Z)) data :
  collate ((λ sm, ItemTuple sm.1 sm.2) <$> sms) = Ok data →
  ∃ cols, data = BatchSeq cols.
Proof.
  destruct sms as [|sm sms]; [done|]. cbn [fmap list_fmap collate].
  destruct (tuple_columns _) as [[imgs targets]|]; [|done].
  cbn. intros [= <-]. by eexists.
Qed.

(** The batches of a shard of the MNIST adapter are sequences of columns. *)
Lemma fetch_pairs dl ps data :
  (∃ d, tot_data (dl_dataset dl) = OfMNIST d) →
  fetch dl ps = Ok data → ∃ cols, data = BatchSeq cols.
Proof.
  intros [d Hd] (sms & _ & Hc)%fetch_items. rewrite Hd in Hc.
  by apply collate_pairs in Hc.
Qed.

(** X7. A batch fetched from a shard of the MNIST adapter is not one
    [preprocess_data] can read: the adapter hands out pairs, a batch of
    pairs is a sequence of columns, and subscripting it with ['input']
    raises [TypeError]; the state is left as it was. *)
Theorem mnist_batches_are_rejected dl ps data s :
  (∃ d, tot_data (dl_dataset dl) = OfMNIST d) →
  fetch dl ps = Ok data →
  preprocess_data data s = (Raise TypeError, s).
Proof. intros Hd Hf. by destruct (fetch_pairs dl ps data Hd Hf) as [cols ->]. Qed.

(** The column of one field of a batch of records. *)
Lemma dict_column_records (sms : list (tensor * Z)) key (f : tensor * Z → Field tensor) :
  (∀ sm, match record_item sm.1 sm.2 with
         | ItemDict d => d !! key = Some (f sm)
         | ItemTuple _ _ => False
         end) →
  dict_column key ((λ sm, record_item sm.1 sm.2) <$> sms) = Ok (f <$> sms).
Proof.
  intros Hf. unfold dict_column.
  induction sms as [|sm sms IH]; [done|].
  rewrite !fmap_cons. cbn [rmapM]. rewrite IH.
  specialize (Hf sm). unfold record_item in Hf |- *. by rewrite Hf.
Qed.

(** A batch of records is collated into a record of columns. *)
Lemma collate_records (sms : list (tensor * Z)) data :
  collate ((λ sm, record_item sm.1 sm.2) <$> sms) = Ok data →
  Batch_getitem data "input" = Ok ((λ sm, FTensor sm.1) <$> sms) ∧
  Batch_getitem data "class_id" = Ok ((λ sm, FInt sm.2) <$> sms).
Proof.
  destruct sms as [|sm0 sms]; [done|].
  set (items := (λ sm, record_item sm.1 sm.2) <$> sm0 :: sms).
  change (collate items) with
    (cols ← rmapM (λ kv : string * Field tensor,
                     col ← dict_column kv.1 items; Ok (kv.1, col))
                  (map_to_list (<["input" := FTensor sm0.1]>
                                  (<["class_id" := FInt sm0.2]> ∅)));
     Ok (BatchDict (list_to_map cols))).
  set (d0 := <["input" := FTensor sm0.1]> (<["class_id" := FInt sm0.2]> ∅)).
  destruct (rmapM _ (map_to_list d0)) as [cols|] eqn:Hcols; [|done].
  intros Hdata. cbn in Hdata. injection Hdata as <-. apply rmapM_Ok in Hcols.
  assert (NoDup cols.*1) as Hnd.
  { assert (cols.*1 = (map_to_list d0).*1) as ->; [|apply NoDup_fst_map_to_list].
    clear -Hcols. induction Hcols as [|kv kc kvs cols' Hkv _ IH]; [done|].
    cbn. rewrite IH. f_equal.
    destruct (dict_column kv.1 items); [|done]. cbn in Hkv. by injection Hkv as <-. }
  assert (∀ key v col, d0 !! key = Some v → dict_column key items = Ok col →
                       (list_to_map cols : gmap string _) !! key = Some col) as Hcol.
  { intros key v col Hkey Hdc. apply elem_of_list_to_map_1; [done|].
    apply elem_of_map_to_list in Hkey.
    clear -Hcols Hkey Hdc. induction Hcols as [|kv kc kvs cols' Hkv _ IH].
    - by apply elem_of_nil in Hkey.
    - apply elem_of_cons in Hkey as [<-|Hkey].
      + cbn [fst] in Hkv. rewrite Hdc in Hkv. cbn in Hkv. injection Hkv as <-.
        apply elem_of_cons. by left.
      + apply elem_of_cons. right. by apply IH. }
  cbn [Batch_getitem]. split.
  - rewrite (Hcol "input" (FTensor sm0.1) ((λ sm, FTensor sm.1) <$> sm0 :: sms));
      [done|done|].
    by apply (dict_column_records _ "input" (λ sm, FTensor sm.1)).
  - rewrite (Hcol "class_id" (FInt sm0.2) ((λ sm, FInt sm.2) <$> sm0 :: sms));
      [done|done|].
    by apply (dict_column_records _ "class_id" (λ sm, FInt sm.2)).
Qed.

(** [preprocess_data] on a batch of records. *)
Lemma preprocess_records (sms : list (tensor * Z)) data s :
  collate ((λ sm, record_item sm.1 sm.2) <$> sms) = Ok data →
  preprocess_data data s =
    (Ok {| x := (λ sm, FTensor sm.1) <$> sms; y := (λ sm, FInt sm.2) <$> sms;
           on_device := device (self s) |}, s).
Proof.
  intros [Hx Hy]%collate_records.
  unfold preprocess_data. rewrite bind_run. cbn [get_self].
  rewrite bind_run. unfold lift at 1. rewrite Hx.
  rewrite bind_run. unfold lift at 1. by rewrite Hy.
Qed.

(** X9. A batch fetched from a shard of the CIFAR-100 adapter is one
    [preprocess_data] reads: it returns the images of the samples at the
    batch's positions as [x] and their class ids as [y], in the order of
    the positions, for the client's device, and leaves the state as it
    was. *)
Theorem cifar100_batches_are_read dl ps data s :
  (∃ d, tot_data (dl_dataset dl) = OfCIFAR100 d) →
  fetch dl ps = Ok data →
  ∃ sms,
    Forall2 (λ p sm, ∃ i, indexes (dl_dataset dl) !! p = Some i ∧
               Adapter_samples (tot_data (dl_dataset dl)) !! i = Some sm) ps sms ∧
    preprocess_data data s =
      (Ok {| x := (λ sm, FTensor sm.1) <$> sms; y := (λ sm, FInt sm.2) <$> sms;
             on_device := device (self s) |}, s).
Proof.
  intros [d Hd] (sms & Hsms & Hc)%fetch_items. exists sms. split; [done|].
  rewrite Hd in Hc. by apply preprocess_records.
Qed.

(** X10. Indexing an adapter with [item] succeeds exactly for
    [-len <= item < len], a negative [item] counting from the end, and
    raises [IndexError] otherwise; what it returns is torchvision's pair
    for the MNIST adapter and the record with fields [input] and
    [class_id] for the CIFAR-100 adapter. *)
Theorem Adapter_getitem_subscript a item :
  let n := Z.of_nat (Adapter_len a) in
  if bool_decide (- n ≤ item < n)%Z
  then ∃ sm, Adapter_samples a !! Z.to_nat (item `mod` n) = Some sm ∧
             Adapter_getitem a item = Ok (Adapter_item a sm)
  else Adapter_getitem a item = Raise IndexError.
Proof.
  cbv zeta.
  pose proof (py_index_spec (Adapter_samples a) item) as Hi. cbv zeta in Hi.
  destruct a as [d|d]; cbn [Adapter_len Adapter_samples Adapter_getitem] in *;
    unfold MNISTDataset_len, CIFAR100Dataset_len,
      MNISTDataset_getitem, CIFAR100Dataset_getitem;
    case_bool_decide.
  - destruct Hi as (sm & Hsm & ->). exists sm. split; [done|]. by destruct sm.
  - by rewrite Hi.
  - destruct Hi as (sm & Hsm & ->). by exists sm.
  - by rewrite Hi.
Qed.

End Batches.

(** ** Training on a shard of the MNIST adapter *)

Section MnistShard.
Context `{Torch}.

(** A pass over a loader with at least one batch establishes what its
    body establishes on the batches the loader fetches. *)
Lemma triple_for_batches_fetched {S} (I J : S → State → Prop) (P : State → Prop)
    dl (body : Batch → S → M S) acc :
  (∀ s acc g, I acc s → I acc {| self := self s; heap := heap s; torch_gen := g |}) →
  (∀ acc s, I acc s → P s) →
  (∀ acc s, J acc s → I acc s) →
  (∀ ps data acc, fetch dl ps = Ok data → triple (I acc) (body data acc) J (λ _, P)) →
  (∀ g, (batch_positions dl g).1 ≠ []) →
  triple (I acc) (for_batches dl body acc) J (λ _, P).
Proof.
  intros Hgen HI HJ Hbody Hne. unfold for_batches.
  eapply triple_bind with (Q' := λ ps s, ps ≠ [] ∧ I acc s).
  - intros s Hs. unfold draw_positions. specialize (Hne (torch_gen s)).
    destruct (batch_positions dl (torch_gen s)) as [ps g']. split; [done|].
    by apply Hgen.
  - intros positions s [Hps Hs]. revert s Hs.
    apply (triple_for_each_once I J); [|done..].
    intros ps acc' s Hs. rewrite bind_run. unfold lift at 1.
    destruct (fetch dl ps) as [data|e] eqn:Hf; [|by eapply HI].
    by apply (Hbody ps data acc' Hf).
Qed.

Variable s0 : State.
Variable ps0 : list tensor.
Hypothesis mnist_shard :
  ∃ d, tot_data (dl_dataset (train_dataloader (self s0))) = OfMNIST d.
Hypothesis some_samples : 0 < DatasetView_len (dl_dataset (train_dataloader (self s0))).
Hypothesis some_batch : (0 < dl_batch_size (train_dataloader (self s0)))%Z.

(** A pass over the shard raises at its first batch, the parameters as
    they were. *)
Lemma train_pass_on_mnist acc :
  triple (Kept (λ c, ∃ d, c = with_device d (self s0))
            (λ m, parameters m = ps0) (λ _, True))
    (train_pass acc) (λ _ _, False)
    (λ _, Kept (λ c, ∃ d, c = with_device d (self s0))
            (λ m, parameters m = ps0) (λ _, True)).
Proof.
  unfold train_pass. apply triple_get_self_any. intros c s [Hk <-].
  destruct (proj1 Hk) as [d Hd]. rewrite Hd. clear Hd. revert s Hk.
  cbn [train_dataloader with_device].
  apply (triple_for_batches_fetched
           (λ _, Kept (λ c, ∃ d, c = with_device d (self s0))
                   (λ m, parameters m = ps0) (λ _, True))
           (λ _ _, False)).
  - intros s acc' g. apply Kept_generator.
  - done.
  - by intros ? ? [].
  - intros ps data [monitor op] Hf.
    destruct (fetch_pairs _ _ _ mnist_shard Hf) as [cols ->].
    by intros s Hs.
  - intros g. by apply batch_positions_nonempty.
Qed.

End MnistShard.

Section MnistTraining.
Context `{Torch}.

(** X8. Training on a shard of the MNIST adapter never returns: with an
    epoch to run, a sample in the shard and a positive batch size,
    [train] raises, and the parameters of the client's model are the ones
    it had: no optimizer step is ever taken. *)
Theorem train_on_mnist_shard_never_returns lr dev s :
  (∃ d, tot_data (dl_dataset (train_dataloader (self s))) = OfMNIST d) →
  (1 ≤ local_eps (learn (args (self s))))%Z →
  0 < DatasetView_len (dl_dataset (train_dataloader (self s))) →
  (0 < dl_batch_size (train_dataloader (self s)))%Z →
  ∃ e s', train lr dev s = (Raise e, s') ∧
    model_parameters s' = model_parameters s.
Proof.
  intros Hmnist Heps Hlen Hbs.
  destruct (heap s !! model (self s)) as [m|] eqn:Hm.
  - set (G := λ c : BaseClient, ∃ d, c = with_device d (self s)).
    set (F := λ m' : Module tensor, parameters m' = parameters m).
    set (R := λ _ : gmap loc (Module tensor), True).
    assert (∀ c, G c → model c = model (self s)) as G_model by (by intros c [d ->]).
    assert (∀ d c, G c → G (with_device d c)) as G_device.
    { intros d c [d' ->]. by exists d. }
    assert (Stable (model (self s)) R) as R_stable by done.
    assert (triple (Kept G F R) (train lr dev) (λ _ _, False) (λ _, Kept G F R))
      as Ht.
    { unfold train.
      eapply triple_bind with (Q' := λ _, Kept G F R);
        [apply (kept_override_device_returns G R G_device)|].
      intros bak.
      eapply triple_bind with (Q' := λ _, Kept G F R);
        [by apply (kept_set_mode (model (self s)) G R G_model R_stable true F F)|].
      intros [].
      eapply triple_bind with (Q' := λ _, Kept G F R);
        [by apply (kept_model_to_device (model (self s)) G F R G_model R_stable)|].
      intros [].
      apply triple_get_self_any. intros c s1 [Hk <-].
      destruct (proj1 Hk) as [d Hd]. rewrite Hd. clear Hd. revert s1 Hk.
      cbn [args model with_device].
      eapply triple_bind with (Q' := λ _, Kept G F R); [apply preserves_deref|].
      intros m1.
      eapply triple_bind with (Q' := λ _, Kept G F R); [apply preserves_lift|].
      intros st. cbv zeta.
      eapply triple_bind with (Q' := λ _ _, False); [|by intros ? ? []].
      unfold for_range.
      apply (triple_for_each_once (λ _, Kept G F R) (λ _ _, False)).
      - intros epoch acc.
        by apply (train_pass_on_mnist s (parameters m) Hmnist Hlen Hbs).
      - by intros ? ? [].
      - destruct (Z.to_nat (local_eps (learn (args (self s))))) eqn:Hn; [lia|done]. }
    assert (Kept G F R s) as Hs.
    { split; [exists (device (self s)); by rewrite with_device_same|].
      split; [by exists m|done]. }
    specialize (Ht s Hs).
    destruct (train lr dev s) as [[r|e] s']; [done|].
    exists e, s'. split; [done|].
    destruct Ht as (_ & (m' & Hm' & Hp) & _).
    unfold model_parameters. rewrite Hm', Hm. cbn. by rewrite Hp.
  - unfold train. rewrite bind_run, override_device_state.
    cbv beta iota. rewrite bind_run, model_train_run, update_run.
    cbn [self heap model with_device]. rewrite Hm.
    eexists _, _. split; [done|].
    unfold model_parameters. cbn [self heap model with_device]. by rewrite Hm.
Qed.

End MnistTraining.

(** ** What [__init__] records *)

Section Constructed.
Context `{Torch}.

Lemma optional_loader_run test bs r :
  optional_loader test bs = Ok r →
  r = (λ t, {| dl_dataset := t; dl_batch_size := bs |}) <$> test.
Proof.
  destruct test as [t|]; cbn; [|by intros [= <-]].
  unfold DataLoader_new. destruct (DataLoader_check _ _); [|done].
  cbn. by intros [= <-].
Qed.

Lemma split_shard_base f d g tr va g' :
  split_shard f d g = (Ok (tr, va), g') →
  tot_data tr = tot_data d ∧ tot_data va = tot_data d ∧
  DatasetView_len tr ≤ DatasetView_len d.
Proof.
  intros Hs. pose proof (split_shard_partition _ _ _ _ _ _ Hs) as [_ Hlen].
  unfold split_shard in Hs.
  destruct (shuffle (indexes d) g) as [ixs g1].
  destruct (py_int _) as [k|]; [|done]. cbn in Hs.
  injection Hs as <- <- <-. split; [done|]. split; [done|].
  unfold DatasetView_len in *. cbn in *. lia.
Qed.

(** X11. A constructed client records the configuration and the id it
    was given; every loader it holds has the configured batch size and
    views the base dataset of the shard; the test loader exists exactly
    when a test dataset was given, and iterates over that dataset; and
    [sample_num] never exceeds the length of the shard. *)
Theorem BaseClient_init_records a id d test m0 dev0 g c g' :
  BaseClient_init a id d test m0 dev0 g = (Ok c, g') →
  args c = a ∧ client_id c = id ∧
  dl_batch_size (train_dataloader c) = batch_size (learn a) ∧
  tot_data (dl_dataset (train_dataloader c)) = tot_data d ∧
  (∀ dl, val_dataloader c = Some dl →
     dl_batch_size dl = batch_size (learn a) ∧
     tot_data (dl_dataset dl) = tot_data d) ∧
  test_dataloader c =
    (λ t, {| dl_dataset := t; dl_batch_size := batch_size (learn a) |}) <$> test ∧
  sample_num c ≤ DatasetView_len d.
Proof.
  unfold BaseClient_init. intros Hinit.
  destruct (val_frac (client a) =? 0)%float.
  - destruct (DataLoader_new d _) as [train_dl|] eqn:Htrain; [|done].
    apply DataLoader_new_dataset in Htrain as [Htd Htb]. cbn in Hinit.
    destruct (optional_loader test _) as [test_dl|] eqn:Htest; [|done].
    apply optional_loader_run in Htest. cbn in Hinit.
    injection Hinit as <- <-. cbn. rewrite Htd, Htb.
    do 4 (split; [done|]). split; [by intros dl|done].
  - destruct (split_shard _ d g) as [[[tr va]|] g1] eqn:Hsplit; [|done].
    apply split_shard_base in Hsplit as (Htr & Hva & Hlen). cbn in Hinit.
    destruct (DataLoader_new tr _) as [train_dl|] eqn:Htrain; [|done].
    apply DataLoader_new_dataset in Htrain as [Htd Htb]. cbn in Hinit.
    destruct (DataLoader_new va _) as [val_dl|] eqn:Hval; [|done].
    apply DataLoader_new_dataset in Hval as [Hvd Hvb]. cbn in Hinit.
    destruct (optional_loader test _) as [test_dl|] eqn:Htest; [|done].
    apply optional_loader_run in Htest. cbn in Hinit.
    injection Hinit as <- <-. cbn. rewrite Htd, Htb.
    do 4 (split; [done|]). split; [|done].
    intros dl [= <-]. by rewrite Hvd, Hvb.
Qed.

End Constructed.

(** ** Calls that return *)

Section FetchedRecords.
Context `{Torch}.

Lemma rmapM_Forall2 {A B} (f : A → result B) l l' :
  Forall2 (λ a b, f a = Ok b) l l' → rmapM f l = Ok l'.
Proof.
  induction 1 as [|a b l l' Hab _ IH]; [done|].
  cbn. rewrite Hab. cbn. by rewrite IH.
Qed.

Lemma rmapM_total {A B} (f : A → result B) l :
  Forall (λ a, ∃ b, f a = Ok b) l → ∃ bs, rmapM f l = Ok bs.
Proof.
  induction 1 as [|a l [b Hb] _ [bs IH]]; [by exists []|].
  exists (b :: bs). cbn. rewrite Hb. cbn. by rewrite IH.
Qed.

(** The batches of a pass are not empty and hold positions of the order
    they are cut from. *)
Lemma chunks_fuel_good fuel n l ps :
  ps ∈ chunks_fuel fuel n l → ps ≠ [] ∧ ps ⊆ l.
Proof.
  revert l. induction fuel as [|fuel IH]; intros l; cbn.
  - by intros ?%elem_of_nil.
  - destruct l as [|a l]; [by intros ?%elem_of_nil|].
    intros [->|Hps]%elem_of_cons.
    + split; [done|]. apply (subseteq_take (S n) (a :: l)).
    + apply IH in Hps as [Hne Hsub]. split; [done|].
      etransitivity; [exact Hsub|]. apply (subseteq_drop (S n) (a :: l)).
Qed.

Lemma batch_positions_good dl g ps :
  ps ∈ (batch_positions dl g).1 →
  ps ≠ [] ∧ Forall (λ p, p < DatasetView_len (dl_dataset dl)) ps.
Proof.
  unfold batch_positions.
  pose proof (randperm_Permutation (DatasetView_len (dl_dataset dl)) g) as Hperm.
  destruct (randperm _ g) as [order g']. cbn in Hperm |- *.
  unfold chunks. destruct (Z.to_nat _) as [|n]; [by intros ?%elem_of_nil|].
  intros [Hne Hsub]%chunks_fuel_good. split; [done|].
  apply Forall_forall. intros p Hp%Hsub. rewrite Hperm in Hp.
  apply elem_of_seq in Hp. lia.
Qed.

(** A non-empty batch of records can be collated. *)
Lemma collate_records_returns (sms : list (tensor * Z)) :
  sms ≠ [] → ∃ data, collate ((λ sm, record_item sm.1 sm.2) <$> sms) = Ok data.
Proof.
  destruct sms as [|sm0 sms]; [done|]. intros _.
  set (items := (λ sm, record_item sm.1 sm.2) <$> sm0 :: sms).
  change (collate items) with
    (cols ← rmapM (λ kv : string * Field tensor,
                     col ← dict_column kv.1 items; Ok (kv.1, col))
                  (map_to_list (<["input" := FTensor sm0.1]>
                                  (<["class_id" := FInt sm0.2]> ∅)));
     Ok (BatchDict (list_to_map cols))).
  set (d0 := <["input" := FTensor sm0.1]> (<["class_id" := FInt sm0.2]> ∅)).
  destruct (rmapM_total
              (λ kv : string * Field tensor,
                 col ← dict_column kv.1 items; Ok (kv.1, col))
              (map_to_list d0)) as [cols ->]; [|by eexists].
  apply Forall_forall. intros [key v] Hkv%elem_of_map_to_list.
  cbn [fst]. unfold d0 in Hkv. unfold items.
  apply lookup_insert_Some in Hkv as [[<- _]|[_ Hkv]].
  - rewrite (dict_column_records _ "input" (λ sm, FTensor sm.1)); [by eexists|done].
  - apply lookup_insert_Some in Hkv as [[<- _]|[_ Hkv]]; [|done].
    rewrite (dict_column_records _ "class_id" (λ sm, FInt sm.2)); [by eexists|done].
Qed.

(** Fetching a batch of valid positions from a shard of the CIFAR-100
    adapter whose indexes are within the dataset. *)
Lemma fetch_records dl d ps :
  tot_data (dl_dataset dl) = OfCIFAR100 d →
  Forall (λ i, i < length (cifar_dataset d)) (indexes (dl_dataset dl)) →
  ps ≠ [] → Forall (λ p, p < DatasetView_len (dl_dataset dl)) ps →
  ∃ sms data, Forall (λ sm, sm ∈ cifar_dataset d) sms ∧ sms ≠ [] ∧
    fetch dl ps = Ok data ∧
    collate ((λ sm, record_item sm.1 sm.2) <$> sms) = Ok data.
Proof.
  intros Hd Hix Hne Hps.
  assert (∃ sms, length sms = length ps ∧ Forall (λ sm, sm ∈ cifar_dataset d) sms ∧
            rmapM (λ i, DatasetView_getitem (dl_dataset dl) (Z.of_nat i)) ps
            = Ok ((λ sm, record_item sm.1 sm.2) <$> sms)) as (sms & Hlen & Hin & Hitems).
  { clear Hne. induction Hps as [|p ps Hp _ (sms & Hlen & Hin & IH)]; [by exists []|].
    destruct (lookup_lt_is_Some_2 (indexes (dl_dataset dl)) p Hp) as [i Hi].
    pose proof (Forall_lookup_1 _ _ _ _ Hix Hi) as Hlt. cbn in Hlt.
    destruct (lookup_lt_is_Some_2 (cifar_dataset d) i Hlt) as [[img target] Hsm].
    exists ((img, target) :: sms). split; [cbn; by rewrite Hlen|].
    split; [constructor; [by eapply list_elem_of_lookup_2|done]|].
    cbn [rmapM]. rewrite IH. unfold DatasetView_getitem.
    rewrite (py_index_in_bounds _ _ _ Hi). cbn. rewrite Hd. cbn.
    by rewrite (CIFAR100Dataset_getitem_record _ _ _ _ Hsm). }
  assert (sms ≠ []) as Hsms by (intros ->; by destruct ps).
  destruct (collate_records_returns sms Hsms) as [data Hdata].
  exists sms, data. split; [done|]. split; [done|]. split; [|done].
  unfold fetch. rewrite Hitems. exact Hdata.
Qed.

End FetchedRecords.

Section ReturningCalls.
Context `{Torch}.
Variables (s0 : State) (E : exn → State → Prop).


Lemma live_generator s g :
  Live s0 s → Live s0 {| self := self s; heap := heap s; torch_gen := g |}.
Proof. by intros [? ?]. Qed.

Lemma live_model_write f :
  triple (Live s0) (get_self ≫= λ c, update (model c) f) (λ _, Live s0) E.
Proof.
  intros s ([dv Hc] & [m Hm]).
  rewrite bind_run. cbn [get_self]. rewrite update_run, Hc.
  cbn [model with_device]. rewrite Hm.
  split; [by exists dv|]. cbn [heap]. by rewrite lookup_insert_eq.
Qed.

Lemma live_model_to_device : triple (Live s0) model_to_device (λ _, Live s0) E.
Proof.
  intros s Hs. unfold model_to_device. rewrite bind_run. cbn [get_self].
  exact (live_model_write (set_placement (device (self s))) s Hs).
Qed.

Lemma live_override_device dev : triple (Live s0) (override_device dev) (λ _, Live s0) E.
Proof.
  intros s ([dv Hc] & Hm). rewrite override_device_state.
  split; [|done]. cbn [self]. rewrite Hc. by eexists.
Qed.

Lemma live_restore_device bak : triple (Live s0) (restore_device bak) (λ _, Live s0) E.
Proof.
  intros s ([dv Hc] & Hm). rewrite restore_device_state.
  split; [|done]. cbn [self]. rewrite Hc. by eexists.
Qed.

Lemma live_deref_model : triple (Live s0) (deref (model (self s0))) (λ _, Live s0) E.
Proof.
  intros s Hs. pose proof Hs as (_ & [m Hm]).
  unfold deref. by rewrite Hm.
Qed.

Lemma live_train_step batch monitor op :
  (∀ m, ∃ r, forward_loss m batch = Ok r) →
  (∀ st m, ∃ r, optim_step st m batch = Ok r) →
  triple (λ s, bound_to op = model (self s0) ∧ Live s0 s)
    (train_step batch monitor op)
    (λ acc s, bound_to acc.2 = model (self s0) ∧ Live s0 s) E.
Proof.
  intros Hfw Hst s [Hop Hk]. pose proof Hk as ([dv Hc] & [m Hm]).
  assert (model (self s) = model (self s0)) as Hl by (by rewrite Hc).
  unfold train_step.
  rewrite bind_run. cbn [get_self].
  rewrite bind_run. unfold deref at 1. rewrite Hl, Hm.
  rewrite bind_run. unfold lift at 1.
  destruct (Hfw m) as [[acc loss] ->].
  rewrite bind_run, Hop. unfold deref at 1. rewrite Hm.
  rewrite bind_run. unfold lift at 1.
  destruct (Hst (opt_state op) m) as [[st ps] ->].
  rewrite bind_run, update_run, Hm.
  split; [done|]. split; [by exists dv|]. cbn [heap].
  by rewrite lookup_insert_eq.
Qed.

Lemma live_test_step batch monitor :
  (∀ m, ∃ r, forward_loss m batch = Ok r) →
  triple (Live s0) (test_step batch monitor) (λ _, Live s0) E.
Proof.
  intros Hfw s Hk. pose proof Hk as ([dv Hc] & [m Hm]).
  unfold test_step. rewrite bind_run. cbn [get_self].
  rewrite bind_run. unfold deref. rewrite Hc. cbn [model with_device]. rewrite Hm.
  rewrite bind_run. unfold lift. by destruct (Hfw m) as [[acc loss] ->].
Qed.

(** A pass over a loader of records returns when its body does. *)
Lemma live_for_batches {S} (I : S → State → Prop) dl d
    (body : Batch → S → M S) acc :
  Reads dl d →
  (∀ s acc g, I acc s → I acc {| self := self s; heap := heap s; torch_gen := g |}) →
  (∀ sms data acc, Forall (λ sm, sm ∈ cifar_dataset d) sms → sms ≠ [] →
     collate ((λ sm, record_item sm.1 sm.2) <$> sms) = Ok data →
     triple (I acc) (body data acc) I E) →
  triple (I acc) (for_batches dl body acc) I E.
Proof.
  intros [Hd Hix] Hgen Hbody. unfold for_batches.
  eapply triple_bind
    with (Q' := λ positions s,
            Forall (λ ps, ps ≠ [] ∧
                      Forall (λ p, p < DatasetView_len (dl_dataset dl)) ps)
              positions ∧ I acc s).
  - intros s Hs. unfold draw_positions.
    pose proof (batch_positions_good dl (torch_gen s)) as Hgood.
    destruct (batch_positions dl (torch_gen s)) as [positions g'].
    cbn in Hgood. split; [by apply Forall_forall|by apply Hgen].
  - intros positions s [Hpos Hs]. revert acc s Hs.
    induction Hpos as [|ps positions [Hne Hps] _ IH]; intros acc s Hs; [done|].
    cbn [for_each]. rewrite bind_run, bind_run. unfold lift at 1.
    destruct (fetch_records dl d ps Hd Hix Hne Hps)
      as (sms & data & Hin & Hsms & -> & Hcol).
    pose proof (Hbody sms data acc Hin Hsms Hcol s Hs) as Hb.
    destruct (body data acc s) as [[acc'|e] s']; [by apply IH|done].
Qed.

Variable d : CIFAR100Dataset.
Hypothesis accepts : Accepts d.
Hypothesis steps : ∀ st m b, ∃ r, optim_step st m b = Ok r.

Lemma live_train_pass acc :
  Reads (train_dataloader (self s0)) d →
  triple (λ s, bound_to acc.2 = model (self s0) ∧ Live s0 s) (train_pass acc)
    (λ acc' s, bound_to acc'.2 = model (self s0) ∧ Live s0 s) E.
Proof.
  intros Hreads. unfold train_pass.
  apply triple_get_self_any. intros c s [[Hop Hk] <-].
  destruct (proj1 Hk) as [dv Hc]. rewrite Hc. clear Hc.
  assert (bound_to acc.2 = model (self s0) ∧ Live s0 s) as Hpre by done.
  clear Hop Hk. revert s Hpre. cbn [train_dataloader with_device].
  apply (live_for_batches (λ acc s, bound_to acc.2 = model (self s0) ∧ Live s0 s)
           _ d); [done| |].
  - intros s acc' g [? ?]. split; [done|]. by apply live_generator.
  - intros sms data [monitor op] Hin Hsms Hcol s Hs.
    rewrite bind_run, (preprocess_records sms data s Hcol).
    apply live_train_step; [|by intros; apply steps|done].
    intros m. by apply (accepts m sms).
Qed.

Lemma live_train lr dev :
  Reads (train_dataloader (self s0)) d →
  (∀ weights, ∃ st,
     get_optimizer (name (optimizer (learn (args (self s0))))) lr
       (momentum (optimizer (learn (args (self s0))))) weights = Ok st) →
  triple (Live s0) (train lr dev) (λ _, Live s0) E.
Proof.
  intros Hreads Hopt. unfold train.
  eapply triple_bind with (Q' := λ _, Live s0); [apply live_override_device|].
  intros bak.
  eapply triple_bind with (Q' := λ _, Live s0); [apply live_model_write|].
  intros [].
  eapply triple_bind with (Q' := λ _, Live s0); [apply live_model_to_device|].
  intros [].
  apply triple_get_self_any. intros c s [Hk <-].
  destruct (proj1 Hk) as [dv Hc]. rewrite Hc. clear Hc. revert s Hk.
  cbn [args model with_device].
  eapply triple_bind with (Q' := λ _, Live s0); [apply live_deref_model|].
  intros m.
  eapply triple_bind with (Q' := λ _, Live s0).
  { intros s Hs. unfold lift.
    by destruct (Hopt (all_parameters m)) as [st ->]. }
  intros st. cbv zeta.
  eapply triple_bind with (Q' := λ _, Live s0).
  { unfold for_range. eapply triple_conseq.
    - apply (triple_for_each
               (λ acc s, bound_to acc.2 = model (self s0) ∧ Live s0 s) E).
      intros epoch acc. by apply live_train_pass.
    - by intros s Hs.
    - by intros acc s [_ ?].
    - done. }
  intros [monitor op]. cbv beta iota.
  eapply triple_bind with (Q' := λ _, Live s0); [apply live_model_write|].
  intros [].
  eapply triple_bind with (Q' := λ _, Live s0); [apply live_restore_device|].
  intros []. by intros s Hs.
Qed.

Lemma live_test dl :
  test_dataloader (self s0) = Some dl → Reads dl d →
  triple (Live s0) test (λ _, Live s0) E.
Proof.
  intros Hdl Hreads. unfold test.
  eapply triple_bind with (Q' := λ _, Live s0); [apply live_model_write|].
  intros [].
  eapply triple_bind with (Q' := λ _, Live s0); [apply live_model_to_device|].
  intros [].
  apply triple_get_self_any. intros c s [Hk <-].
  destruct (proj1 Hk) as [dv Hc]. rewrite Hc. clear Hc. revert s Hk.
  cbn [test_dataloader with_device]. rewrite Hdl.
  eapply triple_bind with (Q' := λ dl' s, dl' = dl ∧ Live s0 s);
    [by intros s Hs|].
  intros dl' s [-> Hs]. revert s Hs.
  eapply triple_bind with (Q' := λ _, Live s0).
  { apply (live_for_batches (λ _, Live s0) _ d); [done| |].
    - intros s acc g. apply live_generator.
    - intros sms data monitor Hin Hsms Hcol s Hs.
      rewrite bind_run, (preprocess_records sms data s Hcol).
      apply live_test_step; [|done].
      intros m. by apply (accepts m sms). }
  intros monitor.
  eapply triple_bind with (Q' := λ _, Live s0); [apply live_model_write|].
  intros []. by intros s Hs.
Qed.

End ReturningCalls.

Section ReturningFinetune.
Context `{Torch}.
Variables (s0 : State) (E : exn → State → Prop).
Variables (d dt : CIFAR100Dataset) (dl : DataLoader).
Hypothesis accepts : Accepts d.
Hypothesis accepts_test : Accepts dt.
Hypothesis steps : ∀ st m b, ∃ r, optim_step st m b = Ok r.
Hypothesis train_reads : Reads (train_dataloader (self s0)) d.
Hypothesis test_loader : test_dataloader (self s0) = Some dl.
Hypothesis test_reads : Reads dl dt.

Lemma live_deepcopy_model : triple (Live s0) deepcopy_model (λ _, Live s0) E.
Proof.
  intros s ([dv Hc] & [m Hm]).
  rewrite (deepcopy_model_state s m) by (by rewrite Hc).
  split; [by exists dv|]. cbn [heap].
  rewrite lookup_insert_ne; [done|].
  intros Heq. apply (is_fresh (dom (heap s))). rewrite Heq.
  by apply elem_of_dom.
Qed.

Lemma live_finetune_epoch epoch acc :
  triple (λ s, bound_to acc.2 = model (self s0) ∧ Live s0 s)
    (finetune_epoch epoch acc)
    (λ acc' s, bound_to acc'.2 = model (self s0) ∧ Live s0 s) E.
Proof.
  destruct acc as [info op]. cbn [snd]. unfold finetune_epoch.
  eapply triple_bind
    with (Q' := λ _ s, bound_to op = model (self s0) ∧ Live s0 s).
  { intros s [Hop Hs].
    pose proof (live_model_write s0 E (set_training true) s Hs) as Hk.
    change ((get_self ≫= λ c, update (model c) (set_training true)) s)
      with (model_train s) in Hk.
    by destruct (model_train s) as [[[]|e] s']. }
  intros [].
  eapply triple_bind
    with (Q' := λ _ s, bound_to op = model (self s0) ∧ Live s0 s).
  { intros s [Hop Hs].
    pose proof (live_model_to_device s0 E s Hs) as Hk.
    by destruct (model_to_device s) as [[[]|e] s']. }
  intros [].
  eapply triple_bind;
    [by apply (live_train_pass s0 E d accepts steps (_, op))|].
  intros [monitor op']. cbn [snd].
  eapply triple_bind
    with (Q' := λ _ s, bound_to op' = model (self s0) ∧ Live s0 s).
  { intros s [Hop Hs].
    pose proof (live_test s0 E dt accepts_test dl test_loader test_reads s Hs)
      as Hk.
    by destruct (test s) as [[t|e] s']. }
  intros tested s Hs. exact Hs.
Qed.

Lemma live_finetune lr fargs dev eps :
  (∀ m, ∃ weights, get_finetune_parameters m fargs = Ok weights) →
  (∀ weights, ∃ st,
     get_optimizer (name (optimizer (learn (args (self s0))))) lr
       (momentum (optimizer (learn (args (self s0))))) weights = Ok st) →
  triple (Live s0) (finetune lr fargs dev eps) (λ _ _, True) E.
Proof.
  intros Hsel Hopt. unfold finetune.
  eapply triple_bind with (Q' := λ _, Live s0); [apply live_override_device|].
  intros bak.
  eapply triple_bind with (Q' := λ _, Live s0); [apply live_deepcopy_model|].
  intros lb.
  eapply triple_bind with (Q' := λ _, Live s0); [apply live_model_write|].
  intros [].
  eapply triple_bind with (Q' := λ _, Live s0); [apply live_model_to_device|].
  intros [].
  apply triple_get_self_any. intros c s [Hk <-].
  destruct (proj1 Hk) as [dv Hc]. rewrite Hc. clear Hc. revert s Hk.
  cbn [args model with_device].
  eapply triple_bind with (Q' := λ _, Live s0); [apply live_deref_model|].
  intros m.
  eapply triple_bind with (Q' := λ _, Live s0).
  { intros s Hs. unfold lift. by destruct (Hsel m) as [weights ->]. }
  intros weights.
  eapply triple_bind with (Q' := λ _, Live s0).
  { intros s Hs. unfold lift. by destruct (Hopt weights) as [st ->]. }
  intros st. cbv zeta.
  eapply triple_bind with (Q' := λ _, Live s0).
  { unfold for_range. eapply triple_conseq.
    - apply (triple_for_each
               (λ acc s, bound_to acc.2 = model (self s0) ∧ Live s0 s) E).
      intros epoch acc. apply live_finetune_epoch.
    - by intros s Hs.
    - by intros acc s [_ ?].
    - done. }
  intros [info op]. cbv beta iota. intros s _.
  rewrite bind_run. unfold set_model at 1. rewrite bind_run.
  cbn [get_self set_self]. by rewrite bind_run, restore_device_state.
Qed.

End ReturningFinetune.

Section Returning.
Context `{Torch}.

Lemma Live_refl s : is_Some (heap s !! model (self s)) → Live s s.
Proof.
  intros Hm. split; [|done]. exists (device (self s)).
  by rewrite with_device_same.
Qed.




End Returning.

(** ** From construction to the calls *)

Section ConstructedLoaders.
Context `{Torch}.

Lemma Forall_slices {A} (P : A → Prop) (l : list A) k :
  Forall P l → Forall P (slice_to l k) ∧ Forall P (slice_from l k).
Proof.
  intros Hl. split; [by apply Forall_take|by apply Forall_drop].
Qed.

(** X15. The loaders of a constructed client read what the shard reads:
    when the shard given to [__init__] wraps the CIFAR-100 adapter [dd]
    and its indexes are positions of the adapter's dataset, so do the
    shards of the train loader and of the validation loader, with or
    without a validation split. *)
Theorem BaseClient_init_loaders_read_the_shard a id d test m0 dev0 g c g' dd :
  tot_data d = OfCIFAR100 dd →
  Forall (λ i, i < length (cifar_dataset dd)) (indexes d) →
  BaseClient_init a id d test m0 dev0 g = (Ok c, g') →
  Reads (train_dataloader c) dd ∧
  ∀ dl, val_dataloader c = Some dl → Reads dl dd.
Proof.
  intros Hd Hix Hinit. unfold Reads.
  destruct (val_frac (client a) =? 0)%float eqn:Hf.
  - destruct (BaseClient_init_whole _ _ _ _ _ _ _ _ _ Hf Hinit) as (Ht & Hv & _).
    rewrite Ht, Hv. split; [by split|done].
  - destruct (BaseClient_init_split _ _ _ _ _ _ _ _ _ Hf Hinit)
      as (tr & va & val_dl & Hsplit & Ht & Hv & Hvd & _).
    rewrite Ht, Hv. subst va.
    destruct (split_shard_base _ _ _ _ _ _ Hsplit) as (Htr & Hva & _).
    destruct (split_shard_run _ _ _ _ _ _ Hsplit) as (k & _ & Hitr & Hiva).
    assert (Forall (λ i, i < length (cifar_dataset dd)) (shuffle (indexes d) g).1)
      as Hsh.
    { by rewrite shuffle_Permutation. }
    destruct (Forall_slices _ _ k Hsh) as [Hto Hfrom].
    split.
    + split; [by rewrite Htr|by rewrite Hitr].
    + intros dl [= <-]. split; [by rewrite Hva|by rewrite Hiva].
Qed.

End ConstructedLoaders.

(** ** What the calls do not depend on *)

Section Bookkeeping.
Context `{Torch}.

Lemma Blind_ret {A} (a : A) : Blind (mret a : M A).
Proof. done. Qed.

Lemma Blind_bind {A B} (m : M A) (k : A → M B) :
  Blind m → (∀ a, Blind (k a)) → Blind (m ≫= k).
Proof.
  intros Hm Hk id n v s. rewrite !bind_run, Hm.
  destruct (m s) as [[a|e] s']; [apply Hk|done].
Qed.

Lemma Blind_lift {A} (r : result A) : Blind (lift r).
Proof. done. Qed.

Lemma Blind_deref l : Blind (deref l).
Proof. intros id n v s. unfold deref. cbn. by destruct (heap s !! l). Qed.

Lemma Blind_store l m : Blind (store l m).
Proof. done. Qed.

Lemma Blind_update l f : Blind (update l f).
Proof. apply Blind_bind; [apply Blind_deref|]. intros m. apply Blind_store. Qed.

(** A continuation that reads none of the three attributes. *)
Lemma Blind_get_self {A} (k : BaseClient → M A) :
  (∀ id n v c, k (with_bookkeeping id n v c) = k c) →
  (∀ c, Blind (k c)) → Blind (get_self ≫= k).
Proof.
  intros Hread Hk id n v s. rewrite !bind_run. cbn [get_self rebooked self].
  rewrite Hread. apply Hk.
Qed.

Lemma Blind_set_device d : Blind (set_device d).
Proof. done. Qed.

Lemma Blind_set_model l : Blind (set_model l).
Proof. done. Qed.

Lemma Blind_model_write f : Blind (get_self ≫= λ c, update (model c) f).
Proof. apply Blind_get_self; [done|]. intros c. apply Blind_update. Qed.

Lemma Blind_model_to_device : Blind model_to_device.
Proof.
  apply Blind_get_self; [done|]. intros c. apply Blind_model_write.
Qed.

Lemma Blind_override_device dev : Blind (override_device dev).
Proof. by destruct dev. Qed.

Lemma Blind_restore_device bak : Blind (restore_device bak).
Proof. by destruct bak. Qed.

Lemma Blind_deepcopy_model : Blind deepcopy_model.
Proof.
  apply Blind_get_self; [done|]. intros c.
  apply Blind_bind; [apply Blind_deref|]. intros m.
  apply Blind_bind; [done|]. intros l.
  apply Blind_bind; [apply Blind_store|]. intros []. apply Blind_ret.
Qed.

Lemma Blind_for_each {A S} (body : A → S → M S) l acc :
  (∀ a acc, Blind (body a acc)) → Blind (for_each l body acc).
Proof.
  intros Hbody. revert acc. induction l as [|a l IH]; intros acc; [done|].
  cbn [for_each]. apply Blind_bind; [apply Hbody|]. intros acc'. apply IH.
Qed.

Lemma Blind_for_batches {S} dl (body : Batch → S → M S) acc :
  (∀ data acc, Blind (body data acc)) → Blind (for_batches dl body acc).
Proof.
  intros Hbody. apply Blind_bind.
  - intros id n v s. unfold draw_positions. cbn.
    by destruct (batch_positions dl (torch_gen s)).
  - intros positions. apply Blind_for_each. intros ps acc'.
    apply Blind_bind; [apply Blind_lift|]. intros data. apply Hbody.
Qed.

Lemma Blind_preprocess_data data : Blind (preprocess_data data).
Proof.
  apply Blind_get_self; [done|]. intros c.
  apply Blind_bind; [apply Blind_lift|]. intros input.
  apply Blind_bind; [apply Blind_lift|]. intros class_id. apply Blind_ret.
Qed.

Lemma Blind_train_step batch monitor op : Blind (train_step batch monitor op).
Proof.
  apply Blind_get_self; [done|]. intros c.
  apply Blind_bind; [apply Blind_deref|]. intros m.
  apply Blind_bind; [apply Blind_lift|]. intros [acc loss].
  apply Blind_bind; [apply Blind_deref|]. intros target.
  apply Blind_bind; [apply Blind_lift|]. intros [st ps].
  apply Blind_bind; [apply Blind_update|]. intros []. apply Blind_ret.
Qed.

Lemma Blind_test_step batch monitor : Blind (test_step batch monitor).
Proof.
  apply Blind_get_self; [done|]. intros c.
  apply Blind_bind; [apply Blind_deref|]. intros m.
  apply Blind_bind; [apply Blind_lift|]. intros [acc loss]. apply Blind_ret.
Qed.

Lemma Blind_train_pass acc : Blind (train_pass acc).
Proof.
  apply Blind_get_self; [done|]. intros c.
  apply Blind_for_batches. intros data [monitor op].
  apply Blind_bind; [apply Blind_preprocess_data|]. intros b.
  apply Blind_train_step.
Qed.

Lemma Blind_train lr dev : Blind (train lr dev).
Proof.
  apply Blind_bind; [apply Blind_override_device|]. intros bak.
  apply Blind_bind; [apply Blind_model_write|]. intros [].
  apply Blind_bind; [apply Blind_model_to_device|]. intros [].
  apply Blind_get_self; [done|]. intros c.
  apply Blind_bind; [apply Blind_deref|]. intros m.
  apply Blind_bind; [apply Blind_lift|]. intros st.
  apply Blind_bind.
  { apply Blind_for_each. intros epoch acc. apply Blind_train_pass. }
  intros [monitor op].
  apply Blind_bind; [apply Blind_model_write|]. intros [].
  apply Blind_bind; [apply Blind_restore_device|]. intros []. apply Blind_ret.
Qed.

Lemma Blind_test : Blind test.
Proof.
  apply Blind_bind; [apply Blind_model_write|]. intros [].
  apply Blind_bind; [apply Blind_model_to_device|]. intros [].
  apply Blind_get_self; [done|]. intros c.
  apply Blind_bind; [by destruct (test_dataloader c)|]. intros dl.
  apply Blind_bind.
  { apply Blind_for_batches. intros data monitor.
    apply Blind_bind; [apply Blind_preprocess_data|]. intros b.
    apply Blind_test_step. }
  intros monitor.
  apply Blind_bind; [apply Blind_model_write|]. intros []. apply Blind_ret.
Qed.

Lemma Blind_finetune_epoch epoch acc : Blind (finetune_epoch epoch acc).
Proof.
  destruct acc as [info op].
  apply Blind_bind; [apply Blind_model_write|]. intros [].
  apply Blind_bind; [apply Blind_model_to_device|]. intros [].
  apply Blind_bind; [apply Blind_train_pass|]. intros [monitor op'].
  apply Blind_bind; [apply Blind_test|]. intros tested. apply Blind_ret.
Qed.

Lemma Blind_finetune lr fargs dev eps : Blind (finetune lr fargs dev eps).
Proof.
  apply Blind_bind; [apply Blind_override_device|]. intros bak.
  apply Blind_bind; [apply Blind_deepcopy_model|]. intros model_bak.
  apply Blind_bind; [apply Blind_model_write|]. intros [].
  apply Blind_bind; [apply Blind_model_to_device|]. intros [].
  apply Blind_get_self; [done|]. intros c.
  apply Blind_bind; [apply Blind_deref|]. intros m.
  apply Blind_bind; [apply Blind_lift|]. intros weights.
  apply Blind_bind; [apply Blind_lift|]. intros st.
  apply Blind_bind.
  { apply Blind_for_each. intros epoch acc. apply Blind_finetune_epoch. }
  intros [info op].
  apply Blind_bind; [apply Blind_set_model|]. intros [].
  apply Blind_bind; [apply Blind_restore_device|]. intros []. apply Blind_ret.
Qed.

(** X16. [train], [test] and [finetune] neither read nor write the
    client's id, its [sample_num] and its validation loader: whatever
    these three are, a call has the same outcome, does the same to the
    model objects and to the other attributes, and leaves the three as
    they were. The validation split made by [__init__] is data no method
    of the class consumes. *)
Theorem calls_ignore_the_validation_split id n v s :
  (∀ lr dev,
     train lr dev (rebooked id n v s)
     = ((train lr dev s).1, rebooked id n v (train lr dev s).2)) ∧
  test (rebooked id n v s) = ((test s).1, rebooked id n v (test s).2) ∧
  (∀ lr fargs dev eps,
     finetune lr fargs dev eps (rebooked id n v s)
     = ((finetune lr fargs dev eps s).1,
        rebooked id n v (finetune lr fargs dev eps s).2)).
Proof.
  split; [|split].
  - intros lr dev. apply Blind_train.
  - apply Blind_test.
  - intros lr fargs dev eps. apply Blind_finetune.
Qed.

End Bookkeeping.

(** ** What [finetune] leaves of the object it trained *)

Section SharedObject.
Context `{Torch}.
Variables (l : loc) (G : BaseClient → Prop).
Hypothesis G_model : ∀ c, G c → model c = l.

(** [test] leaves the client's model object evaluating, on the cpu. *)
Lemma test_settles :
  triple (Kept G (λ _, True) (λ _, True)) test
    (λ _, Kept G (λ m, training m = false ∧ placement m = "cpu") (λ _, True))
    (λ _, Kept G (λ _, True) (λ _, True)).
Proof.
  assert (Stable l (λ _, True)) as R_stable by done.
  assert (∀ {A} (m : M A),
            preserves (Kept G (λ m, training m = false) (λ _, True)) m →
            triple (Kept G (λ m, training m = false) (λ _, True)) m
              (λ _, Kept G (λ m, training m = false) (λ _, True))
              (λ _, Kept G (λ _, True) (λ _, True))) as Hweak.
  { intros A m Hm. by apply kept_weaken. }
  unfold test.
  eapply triple_bind
    with (Q' := λ _, Kept G (λ m, training m = false) (λ _, True)).
  { by apply (kept_model_write_to l G (λ _, True) G_model R_stable
                (set_training false) (λ _, True)). }
  intros [].
  eapply triple_bind
    with (Q' := λ _, Kept G (λ m, training m = false) (λ _, True)).
  { apply Hweak.
    by apply (kept_model_to_device l G (λ m, training m = false) (λ _, True)
                G_model R_stable). }
  intros [].
  apply triple_get_self_any. intros c.
  eapply triple_bind
    with (Q' := λ _, Kept G (λ m, training m = false) (λ _, True)).
  { intros s [Hs _]. destruct (test_dataloader c); [exact Hs|].
    revert Hs. by apply Kept_weaken. }
  intros dl.
  eapply triple_bind
    with (Q' := λ _, Kept G (λ m, training m = false) (λ _, True)).
  { apply Hweak.
    apply (triple_for_batches
             (λ _ s, Kept G (λ m, training m = false) (λ _, True) s)
             (Kept G (λ m, training m = false) (λ _, True)));
      [intros; by apply Kept_generator|done|].
    intros data monitor.
    apply preserves_bind;
      [apply preserves_reader, preprocess_data_state|]; intros b.
    apply preserves_reader, test_step_state. }
  intros monitor.
  eapply triple_bind
    with (Q' := λ _, Kept G (λ m, training m = false ∧ placement m = "cpu")
                       (λ _, True)).
  { by apply (kept_model_write_to l G (λ _, True) G_model R_stable
                (set_placement "cpu") (λ m, training m = false)). }
  intros []. by intros s Hs.
Qed.

Lemma finetune_epoch_settles epoch acc :
  triple (λ s, bound_to acc.2 = l ∧ Kept G (λ _, True) (λ _, True) s)
    (finetune_epoch epoch acc)
    (λ acc' s, bound_to acc'.2 = l ∧
       Kept G (λ m, training m = false ∧ placement m = "cpu") (λ _, True) s)
    (λ _, Kept G (λ _, True) (λ _, True)).
Proof.
  assert (Stable l (λ _, True)) as R_stable by done.
  destruct acc as [info op]. cbn [snd]. unfold finetune_epoch.
  eapply triple_bind
    with (Q' := λ _ s, bound_to op = l ∧ Kept G (λ _, True) (λ _, True) s).
  { intros s [Hop Hs].
    pose proof (kept_model_write l G (λ _, True) (λ _, True) G_model R_stable
                  (set_training true) (λ _ _, I) s Hs) as Hk.
    change ((get_self ≫= λ c, update (model c) (set_training true)) s)
      with (model_train s) in Hk.
    destruct (model_train s) as [[[]|e] s']; [by split|done]. }
  intros [].
  eapply triple_bind
    with (Q' := λ _ s, bound_to op = l ∧ Kept G (λ _, True) (λ _, True) s).
  { intros s [Hop Hs].
    pose proof (kept_model_to_device l G (λ _, True) (λ _, True) G_model R_stable
                  (λ _ _ _, I) s Hs) as Hk.
    destruct (model_to_device s) as [[[]|e] s']; [by split|done]. }
  intros [].
  eapply triple_bind;
    [by apply (kept_train_pass l G (λ _, True) (λ _, True) G_model R_stable
                 (_, op))|].
  intros [monitor op']. cbn [snd].
  eapply triple_bind
    with (Q' := λ _ s, bound_to op' = l ∧
                 Kept G (λ m, training m = false ∧ placement m = "cpu")
                   (λ _, True) s).
  { intros s [Hop Hs]. pose proof (test_settles s Hs) as Hk.
    destruct (test s) as [[t|e] s']; [by split|done]. }
  intros tested s Hs. exact Hs.
Qed.

End SharedObject.

Section SharedObjectAfterFinetune.
Context `{Torch}.

(** X17. A [finetune] call that returns after at least one epoch leaves
    the object it trained, the one the client was bound to on entry and
    any other holder still refers to, in evaluation mode and on the cpu:
    the last thing done to it is the [test] of the last epoch. *)
Theorem finetune_leaves_the_trained_object_evaluating lr fargs dev eps s info s' :
  (1 ≤ default (local_eps (learn (args (self s)))) eps)%Z →
  finetune lr fargs dev eps s = (Ok info, s') →
  ∃ m, heap s' !! model (self s) = Some m ∧
    training m = false ∧ placement m = "cpu".
Proof.
  intros Heps Hrun.
  destruct (heap s !! model (self s)) as [m0|] eqn:Hm;
    [|by rewrite finetune_dangling in Hrun].
  set (l := model (self s)).
  set (G := λ c : BaseClient, ∃ d, c = with_device d (self s)).
  assert (∀ c, G c → model c = l) as G_model by (by intros c [d ->]).
  assert (Stable l (λ _, True)) as R_stable by done.
  assert (triple (λ s1, s1 = s) (finetune lr fargs dev eps)
            (λ _ s1, ∃ m, heap s1 !! l = Some m ∧
               training m = false ∧ placement m = "cpu")
            (λ _ _, True)) as Ht.
  { unfold finetune.
    eapply triple_bind with (Q' := λ _ s1, G (self s1) ∧ heap s1 = heap s).
    { intros s1 ->. rewrite override_device_state. cbn [self heap].
      split; [by eexists|done]. }
    intros bak.
    eapply triple_bind with (Q' := λ _, Kept G (λ _, True) (λ _, True)).
    { intros s1 [HG Hh].
      rewrite (deepcopy_model_state s1 m0) by (by rewrite (G_model _ HG), Hh).
      split; [done|]. split; [|done]. cbn [self heap].
      exists m0. rewrite (G_model _ HG), Hh. split; [|done].
      rewrite lookup_insert_ne; [done|].
      intros Heq. apply (is_fresh (dom (heap s))). rewrite Heq.
      by apply elem_of_dom. }
    intros lb.
    eapply triple_bind with (Q' := λ _, Kept G (λ _, True) (λ _, True)).
    { eapply triple_conseq;
        [by apply (kept_model_write l G (λ _, True) (λ _, True) G_model
                     R_stable (set_training true))|done..]. }
    intros [].
    eapply triple_bind with (Q' := λ _, Kept G (λ _, True) (λ _, True)).
    { eapply triple_conseq;
        [by apply (kept_model_to_device l G (λ _, True) (λ _, True) G_model
                     R_stable)|done..]. }
    intros [].
    apply triple_get_self_any. intros c s1 [Hk <-].
    destruct (proj1 Hk) as [dv Hc]. rewrite Hc. clear Hc. revert s1 Hk.
    cbn [args model with_device].
    eapply triple_bind with (Q' := λ _, Kept G (λ _, True) (λ _, True)).
    { intros s1 Hs. unfold deref. by destruct (heap s1 !! model (self s)). }
    intros m.
    eapply triple_bind with (Q' := λ _, Kept G (λ _, True) (λ _, True)).
    { intros s1 Hs. unfold lift. by destruct (get_finetune_parameters m fargs). }
    intros weights.
    eapply triple_bind with (Q' := λ _, Kept G (λ _, True) (λ _, True)).
    { intros s1 Hs. unfold lift. by destruct (get_optimizer _ _ _ _). }
    intros st. cbv zeta.
    eapply triple_bind
      with (Q' := λ _, Kept G (λ m, training m = false ∧ placement m = "cpu")
                         (λ _, True)).
    { unfold for_range. eapply triple_conseq.
      - apply (triple_for_each_once
                 (λ acc s1, bound_to acc.2 = l ∧ Kept G (λ _, True) (λ _, True) s1)
                 (λ acc s1, bound_to acc.2 = l ∧
                    Kept G (λ m, training m = false ∧ placement m = "cpu")
                      (λ _, True) s1)
                 (λ _, Kept G (λ _, True) (λ _, True))).
        + intros epoch acc. by apply finetune_epoch_settles.
        + intros acc s1 [Hop Hs]. split; [done|]. revert Hs. by apply Kept_weaken.
        + destruct (Z.to_nat (default (local_eps (learn (args (self s)))) eps))
            eqn:Hn; [lia|done].
      - by intros s1 Hs.
      - by intros acc s1 [_ ?].
      - done. }
    intros [info' op]. cbv beta iota.
    intros s1 (HG & (m1 & Hm1 & HF) & _).
    rewrite (G_model _ HG) in Hm1.
    rewrite bind_run. unfold set_model at 1. rewrite bind_run.
    cbn [get_self set_self]. rewrite bind_run, restore_device_state.
    cbn. by exists m1. }
  specialize (Ht s eq_refl). by rewrite Hrun in Ht.
Qed.

End SharedObjectAfterFinetune.

(** ** The further properties on the concrete backend *)

Module MoreWitnesses.
Import Toy.

Lemma with_test_model : is_Some (heap with_test !! model (self with_test)).
Proof. eexists. vm_compute. reflexivity. Qed.

Lemma samples_accepted : Accepts (cifar samples).
Proof.
  intros m sms dv Hin _. cbn.
  assert (existsb negative_label ((λ sm : float * Z, FInt sm.2) <$> sms) = false)
    as ->; [|by eexists].
  induction Hin as [|sm sms Hsm _ IH]; [done|].
  rewrite fmap_cons. cbn [existsb]. rewrite IH, orb_false_r.
  cbn in Hsm. unfold samples in Hsm.
  repeat (apply elem_of_cons in Hsm as [->|Hsm]; [done|]).
  by apply elem_of_nil in Hsm.
Qed.

Lemma with_test_reads :
  Reads (train_dataloader (self with_test)) (cifar samples).
Proof. split; [done|]. cbn. repeat constructor. Qed.

Lemma steps_return (st : optim) (m : Module tensor) (b : XY tensor) :
  ∃ r, optim_step st m b = Ok r.
Proof. by eexists. Qed.

Lemma sgd_is_built (lr : float) (weights : list nat) :
  ∃ st, get_optimizer (name (optimizer (learn (args (self with_test))))) lr
          (momentum (optimizer (learn (args (self with_test))))) weights = Ok st.
Proof. by eexists. Qed.

Lemma test_leaves_evaluation_mode_witness :
  is_Some (heap with_test !! model (self with_test)) ∧
  model_training (test with_test).2 = Some false.
Proof.
  split; [exact with_test_model|].
  exact (test_leaves_evaluation_mode with_test with_test_model).
Defined.

Lemma train_leaves_training_mode_witness :
  is_Some (heap rejected !! model (self rejected)) ∧
  model_training (train 0.5 (Some "cuda") rejected).2 = Some true.
Proof.
  assert (is_Some (heap rejected !! model (self rejected))) as Hm
    by (eexists; vm_compute; reflexivity).
  split; [exact Hm|].
  exact (train_leaves_training_mode 0.5 (Some "cuda") rejected Hm).
Defined.

Lemma finetune_rebinds_to_the_copy_witness :
  ∃ info s',
    finetune 0.5 [0] (Some "cuda") (Some 2%Z) with_test = (Ok info, s') ∧
    self s' = with_model (model (self s')) (self with_test) ∧
    Snapshot (model (self with_test)) (model (self s'))
      (heap with_test) (heap s').
Proof.
  eexists _, _.
  assert (finetune 0.5 [0] (Some "cuda") (Some 2%Z) with_test = (Ok _, _)) as Hrun
    by (vm_compute; reflexivity).
  split; [exact Hrun|].
  exact (finetune_rebinds_to_the_copy _ _ _ _ _ _ _ Hrun).
Defined.

Lemma mnist_batches_are_rejected_witness :
  ∃ data, fetch mnist_loader [0; 1] = Ok data ∧
    preprocess_data data on_mnist = (Raise TypeError, on_mnist).
Proof.
  eexists.
  assert (fetch mnist_loader [0; 1] = Ok _) as Hf by (vm_compute; reflexivity).
  split; [exact Hf|].
  exact (mnist_batches_are_rejected mnist_loader [0; 1] _ on_mnist
           (ex_intro _ mnist eq_refl) Hf).
Defined.

Lemma train_on_mnist_shard_never_returns_witness :
  ∃ e s', train 0.5 None on_mnist = (Raise e, s') ∧
    model_parameters s' = model_parameters on_mnist.
Proof.
  refine (train_on_mnist_shard_never_returns 0.5 None on_mnist
            (ex_intro _ mnist eq_refl) _ _ _).
  - by vm_compute.
  - cbn. lia.
  - by vm_compute.
Defined.

Lemma cifar100_batches_are_read_witness :
  ∃ data, fetch (train_dataloader (self with_test)) [0; 1] = Ok data ∧
    ∃ sms,
      preprocess_data data with_test =
        (Ok {| x := (λ sm, FTensor sm.1) <$> sms; y := (λ sm, FInt sm.2) <$> sms;
               on_device := "cpu" |}, with_test).
Proof.
  eexists.
  assert (fetch (train_dataloader (self with_test)) [0; 1] = Ok _) as Hf
    by (vm_compute; reflexivity).
  split; [exact Hf|].
  destruct (cifar100_batches_are_read (train_dataloader (self with_test)) [0; 1]
              _ with_test (ex_intro _ (cifar samples) eq_refl) Hf)
    as (sms & _ & Hp).
  exists sms. exact Hp.
Defined.

Lemma BaseClient_init_records_witness :
  ∃ c g',
    BaseClient_init (arguments one_fifth 1) 7 (shard hundred)
      (Some (shard samples)) 1%positive "cpu" draws = (Ok c, g') ∧
    client_id c = 7%Z ∧
    test_dataloader c = Some {| dl_dataset := shard samples; dl_batch_size := 2 |} ∧
    sample_num c ≤ 100.
Proof.
  eexists _, _.
  assert (BaseClient_init (arguments one_fifth 1) 7 (shard hundred)
            (Some (shard samples)) 1%positive "cpu" draws = (Ok _, _)) as Hinit
    by (vm_compute; reflexivity).
  split; [exact Hinit|].
  destruct (BaseClient_init_records _ _ _ _ _ _ _ _ _ Hinit)
    as (_ & Hid & _ & _ & _ & Htest & Hnum).
  exact (conj Hid (conj Htest Hnum)).
Defined.




Lemma BaseClient_init_loaders_read_the_shard_witness :
  ∃ c g',
    BaseClient_init (arguments one_fifth 1) 0 (shard hundred) None 1%positive
      "cpu" draws = (Ok c, g') ∧
    Reads (train_dataloader c) (cifar hundred) ∧
    ∀ dl, val_dataloader c = Some dl → Reads dl (cifar hundred).
Proof.
  eexists _, _.
  assert (BaseClient_init (arguments one_fifth 1) 0 (shard hundred) None
            1%positive "cpu" draws = (Ok _, _)) as Hinit
    by (vm_compute; reflexivity).
  split; [exact Hinit|].
  assert (Forall (λ i, i < length (cifar_dataset (cifar hundred)))
            (indexes (shard hundred))) as Hix.
  { apply Forall_forall. intros i Hi%elem_of_seq. exact (proj2 Hi). }
  exact (BaseClient_init_loaders_read_the_shard (arguments one_fifth 1) 0
           (shard hundred) None 1%positive "cpu" draws _ _ (cifar hundred)
           eq_refl Hix Hinit).
Defined.

Lemma finetune_leaves_the_trained_object_evaluating_witness :
  ∃ info s',
    finetune 0.5 [0] (Some "cuda") (Some 2%Z) with_test = (Ok info, s') ∧
    ∃ m, heap s' !! model (self with_test) = Some m ∧
      training m = false ∧ placement m = "cpu".
Proof.
  eexists _, _.
  assert (finetune 0.5 [0] (Some "cuda") (Some 2%Z) with_test = (Ok _, _)) as Hrun
    by (vm_compute; reflexivity).
  split; [exact Hrun|].
  refine (finetune_leaves_the_trained_object_evaluating _ _ _ _ _ _ _ _ Hrun).
  by vm_compute.
Defined.

End MoreWitnesses.
